(** * HiveTracks-BEEP-Sync: a shallow embedding of [HiveTracks-BEEP-Sync.py]

    The script copies inspection records from HiveTracks to BEEP.  This
    development embeds its transformation engine ([transform_records]), its
    SQLite ledger ([init_db], [get_imported_ids], [mark_imported]), its upload
    loop ([upload_records]), its API helpers and its driver ([main]) and
    proves the properties the specification states about them, and further
    properties that the code itself shows.

    Modelling conventions.
    - A Python value that comes out of [json.load] or [response.json()] is a
      [json]; numbers are integers (a JSON float is outside the model).
    - A [dict] is an association list in insertion order.  Objects read from
      JSON have string keys; the [items] dict that the transformation fills
      has arbitrary hashable keys, as [dict.update] can put them there.
    - A [str] is a [string] of bytes; every character-level operation
      ([in] on strings, iteration, [repr], [strptime]) is modelled on ASCII
      text.
    - A raised exception is a [Raise e]; effects (HTTP requests, the log,
      stdout, the preview file, [time.sleep]) are events appended to a trace,
      and the SQLite table is part of the threaded state. *)

From Stdlib Require Import ZArith String Ascii List Bool Lia QArith.
From stdpp Require Import base list strings gmap pretty.
Import ListNotations.
Open Scope string_scope.
Open Scope list_scope.
Set Warnings "-register-all".

(** ** Exceptions and results *)

Inductive pyerr :=
| AttributeError
| TypeError
| KeyError
| IndexError
| ValueError
| FileNotFoundError
| JSONDecodeError
| RuntimeError
| RequestException      (* requests: connection errors and raise_for_status *)
| NoTokenReceived       (* Exception("No BEEP token received") *)
| OutOfFuel.            (* no exception: the model stopped following a loop *)

Inductive result (A : Type) :=
| Ok (a : A)
| Raise (e : pyerr).
Arguments Ok {A} a.
Arguments Raise {A} e.

Definition rbind {A B} (m : result A) (f : A -> result B) : result B :=
  match m with
  | Ok a => f a
  | Raise e => Raise e
  end.

Declare Scope py_scope.
Delimit Scope py_scope with py.
Notation "'let!' x ':=' m 'in' k" := (rbind m (fun x => k))
  (at level 10, x pattern, m at level 100, k at level 200) : py_scope.
Open Scope py_scope.

Definition is_ok {A} (m : result A) : bool :=
  match m with Ok _ => true | Raise _ => false end.

(** [for x in l: acc = f(acc, x)], stopping at the first exception. *)
Fixpoint foldM {A B} (f : B -> A -> result B) (l : list A) (acc : B) : result B :=
  match l with
  | [] => Ok acc
  | x :: l' => let! acc' := f acc x in foldM f l' acc'
  end.

(** [[f(x) for x in l]], stopping at the first exception. *)
Fixpoint mapM {A B} (f : A -> result B) (l : list A) : result (list B) :=
  match l with
  | [] => Ok []
  | x :: l' => let! y := f x in let! ys := mapM f l' in Ok (y :: ys)
  end.

(** ** JSON values as Python sees them *)

Inductive json :=
| JNull
| JBool (b : bool)
| JNum (n : Z)
| JStr (s : string)
| JArr (l : list json)
| JObj (kv : list (string * json)).

(** A Python dict with hashable keys, in insertion order. *)
Definition pydict := list (json * json).

Definition hashable (v : json) : bool :=
  match v with
  | JArr _ | JObj _ => false
  | _ => true
  end.

(** [bool(v)] *)
Definition py_truthy (v : json) : bool :=
  match v with
  | JNull => false
  | JBool b => b
  | JNum n => negb (n =? 0)%Z
  | JStr s => negb (String.eqb s "")
  | JArr l => match l with [] => false | _ => true end
  | JObj kv => match kv with [] => false | _ => true end
  end.

(** [a or b] on values already evaluated *)
Definition py_or (a b : json) : json := if py_truthy a then a else b.

Fixpoint obj_get (k : string) (kv : list (string * json)) : option json :=
  match kv with
  | [] => None
  | (k', v) :: kv' => if String.eqb k k' then Some v else obj_get k kv'
  end.

(** [a == b]: [True == 1], lists compare element-wise, dicts as maps. *)
Fixpoint py_eq (a b : json) : bool :=
  match a, b with
  | JNull, JNull => true
  | JBool x, JBool y => Bool.eqb x y
  | JBool x, JNum n => (n =? (if x then 1 else 0))%Z
  | JNum n, JBool x => (n =? (if x then 1 else 0))%Z
  | JNum m, JNum n => (m =? n)%Z
  | JStr s, JStr t => String.eqb s t
  | JArr l, JArr l' =>
      (fix go (l l' : list json) : bool :=
         match l, l' with
         | [], [] => true
         | x :: l, y :: l' => py_eq x y && go l l'
         | _, _ => false
         end) l l'
  | JObj kv, JObj kv' =>
      (List.length kv =? List.length kv')%nat &&
      forallb (fun p => match obj_get (fst p) kv' with
                        | Some v' => py_eq (snd p) v'
                        | None => false
                        end) kv
  | _, _ => false
  end.

(** *** Strings *)

Fixpoint is_substring (t s : string) : bool :=
  String.prefix t s ||
  match s with
  | EmptyString => false
  | String _ s' => is_substring t s'
  end.

Fixpoint chars (s : string) : list string :=
  match s with
  | EmptyString => []
  | String c s' => String c EmptyString :: chars s'
  end.

Definition join (sep : string) (l : list string) : string :=
  match l with
  | [] => ""
  | x :: l' => fold_left (fun acc y => acc +:+ sep +:+ y) l' x
  end.

Definition hex_digit (n : nat) : ascii :=
  nth n (list_ascii_of_string "0123456789abcdef") "0"%char.

Definition dquote : ascii := "034"%char.
Definition squote : ascii := "039"%char.
Definition backslash : ascii := "092"%char.

Definition repr_char (q c : ascii) : string :=
  let n := nat_of_ascii c in
  if Ascii.eqb c backslash then String backslash (String backslash "")
  else if Ascii.eqb c q then String backslash (String q "")
  else if (n =? 10)%nat then String backslash "n"
  else if (n =? 13)%nat then String backslash "r"
  else if (n =? 9)%nat then String backslash "t"
  else if (n <? 32)%nat || (n =? 127)%nat
       then String backslash
              (String "x" (String (hex_digit (n / 16)) (String (hex_digit (n mod 16)) "")))
  else String c "".

(** [repr(s)] for a str: single quotes unless [s] has one and no double quote. *)
Definition repr_str (s : string) : string :=
  let cs := list_ascii_of_string s in
  let q := if existsb (Ascii.eqb squote) cs && negb (existsb (Ascii.eqb dquote) cs)
           then dquote else squote in
  String q (fold_right (fun c acc => repr_char q c +:+ acc) (String q "") cs).

Fixpoint py_repr (v : json) : string :=
  match v with
  | JNull => "None"
  | JBool true => "True"
  | JBool false => "False"
  | JNum n => pretty n
  | JStr s => repr_str s
  | JArr l => "[" +:+ join ", " (List.map py_repr l) +:+ "]"
  | JObj kv =>
      "{" +:+ join ", " (List.map (fun p => repr_str (fst p) +:+ ": " +:+ py_repr (snd p)) kv) +:+ "}"
  end.

(** [str(v)], also what an f-string substitutes for [{v}]. *)
Definition py_str (v : json) : string :=
  match v with
  | JStr s => s
  | _ => py_repr v
  end.

(** ** Python operations on JSON values *)

Definition has_value {A} (o : option A) : bool :=
  match o with Some _ => true | None => false end.

(** [o.get(k, dflt)] where [o] came out of JSON *)
Definition py_get (o k dflt : json) : result json :=
  match o with
  | JObj kv =>
      match k with
      | JStr s => Ok (default dflt (obj_get s kv))
      | JArr _ | JObj _ => Raise TypeError
      | _ => Ok dflt
      end
  | _ => Raise AttributeError
  end.

Definition index_of (i : Z) (len : nat) : option nat :=
  if (0 <=? i)%Z && (i <? Z.of_nat len)%Z then Some (Z.to_nat i)
  else if (- Z.of_nat len <=? i)%Z && (i <? 0)%Z then Some (Z.to_nat (Z.of_nat len + i))
  else None.

Definition seq_item {A} (l : list A) (i : Z) : result A :=
  match index_of i (List.length l) with
  | Some n => match nth_error l n with Some x => Ok x | None => Raise IndexError end
  | None => Raise IndexError
  end.

(** [c[k]] *)
Definition py_getitem (c k : json) : result json :=
  match c with
  | JObj kv =>
      match k with
      | JStr s => match obj_get s kv with Some v => Ok v | None => Raise KeyError end
      | JArr _ | JObj _ => Raise TypeError
      | _ => Raise KeyError
      end
  | JArr l =>
      match k with
      | JNum i => seq_item l i
      | JBool b => seq_item l (if b then 1 else 0)%Z
      | _ => Raise TypeError
      end
  | JStr s =>
      match k with
      | JNum i => let! c := seq_item (chars s) i in Ok (JStr c)
      | JBool b => let! c := seq_item (chars s) (if b then 1 else 0)%Z in Ok (JStr c)
      | _ => Raise TypeError
      end
  | _ => Raise TypeError
  end.

(** [x in c] *)
Definition py_in (x c : json) : result bool :=
  match c with
  | JObj kv =>
      match x with
      | JStr s => Ok (has_value (obj_get s kv))
      | JArr _ | JObj _ => Raise TypeError
      | _ => Ok false
      end
  | JArr l => Ok (existsb (fun y => py_eq y x) l)
  | JStr s =>
      match x with
      | JStr t => Ok (is_substring t s)
      | _ => Raise TypeError
      end
  | _ => Raise TypeError
  end.

(** [o.items()] *)
Definition py_items (o : json) : result (list (string * json)) :=
  match o with
  | JObj kv => Ok kv
  | _ => Raise AttributeError
  end.

(** [for x in c] *)
Definition py_iter (c : json) : result (list json) :=
  match c with
  | JArr l => Ok l
  | JStr s => Ok (List.map JStr (chars s))
  | JObj kv => Ok (List.map (fun p => JStr (fst p)) kv)
  | _ => Raise TypeError
  end.

(** [any(f(x) for x in l)]: stops at the first true. *)
Fixpoint anyM {A} (f : A -> result bool) (l : list A) : result bool :=
  match l with
  | [] => Ok false
  | x :: l' => let! b := f x in if b then Ok true else anyM f l'
  end.

(** *** Dicts built by the program *)

Fixpoint dict_get (k : json) (d : pydict) : option json :=
  match d with
  | [] => None
  | (k', v) :: d' => if py_eq k' k then Some v else dict_get k d'
  end.

(** [d[k] = v]: an equal key keeps its slot (and its first spelling). *)
Fixpoint dict_set (k v : json) (d : pydict) : pydict :=
  match d with
  | [] => [(k, v)]
  | (k', v') :: d' => if py_eq k' k then (k', v) :: d' else (k', v') :: dict_set k v d'
  end.

(** [d.get(k)] *)
Definition dget (d : pydict) (k : json) : result json :=
  if hashable k then Ok (default JNull (dict_get k d)) else Raise TypeError.

(** [k in d] *)
Definition dcontains (d : pydict) (k : json) : result bool :=
  if hashable k then Ok (has_value (dict_get k d)) else Raise TypeError.

(** [d.update(other)]: a mapping is merged key by key, anything else is
    iterated and each element must unpack to a (key, value) pair. *)
Definition py_update (d : pydict) (other : json) : result pydict :=
  match other with
  | JObj kv => Ok (fold_left (fun d p => dict_set (JStr (fst p)) (snd p) d) kv d)
  | _ =>
      let! elems := py_iter other in
      foldM (fun d e =>
               let! kv := py_iter e in
               match kv with
               | [k; v] => if hashable k then Ok (dict_set k v d) else Raise TypeError
               | _ => Raise ValueError
               end) elems d
  end.

(** ** The record normalizer: [datetime.strptime] and [strftime]

    [strptime] turns the format into a regular expression, one group per
    directive, compiles it with IGNORECASE, takes the first match that the
    backtracking matcher finds at the start of the text and rejects the text
    when the match leaves characters over.  The expression for each directive
    is the one of CPython's [_strptime.TimeRE].  Text is a list of 8-bit
    characters; among those [\d] matches the digits 0 to 9 and no others, and
    ignoring case identifies a letter with its other case only. *)

Inductive re :=
| Chr (c : ascii)                    (* a literal character, case ignored *)
| Rng (lo hi : ascii)                (* [lo-hi] *)
| Seq (a b : re)
| Alt (a b : re)                     (* a|b, [a] tried first *)
| Rep (a : re) (lo hi : nat)         (* a{lo,hi}, greedy *)
| Grp (name : string) (a : re).      (* (?P<name>a) *)

Definition lower (c : ascii) : ascii :=
  let n := nat_of_ascii c in
  if (65 <=? n)%nat && (n <=? 90)%nat then ascii_of_nat (n + 32) else c.

Definition in_range (lo hi c : ascii) : bool :=
  (nat_of_ascii lo <=? nat_of_ascii c)%nat && (nat_of_ascii c <=? nat_of_ascii hi)%nat.

Definition groups := list (string * list ascii).

(** A match: the groups it captured, the text it consumed, the text left. *)
Record rmatch := {
  captured : groups;
  consumed : list ascii;
  rest : list ascii
}.

(** A match followed by a match of what it left. *)
Definition join_match (m m' : rmatch) : rmatch :=
  {| captured := captured m ++ captured m';
     consumed := consumed m ++ consumed m';
     rest := rest m' |}.

Definition and_then (ms : list rmatch) (k : list ascii -> list rmatch) : list rmatch :=
  flat_map (fun m => List.map (join_match m) (k (rest m))) ms.

Definition empty_match (s : list ascii) : rmatch :=
  {| captured := []; consumed := []; rest := s |}.

Definition one_char (x : ascii) (s : list ascii) : rmatch :=
  {| captured := []; consumed := [x]; rest := s |}.

Fixpoint rep_match (ma : list ascii -> list rmatch) (lo hi : nat) (s : list ascii)
  : list rmatch :=
  match hi with
  | O => match lo with O => [empty_match s] | S _ => [] end
  | S hi' =>
      and_then (ma s) (rep_match ma (pred lo) hi')
      ++ match lo with O => [empty_match s] | S _ => [] end
  end.

(** All the ways [r] matches a prefix of [s], in the order the
    backtracking matcher tries them. *)
Fixpoint re_match (r : re) (s : list ascii) : list rmatch :=
  match r with
  | Chr c =>
      match s with
      | x :: s' => if Ascii.eqb (lower c) (lower x) then [one_char x s'] else []
      | [] => []
      end
  | Rng lo hi =>
      match s with
      | x :: s' => if in_range lo hi x then [one_char x s'] else []
      | [] => []
      end
  | Seq a b => and_then (re_match a s) (re_match b)
  | Alt a b => re_match a s ++ re_match b s
  | Rep a lo hi => rep_match (re_match a) lo hi s
  | Grp name a =>
      List.map (fun m => {| captured := (name, consumed m) :: captured m;
                            consumed := consumed m; rest := rest m |})
               (re_match a s)
  end.

Definition digit : re := Rng "0" "9".

Definition re_Y : re := Grp "Y" (Seq digit (Seq digit (Seq digit digit))).
Definition re_m : re :=
  Grp "m" (Alt (Seq (Chr "1") (Rng "0" "2")) (Alt (Seq (Chr "0") (Rng "1" "9")) (Rng "1" "9"))).
Definition re_d : re :=
  Grp "d" (Alt (Seq (Chr "3") (Rng "0" "1"))
          (Alt (Seq (Rng "1" "2") digit)
          (Alt (Seq (Chr "0") (Rng "1" "9"))
          (Alt (Rng "1" "9")
               (Seq (Chr " ") (Rng "1" "9")))))).
Definition re_H : re :=
  Grp "H" (Alt (Seq (Chr "2") (Rng "0" "3")) (Alt (Seq (Rng "0" "1") digit) digit)).
Definition re_M : re := Grp "M" (Alt (Seq (Rng "0" "5") digit) digit).
Definition re_S : re :=
  Grp "S" (Alt (Seq (Chr "6") (Rng "0" "1")) (Alt (Seq (Rng "0" "5") digit) digit)).
Definition re_f : re := Grp "f" (Rep digit 1 6).

(** ["%Y-%m-%dT%H:%M:%S.%fZ"] *)
Definition source_format : re :=
  Seq re_Y (Seq (Chr "-") (Seq re_m (Seq (Chr "-") (Seq re_d (Seq (Chr "T")
  (Seq re_H (Seq (Chr ":") (Seq re_M (Seq (Chr ":") (Seq re_S (Seq (Chr ".")
  (Seq re_f (Chr "Z"))))))))))))).

Record datetime := {
  year : Z; month : Z; day : Z;
  hour : Z; minute : Z; second : Z; microsecond : Z
}.

(** [int(text)] for a group's text: decimal digits, blanks ignored. *)
Definition int_of (cs : list ascii) : Z :=
  fold_left (fun acc c =>
               if in_range "0" "9" c
               then (10 * acc + (Z.of_nat (nat_of_ascii c) - 48))%Z else acc)
            cs 0%Z.

Definition group (name : string) (g : groups) : list ascii :=
  match List.find (fun p => String.eqb (fst p) name) g with
  | Some p => snd p
  | None => []
  end.

Definition is_leap (y : Z) : bool :=
  ((y mod 4 =? 0) && negb (y mod 100 =? 0) || (y mod 400 =? 0))%Z.

Definition days_in_month (y m : Z) : Z :=
  match m with
  | 2 => if is_leap y then 29 else 28
  | 4 | 6 | 9 | 11 => 30
  | _ => 31
  end%Z.

(** What the [date] and [datetime] constructors accept. *)
Definition valid_datetime (dt : datetime) : bool :=
  ((1 <=? year dt) && (year dt <=? 9999) &&
   (1 <=? month dt) && (month dt <=? 12) &&
   (1 <=? day dt) && (day dt <=? days_in_month (year dt) (month dt)) &&
   (0 <=? hour dt) && (hour dt <=? 23) &&
   (0 <=? minute dt) && (minute dt <=? 59) &&
   (0 <=? second dt) && (second dt <=? 59) &&
   (0 <=? microsecond dt) && (microsecond dt <=? 999999))%Z.

Definition strptime (text : string) : result datetime :=
  match re_match source_format (list_ascii_of_string text) with
  | [] => Raise ValueError                       (* does not match format *)
  | m :: _ =>
      match rest m with
      | _ :: _ => Raise ValueError               (* unconverted data remains *)
      | [] =>
          let g := captured m in
          let f := group "f" g in
          let dt := {| year := int_of (group "Y" g);
                       month := int_of (group "m" g);
                       day := int_of (group "d" g);
                       hour := int_of (group "H" g);
                       minute := int_of (group "M" g);
                       second := int_of (group "S" g);
                       microsecond := int_of (f ++ repeat "0"%char (6 - List.length f)) |} in
          if valid_datetime dt then Ok dt else Raise ValueError
      end
  end.

Definition digit_char (n : Z) : ascii := ascii_of_nat (Z.to_nat (48 + n mod 10)%Z).

Definition pad2 (n : Z) : string :=
  String (digit_char (n / 10)%Z) (String (digit_char n) "").

Definition pad4 (n : Z) : string :=
  String (digit_char (n / 1000)%Z) (String (digit_char (n / 100)%Z) (pad2 n)).

(** [dt.strftime("%Y-%m-%dT%H:%M:%SZ")].  [%Y] is written with four digits,
    as the library documents it and as every platform writes the years from
    1000 on; for earlier years the C library decides whether to pad. *)
Definition strftime (dt : datetime) : string :=
  pad4 (year dt) +:+ "-" +:+ pad2 (month dt) +:+ "-" +:+ pad2 (day dt) +:+ "T" +:+
  pad2 (hour dt) +:+ ":" +:+ pad2 (minute dt) +:+ ":" +:+ pad2 (second dt) +:+ "Z".

(** [datetime.strptime(v, "%Y-%m-%dT%H:%M:%S.%fZ").strftime("%Y-%m-%dT%H:%M:%SZ")] *)
Definition normalize_date (v : json) : result string :=
  match v with
  | JStr text => let! dt := strptime text in Ok (strftime dt)
  | _ => Raise TypeError
  end.

(** ** The transformation engine: [transform_records] *)

Record payload := {
  date : string;
  checklist_id : json;
  reminder : json;
  notes : json;
  hive_ids : list json;
  items : pydict
}.

(** A payload with its provenance: [(payload, src_id, checklist_id)]. *)
Definition transformed := (payload * string * string)%type.

(** [{x["name"]: x["id"] for x in ref.get(field, []) if x.get("name") and x.get("id")}] *)
Definition name_id_map (ref : json) (field : string) : result pydict :=
  let! lst := py_get ref (JStr field) (JArr []) in
  let! xs := py_iter lst in
  foldM (fun acc x =>
           let! n := py_get x (JStr "name") JNull in
           if py_truthy n then
             let! i := py_get x (JStr "id") JNull in
             if py_truthy i then
               let! k := py_getitem x (JStr "name") in
               let! v := py_getitem x (JStr "id") in
               if hashable k then Ok (dict_set k v acc) else Raise TypeError
             else Ok acc
           else Ok acc) xs [].

(** Step 1, lines 206-208: the direct field map. *)
Definition apply_field_map (r mappings : json) (its : pydict) : result pydict :=
  let! field_map := py_get mappings (JStr "field_map") (JObj []) in
  let! entries := py_items field_map in
  foldM (fun its e =>
           let beep_item_id := fst e in
           let ht_field := snd e in
           let! present := py_in ht_field r in
           if present then
             let! v := py_get r ht_field JNull in
             match v with
             | JNull => Ok its
             | _ => Ok (dict_set (JStr beep_item_id) v its)
             end
           else Ok its) entries its.

(** Step 2, lines 211-215: the enums. *)
Definition apply_enums (r mappings : json) (its : pydict) : result pydict :=
  let! enums := py_get mappings (JStr "enums") (JObj []) in
  let! entries := py_items enums in
  foldM (fun its e =>
           let ht_field := fst e in
           let value_map := snd e in
           let! ht_val := py_get r (JStr ht_field) JNull in
           let! known := py_in ht_val value_map in
           if known then
             let! sets := py_getitem value_map ht_val in
             let! pairs := py_items sets in
             Ok (fold_left (fun its p => dict_set (JStr (fst p)) (snd p) its) pairs its)
           else Ok its) entries its.

(** Step 3, lines 218-224: the stage flags. *)
Definition apply_stages_flags (r mappings : json) (its : pydict) : result pydict :=
  let! stages_cfg := py_get mappings (JStr "stages_flags") (JObj []) in
  let! stages_field := py_get stages_cfg (JStr "field") (JStr "inspectionBroodStages") in
  let! stage_flags := py_get stages_cfg (JStr "flags") (JObj []) in
  let! stages0 := py_get r stages_field (JArr []) in
  let stages := py_or stages0 (JArr []) in
  let! entries := py_items stage_flags in
  foldM (fun its e =>
           let label := fst e in
           let beep_item_id := snd e in
           let! present := py_in (JStr label) stages in
           if present then Ok (dict_set (JStr (py_str beep_item_id)) (JBool true) its)
           else Ok its) entries its.

(** [items.update(rule.get("set", {}))] *)
Definition update_with_set (rule : json) (its : pydict) : result pydict :=
  let! s := py_get rule (JStr "set") (JObj []) in
  py_update its s.

(** The three conditions of one feeding rule, lines 230-235. *)
Definition matches_type (food_type rule : json) : result bool :=
  let! has := py_in (JStr "if_type") rule in
  if has then
    let! t := py_getitem rule (JStr "if_type") in Ok (py_eq food_type t)
  else Ok false.

Definition matches_contains_any (food_other rule : json) : result bool :=
  let! has := py_in (JStr "if_other_contains_any") rule in
  if has then
    let! xs0 := py_getitem rule (JStr "if_other_contains_any") in
    let! xs := py_iter xs0 in
    anyM (fun x => py_in x food_other) xs
  else Ok false.

Definition matches_contains (food_other rule : json) : result bool :=
  let! has := py_in (JStr "if_other_contains") rule in
  if has then
    let! x := py_getitem rule (JStr "if_other_contains") in py_in x food_other
  else Ok false.

Definition apply_rule (food_type food_other : json) (its : pydict) (rule : json)
  : result pydict :=
  let! c1 := matches_type food_type rule in
  let! its1 := (if c1 then update_with_set rule its else Ok its) in
  let! c2 := matches_contains_any food_other rule in
  let! its2 := (if c2 then update_with_set rule its1 else Ok its1) in
  let! c3 := matches_contains food_other rule in
  if c3 then update_with_set rule its2 else Ok its2.

(** Step 4, lines 227-235: the feeding rules, in declared order. *)
Definition apply_feeding_rules (r mappings : json) (its : pydict) : result pydict :=
  let! food_type := py_get r (JStr "feedBeesFoodType") JNull in
  let! fo := py_get r (JStr "feedBeesFoodTypeOther") JNull in
  let food_other := py_or fo (JStr "") in
  let! rules0 := py_get mappings (JStr "feeding_rules") (JArr []) in
  let! rules := py_iter rules0 in
  foldM (apply_rule food_type food_other) rules its.

(** Lines 203-235: [items] starts empty and goes through the four tables. *)
Definition build_items (r mappings : json) : result pydict :=
  let! i1 := apply_field_map r mappings [] in
  let! i2 := apply_enums r mappings i1 in
  let! i3 := apply_stages_flags r mappings i2 in
  apply_feeding_rules r mappings i3.

(** Line 238: [[hive_map.get(h["name"]) for h in r.get("hives", []) if hive_map.get(h["name"])]] *)
Definition hive_step (hive_map : pydict) (acc : list json) (h : json) : result (list json) :=
  let! n := py_getitem h (JStr "name") in
  let! v := dget hive_map n in
  if py_truthy v then Ok (acc ++ [v]) else Ok acc.

Definition resolve_hive_ids (hive_map : pydict) (r : json) : result (list json) :=
  let! hs0 := py_get r (JStr "hives") (JArr []) in
  let! hs := py_iter hs0 in
  foldM (hive_step hive_map) hs [].

(** Lines 241-242: [checklist_map.get(rec_type) or checklist_map.get(fallback)] *)
Definition resolve_checklist (checklist_map : pydict) (fallback rec_type : json)
  : result json :=
  let! c := dget checklist_map rec_type in
  if py_truthy c then Ok c else dget checklist_map fallback.

(** Line 245 *)
Definition make_reminder (checklist_map : pydict) (r rec_type : json) : result json :=
  let! found := dcontains checklist_map rec_type in
  if found then Ok JNull
  else
    let! t := py_get r (JStr "type") JNull in
    let! o := py_get r (JStr "typeOther") JNull in
    Ok (JStr ("Missing: " +:+ py_str t +:+ "/" +:+ py_str o)).

(** Line 249: [datetime.strptime(r["actionDate"], ...).strftime(...)] *)
Definition normalized_action_date (r : json) : result string :=
  let! raw := py_getitem r (JStr "actionDate") in
  normalize_date raw.

(** The body of the loop over the records, lines 202-261. *)
Definition transform_record (hive_map checklist_map : pydict) (fallback mappings r : json)
  : result transformed :=
  let! src_id := py_get r (JStr "id") JNull in
  let! its := build_items r mappings in
  let! hids := resolve_hive_ids hive_map r in
  let! rec_type := py_get r (JStr "type") JNull in
  let! cid := resolve_checklist checklist_map fallback rec_type in
  let! rem := make_reminder checklist_map r rec_type in
  let! action_date := normalized_action_date r in
  let! nts := py_get r (JStr "notes") JNull in
  Ok ({| date := action_date; checklist_id := cid; reminder := rem;
         notes := nts; hive_ids := hids; items := its |},
      py_str src_id, py_str cid).

Definition transform_records (records : list json) (beep_hives beep_checklists mappings : json)
  : result (list transformed) :=
  let! hive_map := name_id_map beep_hives "hives" in
  let! checklist_map := name_id_map beep_checklists "checklists" in
  let! fallback := py_get mappings (JStr "checklist_fallback") (JStr "TBD") in
  mapM (transform_record hive_map checklist_map fallback mappings) records.

(** ** Effects: requests, log, stdout, files, sleep and the SQLite table *)

Inductive request :=
| HtSignin (email password : string)       (* POST .../api/trpc/auth.signin *)
| HtGetPage (url cookie : string) (skip : Z)
| BeepLogin (email password : string)      (* POST https://api.beep.nl/api/login *)
| BeepGet (url auth : string)
| BeepStore (auth : string) (p : payload). (* POST .../api/inspections/store *)

Inductive response :=
| NoResponse                                   (* the request raised *)
| Response (status : nat) (body : option json). (* [None]: the body is not JSON *)

Inductive message :=
| Text (s : string)
| Uploaded (d : string)
| FailedUpload (d : string) (e : pyerr)
| Error (e : pyerr)
| DryRunComplete (path : string)
| TransformationComplete
| Summary (processed eligible ntransformed : nat).

Inductive event :=
| Http (req : request) (resp : response)
| Log (m : message)
| Print (m : message)
| WriteJson (path : string) (doc : list payload)
| Sleep (seconds : Q).

Module LedgerRow.
(** A row of [imported_records]; [record_id] is the primary key. *)
Record t := {
  record_id : string;
  action_date : string;
  checklist_id : string;
  created_at : string
}.
End LedgerRow.

(** The part of the world the script reads. *)
Record world := {
  getenv : string -> option string;            (* after [load_dotenv] *)
  read_json : string -> option (option json);  (* no such file / not JSON / parsed *)
  http : list event -> request -> response;    (* the answer, given what happened so far *)
  sql_now : list event -> string               (* SQLite's [datetime('now')] *)
}.

(** What a run changes: the table behind [conn] and the trace of events.
    A database that does not exist yet is the empty table. *)
Record state := {
  table : list LedgerRow.t;
  trace : list event
}.

(** The statuses for which [raise_for_status] raises. *)
Definition is_error_status (status : nat) : bool :=
  (400 <=? status)%nat && (status <? 600)%nat.
Arguments is_error_status : simpl never.

Definition io (A : Type) := state -> result A * state.

Definition ret {A} (a : A) : io A := fun st => (Ok a, st).
Definition raise {A} (e : pyerr) : io A := fun st => (Raise e, st).
Definition lift {A} (m : result A) : io A := fun st => (m, st).
Definition bind {A B} (m : io A) (f : A -> io B) : io B :=
  fun st => match m st with
            | (Ok a, st') => f a st'
            | (Raise e, st') => (Raise e, st')
            end.

Notation "'do!' x ':=' m 'in' k" := (bind m (fun x => k))
  (at level 10, x pattern, m at level 100, k at level 200) : py_scope.

(** [try: m  except Exception as e: h(e)].  [OutOfFuel] is no exception. *)
Definition catch {A} (m : io A) (h : pyerr -> io A) : io A :=
  fun st => match m st with
            | (Raise OutOfFuel, st') => (Raise OutOfFuel, st')
            | (Raise e, st') => h e st'
            | ok => ok
            end.

Definition emit (e : event) : io unit :=
  fun st => (Ok tt, {| table := table st; trace := trace st ++ [e] |}).

Definition log (m : message) : io unit := emit (Log m).
Definition print (m : message) : io unit := emit (Print m).

Section Script.
Variable w : world.

Definition send (req : request) : io response :=
  fun st => let resp := http w (trace st) req in
            (Ok resp, {| table := table st; trace := trace st ++ [Http req resp] |}).

(** [requests.post/get(...)] followed by [response.raise_for_status()] *)
Definition request_ok (req : request) : io (option json) :=
  do! resp := send req in
  match resp with
  | NoResponse => raise RequestException
  | Response status body =>
      if is_error_status status then raise RequestException else ret body
  end.

(** [response.json()] *)
Definition body_json (body : option json) : io json :=
  match body with
  | Some v => ret v
  | None => raise JSONDecodeError
  end.

(** *** SQLite *)

Definition init_db : io unit := ret tt.

Definition get_imported_ids : io (gset string) :=
  fun st => (Ok (list_to_set (List.map LedgerRow.record_id (table st))), st).

(** [INSERT OR IGNORE]: a row whose primary key is taken is dropped. *)
Definition insert_or_ignore (r : LedgerRow.t) (t : list LedgerRow.t) : list LedgerRow.t :=
  if existsb (fun x => String.eqb (LedgerRow.record_id x) (LedgerRow.record_id r)) t
  then t else t ++ [r].

Definition mark_imported (record_id action_date checklist_id : string) : io unit :=
  fun st =>
    let r := {| LedgerRow.record_id := record_id; LedgerRow.action_date := action_date;
                LedgerRow.checklist_id := checklist_id;
                LedgerRow.created_at := sql_now w (trace st) |} in
    (Ok tt, {| table := insert_or_ignore r (table st); trace := trace st |}).

(** *** Files *)

Definition load_json_file (path : string) : io json :=
  match read_json w path with
  | None =>
      do! _ := log (Text ("File not found: " +:+ path)) in raise FileNotFoundError
  | Some content =>
      do! _ := log (Text ("Loaded file: " +:+ path)) in
      match content with
      | Some v => ret v
      | None => raise JSONDecodeError
      end
  end.

(** *** API helpers *)

Definition get_beep_token (email password : string) : io json :=
  do! body := request_ok (BeepLogin email password) in
  do! v := body_json body in
  do! token := lift (py_get v (JStr "api_token") JNull) in
  if py_truthy token then ret token else raise NoTokenReceived.

Definition get_hivetracks_token (email password : string) : io json :=
  do! body := request_ok (HtSignin email password) in
  do! v := body_json body in
  lift (let! a := py_getitem v (JStr "result") in
        let! b := py_getitem a (JStr "data") in
        let! c := py_getitem b (JStr "json") in
        let! d := py_getitem c (JStr "tokens") in
        py_getitem d (JStr "accessToken")).

Definition get_beep_data (url : string) (token : json) : io json :=
  do! body := request_ok (BeepGet url ("Bearer " +:+ py_str token)) in
  body_json body.

Definition get_page (url : string) (token : json) (page page_size : Z) : io json :=
  do! body := request_ok (HtGetPage url ("access_token=" +:+ py_str token)
                                    (page * page_size)%Z) in
  do! v := body_json body in
  lift (let! a := py_getitem v (JStr "result") in
        let! b := py_getitem a (JStr "data") in
        let! c := py_getitem b (JStr "json") in
        py_getitem c (JStr "results")).

Definition records_url : string :=
  "https://pro.hivetracks.com/api/trpc/admin.record.paginatedList".

(** The [while True] loop of [get_hivetracks_records], from page [page] on
    with [records] collected so far; [fuel] bounds the pages fetched. *)
Fixpoint fetch_pages (fuel : nat) (token : json) (page : Z) (records : list json)
  : io (list json) :=
  match fuel with
  | O => raise OutOfFuel
  | S fuel' =>
      do! _ := log (Text ("Fetching HiveTracks page " +:+ pretty page)) in
      do! page_data := get_page records_url token page 10 in
      if py_truthy page_data then
        do! more := lift (py_iter page_data) in
        fetch_pages fuel' token (page + 1)%Z (records ++ more)
      else ret records
  end.

Definition get_hivetracks_records (fuel : nat) (token : json) : io json :=
  do! records := fetch_pages fuel token 0 [] in ret (JArr records).

(** *** Mappings *)

Definition setdefault (k : string) (v : json) (kv : list (string * json))
  : list (string * json) :=
  match obj_get k kv with
  | Some _ => kv
  | None => kv ++ [(k, v)]
  end.

Definition load_mappings (path : string) : io json :=
  do! m := load_json_file path in
  match m with
  | JObj kv =>
      ret (JObj (setdefault "checklist_fallback" (JStr "TBD")
                (setdefault "feeding_rules" (JArr [])
                (setdefault "stages_flags"
                   (JObj [("field", JStr "inspectionBroodStages"); ("flags", JObj [])])
                (setdefault "enums" (JObj [])
                (setdefault "field_map" (JObj []) kv))))))
  | _ => raise AttributeError
  end.

(** *** Upload *)

(** The [try] block of one iteration, lines 277-286. *)
Definition store_and_mark (beep_token : json) (t : transformed) : io unit :=
  let '(p, src_id, cid) := t in
  do! _ := request_ok (BeepStore ("Bearer " +:+ py_str beep_token) p) in
  do! _ := log (Uploaded (date p)) in
  mark_imported src_id (date p) cid.

(** One iteration of the loop, lines 276-289. *)
Definition upload_one (beep_token : json) (t : transformed) : io unit :=
  do! _ := catch (store_and_mark beep_token t)
                 (fun e => log (FailedUpload (date (fst (fst t))) e)) in
  emit (Sleep (3 # 4)).

Fixpoint upload_records (ts : list transformed) (beep_token : json) : io unit :=
  match ts with
  | [] => ret tt
  | t :: ts' => do! _ := upload_one beep_token t in upload_records ts' beep_token
  end.

(** *** Main *)

Record args := {
  import_from_file : bool;
  dry_run : bool;
  upload : bool;
  log_file : string;
  db_path : string;
  mappings_file : string
}.

Record credentials := {
  HIVETRACKS_EMAIL : string;
  HIVETRACKS_PASSWORD : string;
  BEEP_EMAIL : string;
  BEEP_PASSWORD : string
}.

Definition require_env (name : string) : io string :=
  match getenv w name with
  | Some v => ret v
  | None => raise RuntimeError
  end.

(** Lines 298-301 *)
Definition require_credentials : io credentials :=
  do! he := require_env "HIVETRACKS_EMAIL" in
  do! hp := require_env "HIVETRACKS_PASSWORD" in
  do! be := require_env "BEEP_EMAIL" in
  do! bp := require_env "BEEP_PASSWORD" in
  ret {| HIVETRACKS_EMAIL := he; HIVETRACKS_PASSWORD := hp;
         BEEP_EMAIL := be; BEEP_PASSWORD := bp |}.

(** Lines 307-320: the records and the reference data, from files or APIs. *)
Definition acquire (a : args) (c : credentials) (fuel : nat) : io (json * json * json) :=
  if import_from_file a then
    do! _ := log (Text "Importing data from files") in
    do! hivetracks_records := load_json_file "data/hivetracks-records.json" in
    do! beep_checklists := load_json_file "data/beep-checklists.json" in
    do! beep_hives := load_json_file "data/beep-hives.json" in
    ret (hivetracks_records, beep_checklists, beep_hives)
  else
    do! _ := log (Text "Importing data from APIs") in
    do! ht_token := get_hivetracks_token (HIVETRACKS_EMAIL c) (HIVETRACKS_PASSWORD c) in
    do! hivetracks_records := get_hivetracks_records fuel ht_token in
    do! beep_token := get_beep_token (BEEP_EMAIL c) (BEEP_PASSWORD c) in
    do! beep_checklists := get_beep_data "https://api.beep.nl/api/inspections/lists" beep_token in
    do! beep_hives := get_beep_data "https://api.beep.nl/api/hives" beep_token in
    ret (hivetracks_records, beep_checklists, beep_hives).

(** Line 324: [[r for r in hivetracks_records if str(r.get("id")) not in imported_ids]] *)
Fixpoint keep_new (imported_ids : gset string) (rs : list json) : result (list json) :=
  match rs with
  | [] => Ok []
  | r :: rs' =>
      let! i := py_get r (JStr "id") JNull in
      let! rest := keep_new imported_ids rs' in
      Ok (if bool_decide (py_str i ∈ imported_ids) then rest else r :: rest)
  end.

Definition records_to_import (imported_ids : gset string) (hivetracks_records : json)
  : result (list json) :=
  let! rs := py_iter hivetracks_records in keep_new imported_ids rs.

(** [len(v)] *)
Definition py_len (v : json) : result nat :=
  match v with
  | JArr l => Ok (List.length l)
  | JStr s => Ok (String.length s)
  | JObj kv => Ok (List.length kv)
  | _ => Raise TypeError
  end.

(** Lines 322-346: filter by the ledger, transform, then preview or upload. *)
Definition pipeline (a : args) (c : credentials)
           (hivetracks_records beep_checklists beep_hives : json) : io unit :=
  do! imported_ids := get_imported_ids in
  do! to_import := lift (records_to_import imported_ids hivetracks_records) in
  do! mappings := load_mappings (mappings_file a) in
  do! ts := lift (transform_records to_import beep_hives beep_checklists mappings) in
  if dry_run a then
    do! _ := emit (WriteJson "beep-import-preview.json" (List.map (fun t => fst (fst t)) ts)) in
    do! _ := log (DryRunComplete "beep-import-preview.json") in
    print (DryRunComplete "beep-import-preview.json")
  else
    do! _ := (if upload a then
                do! _ := log (Text "Uploading records to BEEP API") in
                do! beep_token := get_beep_token (BEEP_EMAIL c) (BEEP_PASSWORD c) in
                upload_records ts beep_token
              else ret tt) in
    do! n := lift (py_len hivetracks_records) in
    do! _ := print TransformationComplete in
    do! _ := print (Summary n (List.length to_import) (List.length ts)) in
    log (Summary n (List.length to_import) (List.length ts)).

(** How the process ends. *)
Inductive outcome :=
| Completed            (* [main] returned: status 0 *)
| Exited (code : nat)  (* [sys.exit(code)] in the handler *)
| Crashed (e : pyerr)  (* an exception nobody caught: traceback, status 1 *)
| Unfinished.          (* the model stopped following the page loop *)

Definition main (a : args) (fuel : nat) (st : state) : outcome * state :=
  match require_credentials st with
  | (Raise e, st1) => (Crashed e, st1)
  | (Ok c, st1) =>
      match (do! _ := init_db in
             do! (hivetracks_records, beep_checklists, beep_hives) := acquire a c fuel in
             pipeline a c hivetracks_records beep_checklists beep_hives) st1 with
      | (Ok _, st2) => (Completed, st2)
      | (Raise OutOfFuel, st2) => (Unfinished, st2)
      | (Raise e, st2) =>
          (Exited 1, snd ((do! _ := log (Error e) in print (Error e)) st2))
      end
  end.
End Script.

(** Lines 171-172: the list of hive ids, a single page. *)
Definition hives_url : string := "https://pro.hivetracks.com/api/trpc/admin.hive.idList".

Definition get_hivetracks_hives (w : world) (token : json) : io json :=
  get_page w hives_url token 0 10.

(** ** Notions used to state the properties *)

(** The canonical form of a dict key: [True] and [1] are the same key. *)
Inductive keyform :=
| KNone
| KInt (n : Z)
| KStr (s : string).

Definition key_norm (k : json) : option keyform :=
  match k with
  | JNull => Some KNone
  | JBool b => Some (KInt (if b then 1 else 0))
  | JNum n => Some (KInt n)
  | JStr s => Some (KStr s)
  | _ => None
  end.

(** The value the last assignment to [k] in a sequence of assignments gives. *)
Fixpoint last_write (k : json) (ws : list (json * json)) : option json :=
  match ws with
  | [] => None
  | (k', v) :: ws' =>
      match last_write k ws' with
      | Some v' => Some v'
      | None => if py_eq k' k then Some v else None
      end
  end.

Definition apply_writes (ws : list (json * json)) (d : pydict) : pydict :=
  fold_left (fun d p => dict_set (fst p) (snd p) d) ws d.

(** [a] where it is defined, else [b]. *)
Definition or_else {A} (a b : option A) : option A :=
  match a with Some _ => a | None => b end.

(** A step on [items] that only assigns: whether it raises, and what it
    assigns, does not depend on the dict it is given. *)
Definition writer (S : pydict -> result pydict) : Prop :=
  exists rws : result (list (json * json)),
    (forall ws, rws = Ok ws -> Forall (fun p => hashable (fst p) = true) ws) /\
    (forall its, S its = let! ws := rws in Ok (apply_writes ws its)).

(** The value a code has after the four tables, given what each table
    assigns on its own: that of the last table, in the fixed order
    field_map, enums, stages_flags, feeding_rules, that assigns it. *)
Definition in_table_order (t1 t2 t3 t4 : pydict) (k : json) : option json :=
  or_else (dict_get k t4) (or_else (dict_get k t3) (or_else (dict_get k t2) (dict_get k t1))).

(** *** The upload driver, as the specification words it *)

(** A response that [raise_for_status] lets through. *)
Definition accepted (resp : response) : bool :=
  match resp with
  | NoResponse => false
  | Response status _ => negb (is_error_status status)
  end.

Definition store_request (beep_token : json) (t : transformed) : request :=
  BeepStore ("Bearer " +:+ py_str beep_token) (fst (fst t)).

Definition ledger_row (w : world) (t : transformed) (tr : list event) : LedgerRow.t :=
  {| LedgerRow.record_id := snd (fst t);
     LedgerRow.action_date := date (fst (fst t));
     LedgerRow.checklist_id := snd t;
     LedgerRow.created_at := sql_now w tr |}.

(** One attempt: submit; on success log and mark the ledger with the
    record's id, date and checklist id; on failure log and do not mark;
    either way wait 0.75 before the next. *)
Definition upload_step_spec (w : world) (beep_token : json) (st : state) (t : transformed)
  : state :=
  let req := store_request beep_token t in
  let resp := http w (trace st) req in
  let d := date (fst (fst t)) in
  if accepted resp then
    let tr := trace st ++ [Http req resp; Log (Uploaded d)] in
    {| table := insert_or_ignore (ledger_row w t tr) (table st);
       trace := tr ++ [Sleep (3 # 4)] |}
  else
    {| table := table st;
       trace := trace st ++ [Http req resp; Log (FailedUpload d RequestException);
                             Sleep (3 # 4)] |}.

Definition store_of (e : event) : list payload :=
  match e with Http (BeepStore _ p) _ => [p] | _ => [] end.

Definition request_of (e : event) : list request :=
  match e with Http req _ => [req] | _ => [] end.

Definition sleep_of (e : event) : list Q :=
  match e with Sleep q => [q] | _ => [] end.

(** The payloads submitted to the store endpoint, in the order of the trace. *)
Definition stores (tr : list event) : list payload := flat_map store_of tr.

(** The requests sent, in the order of the trace. *)
Definition requests (tr : list event) : list request := flat_map request_of tr.

Definition sleeps (tr : list event) : list Q := flat_map sleep_of tr.

(** The record ids in the ledger. *)
Definition known_ids (t : list LedgerRow.t) : list string := List.map LedgerRow.record_id t.

Definition lookup_row (record_id : string) (t : list LedgerRow.t) : option LedgerRow.t :=
  List.find (fun x => String.eqb (LedgerRow.record_id x) record_id) t.

(** The names of the hives a record refers to: [[h["name"] for h in r.get("hives", [])]]. *)
Definition hive_names (r : json) : result (list json) :=
  let! hs0 := py_get r (JStr "hives") (JArr []) in
  let! hs := py_iter hs0 in
  mapM (fun h => py_getitem h (JStr "name")) hs.

(** The item code that used to carry the HiveTracks record id. *)
Definition legacy_record_id_code : json := JStr "1499".

(** Table [S], applied on its own to the empty dict, assigns code [k]. *)
Definition assigns (S : pydict -> result pydict) (k : json) : Prop :=
  exists d v, S [] = Ok d /\ dict_get k d = Some v.

(** An action that neither writes the ledger nor adds an event that [obs] sees. *)
Definition silent {X A} (obs : event -> list X) (m : io A) : Prop :=
  forall st r st', m st = (r, st') ->
    table st' = table st /\ flat_map obs (trace st') = flat_map obs (trace st).

(** The source ids of the payloads whose upload attempt is accepted, when
    [ts] is uploaded from state [st]. *)
Fixpoint succeeded (w : world) (beep_token : json) (ts : list transformed) (st : state)
  : list string :=
  match ts with
  | [] => []
  | t :: ts' =>
      (if accepted (http w (trace st) (store_request beep_token t)) then [snd (fst t)] else [])
      ++ succeeded w beep_token ts' (upload_step_spec w beep_token st t)
  end.

(** The ruleset file is missing, is not JSON, or does not hold an object. *)
Definition ruleset_unusable (w : world) (a : args) : Prop :=
  match read_json w (mappings_file a) with
  | Some (Some (JObj _)) => False
  | _ => True
  end.

Definition credential_names : list string :=
  ["HIVETRACKS_EMAIL"; "HIVETRACKS_PASSWORD"; "BEEP_EMAIL"; "BEEP_PASSWORD"].

(** An action that only appends to the trace. *)
Definition extends {A} (m : io A) : Prop :=
  forall st r st', m st = (r, st') -> exists evs, trace st' = trace st ++ evs.

(** *** Timestamps *)

Definition is_digit (c : ascii) : bool := in_range "0" "9" c.


Definition digits : list ascii := list_ascii_of_string "0123456789".





Definition timestamp_fields (ys mo d h mi s fs : list ascii) : datetime :=
  {| year := int_of ys; month := int_of mo; day := int_of d;
     hour := int_of h; minute := int_of mi; second := int_of s;
     microsecond := int_of (fs ++ repeat "0"%char (6 - List.length fs)) |}.


(** One or two digits. *)
Definition short_number (w : list ascii) : bool :=
  forallb is_digit w && ((List.length w =? 1) || (List.length w =? 2))%nat.

(** A day: one or two digits, or a blank and a digit from 1 to 9. *)
Definition day_text (w : list ascii) : bool :=
  short_number w ||
  match w with
  | [b; c] => Ascii.eqb b " " && in_range "1" "9" c
  | _ => false
  end.

(** The texts [strptime] takes for the source format, with the date and
    time each denotes: a year of four digits, the other fields of one or two
    digits, a fraction of one to six digits, [T] and [Z] in either case, and
    values that make a date and a time of day. *)
Definition accepted_timestamp (text : list ascii) (dt : datetime) : Prop :=
  exists ys mo d h mi s fs t z,
    text = ys ++ "-"%char :: mo ++ "-"%char :: d ++ t :: h ++ ":"%char :: mi ++ ":"%char
              :: s ++ "."%char :: fs ++ [z] /\
    forallb is_digit ys = true /\ List.length ys = 4%nat /\
    short_number mo = true /\ day_text d = true /\ short_number h = true /\
    short_number mi = true /\ short_number s = true /\
    forallb is_digit fs = true /\ (1 <= List.length fs <= 6)%nat /\
    lower t = "t"%char /\ lower z = "z"%char /\
    dt = timestamp_fields ys mo d h mi s fs /\
    valid_datetime dt = true.



(** *** Reference data, records and rulesets *)

Definition is_object (v : json) : bool :=
  match v with JObj _ => true | _ => false end.

(** What an entry of the reference data adds to a name-to-id map: its name
    and id when both are truthy, nothing otherwise. *)
Definition entry_pair (x : json) : option (json * json) :=
  match x with
  | JObj kv =>
      match obj_get "name" kv, obj_get "id" kv with
      | Some n, Some i => if py_truthy n && py_truthy i then Some (n, i) else None
      | _, _ => None
      end
  | _ => None
  end.

(** The ledger key of a record: [str(r.get("id"))]. *)
Definition source_id (r : json) : string :=
  match r with
  | JObj kv => py_str (default JNull (obj_get "id" kv))
  | _ => ""
  end.

(** The defaults of lines 178-182. *)
Definition default_tables : list (string * json) :=
  [("field_map", JObj []);
   ("enums", JObj []);
   ("stages_flags", JObj [("field", JStr "inspectionBroodStages"); ("flags", JObj [])]);
   ("feeding_rules", JArr []);
   ("checklist_fallback", JStr "TBD")].

Definition nonempty_text (v : json) : Prop := exists s, v = JStr s /\ s <> "".

(** A feeding rule whose conditions, where it has them, compare with a
    string: a type, a text that is not empty, a list of such texts. *)
Definition plain_rule (rule : json) : Prop :=
  exists kv,
    rule = JObj kv /\
    (forall v, obj_get "if_type" kv = Some v -> exists t, v = JStr t) /\
    (forall v, obj_get "if_other_contains" kv = Some v -> nonempty_text v) /\
    (forall v, obj_get "if_other_contains_any" kv = Some v ->
               exists l, v = JArr l /\ Forall nonempty_text l).

(** A field a record does not have, or has as null. *)
Definition unset (field : string) (kv : list (string * json)) : Prop :=
  obj_get field kv = None \/ obj_get field kv = Some JNull.

(** *** Pages *)

(** [response.json()["result"]["data"]["json"]["results"]] *)
Definition page_results (body : json) : result json :=
  let! a := py_getitem body (JStr "result") in
  let! b := py_getitem a (JStr "data") in
  let! c := py_getitem b (JStr "json") in
  py_getitem c (JStr "results").

(** The request [get_page] sends for page [page] of the records. *)
Definition page_request (token : json) (page : nat) : request :=
  HtGetPage records_url ("access_token=" +:+ py_str token) (Z.of_nat page * 10).

(** The service answers the request for page [i] with the [i]-th of
    [pages], and with an empty page past the last of them. *)
Definition serves_pages (w : world) (token : json) (pages : list (list json)) : Prop :=
  forall tr i, exists status body,
    http w tr (page_request token i) = Response status (Some body) /\
    is_error_status status = false /\
    page_results body = Ok (JArr (nth i pages [])).

(** *** What a run does *)

(** An action that only appends: rows that satisfy [R] to the ledger,
    without giving an id a second row, and events that satisfy [P] to the
    trace. *)
Definition effects (P : event -> Prop) (R : LedgerRow.t -> Prop) {A} (m : io A) : Prop :=
  forall st r st', m st = (r, st') ->
    (NoDup (known_ids (table st)) -> NoDup (known_ids (table st'))) /\
    exists rows evs,
      table st' = table st ++ rows /\ Forall R rows /\
      trace st' = trace st ++ evs /\ Forall P evs.

(** The run was asked to upload: [--upload] without [--dry-run]. *)
Definition uploading (a : args) : Prop := upload a = true /\ dry_run a = false.

Definition lists_url : string := "https://api.beep.nl/api/inspections/lists".
Definition beep_hives_url : string := "https://api.beep.nl/api/hives".
Definition preview_file : string := "beep-import-preview.json".

(** What a message says about the run that wrote it. *)
Definition run_message (a : args) (m : message) : Prop :=
  match m with
  | Text _ => True
  | Uploaded _ | FailedUpload _ _ => uploading a
  | Error _ => False
  | DryRunComplete path => dry_run a = true /\ path = preview_file
  | TransformationComplete => dry_run a = false
  | Summary processed eligible ntransformed =>
      dry_run a = false /\ ntransformed = eligible /\ (eligible <= processed)%nat
  end.

(** The events of a run with arguments [a] and credentials [c], up to the
    point where it returns or reports an error. *)
Definition run_event (a : args) (c : credentials) (e : event) : Prop :=
  match e with
  | Http (HtSignin email password) _ =>
      import_from_file a = false /\
      email = HIVETRACKS_EMAIL c /\ password = HIVETRACKS_PASSWORD c
  | Http (HtGetPage url _ skip) _ =>
      import_from_file a = false /\ url = records_url /\
      exists page : nat, skip = (Z.of_nat page * 10)%Z
  | Http (BeepLogin email password) _ =>
      (import_from_file a = false \/ uploading a) /\
      email = BEEP_EMAIL c /\ password = BEEP_PASSWORD c
  | Http (BeepGet url _) _ =>
      import_from_file a = false /\ (url = lists_url \/ url = beep_hives_url)
  | Http (BeepStore _ _) _ => uploading a
  | Sleep q => uploading a /\ q = 3 # 4
  | WriteJson path _ => dry_run a = true /\ path = preview_file
  | Log m => run_message a m
  | Print m => run_message a m
  end.

(** The credentials the environment holds. *)
Definition env_credentials (w : world) (c : credentials) : Prop :=
  getenv w "HIVETRACKS_EMAIL" = Some (HIVETRACKS_EMAIL c) /\
  getenv w "HIVETRACKS_PASSWORD" = Some (HIVETRACKS_PASSWORD c) /\
  getenv w "BEEP_EMAIL" = Some (BEEP_EMAIL c) /\
  getenv w "BEEP_PASSWORD" = Some (BEEP_PASSWORD c).

Definition writes_of (e : event) : list (string * list payload) :=
  match e with WriteJson path doc => [(path, doc)] | _ => [] end.


(** The requests of a run: each service is sent the credentials the
    environment holds for it, pages are asked of the record list only, and
    payloads are stored only by a run that was asked to upload. *)
Definition known_request (w : world) (a : args) (req : request) : Prop :=
  match req with
  | HtSignin email password =>
      getenv w "HIVETRACKS_EMAIL" = Some email /\
      getenv w "HIVETRACKS_PASSWORD" = Some password
  | HtGetPage url _ skip =>
      url = records_url /\ exists page : nat, skip = (Z.of_nat page * 10)%Z
  | BeepLogin email password =>
      getenv w "BEEP_EMAIL" = Some email /\ getenv w "BEEP_PASSWORD" = Some password
  | BeepGet url _ => url = lists_url \/ url = beep_hives_url
  | BeepStore _ _ => uploading a
  end.

(** *** The direct field map *)

(** What a record gives for a field that step 1 copies: its value, unless
    the field is missing or null. *)
Definition copied (field : string) (kv : list (string * json)) : option json :=
  match obj_get field kv with
  | Some JNull => None
  | other => other
  end.

(** The assignments step 1 makes for a record, one entry of the field map
    after the other. *)
Definition field_writes (kv : list (string * json)) (fm : list (string * json))
  : list (json * json) :=
  omap (fun e => match snd e with
                 | JStr field => option_map (fun v => (JStr (fst e), v)) (copied field kv)
                 | _ => None
                 end) fm.

(** [response.json()["result"]["data"]["json"]["tokens"]["accessToken"]] *)
Definition access_token_of (body : json) : result json :=
  let! a := py_getitem body (JStr "result") in
  let! b := py_getitem a (JStr "data") in
  let! c := py_getitem b (JStr "json") in
  let! d := py_getitem c (JStr "tokens") in
  py_getitem d (JStr "accessToken").

(** *** The enums *)

(** The assignments one enum makes for a record: those its value map gives
    for the text the record has in the enum's field. *)
Definition enum_entry_writes (kv : list (string * json)) (e : string * json)
  : list (json * json) :=
  match snd e, obj_get (fst e) kv with
  | JObj value_map, Some (JStr s) =>
      match obj_get s value_map with
      | Some (JObj sets) => List.map (fun p => (JStr (fst p), snd p)) sets
      | _ => []
      end
  | _, _ => []
  end.

(** An enum as the ruleset should have it: texts mapped to objects. *)
Definition plain_enum (e : string * json) : Prop :=
  exists value_map,
    snd e = JObj value_map /\
    Forall (fun p => exists sets, snd p = JObj sets) value_map.

(** ** Sample data *)

Module Sample.
Definition mappings : json :=
  JObj [("field_map", JObj [("10", JStr "weight"); ("20", JStr "temp")]);
        ("enums", JObj [("mood", JObj [("calm", JObj [("20", JNum 1); ("30", JStr "c")])])]);
        ("stages_flags",
         JObj [("field", JStr "inspectionBroodStages");
               ("flags", JObj [("eggs", JNum 30); ("larvae", JStr "40")])]);
        ("feeding_rules",
         JArr [JObj [("if_type", JStr "sugar");
                     ("set", JObj [("40", JNum 7); ("50", JNum 1)])];
               JObj [("if_other_contains_any", JArr [JStr "syr"; JStr "x"]);
                     ("set", JObj [("50", JNum 2)])];
               JObj [("if_other_contains", JStr "zz"); ("set", JObj [("50", JNum 3)])]]);
        ("checklist_fallback", JStr "TBD")].

Definition record (id : Z) : json :=
  JObj [("id", JNum id); ("actionDate", JStr "2024-05-11T12:34:56.789012Z");
        ("type", JStr "Foo"); ("typeOther", JStr "bar");
        ("weight", JNum 12); ("temp", JNum 3); ("mood", JStr "calm");
        ("inspectionBroodStages", JArr [JStr "eggs"; JStr "larvae"]);
        ("feedBeesFoodType", JStr "sugar"); ("feedBeesFoodTypeOther", JStr "syrup");
        ("hives", JArr [JObj [("name", JStr "A")]; JObj [("name", JStr "Unknown")]])].

Definition hives : json :=
  JObj [("hives", JArr [JObj [("id", JStr "h1"); ("name", JStr "A")]])].

Definition checklists : json :=
  JObj [("checklists", JArr [JObj [("id", JStr "c9"); ("name", JStr "TBD")]])].

Definition no_checklists : json := JObj [("checklists", JArr [])].

(** A ruleset that names the legacy code. *)
Definition legacy_mappings : json := JObj [("field_map", JObj [("1499", JStr "id")])].

Definition dataset : json := JArr [record 1; record 2; record 3].

Definition signin_body : json :=
  JObj [("result", JObj [("data", JObj [("json",
    JObj [("tokens", JObj [("accessToken", JStr "ht")])])])])].

Definition page_body (results : list json) : json :=
  JObj [("result", JObj [("data", JObj [("json", JObj [("results", JArr results)])])])].

(** The services answer every request; the store endpoint refuses the
    second payload it is sent. *)
Definition answer (tr : list event) (req : request) : response :=
  match req with
  | HtSignin _ _ => Response 200 (Some signin_body)
  | HtGetPage _ _ skip =>
      Response 200 (Some (page_body (if (skip =? 0)%Z then [record 1; record 2; record 3]
                                     else [])))
  | BeepLogin _ _ => Response 200 (Some (JObj [("api_token", JStr "tok")]))
  | BeepGet url _ =>
      Response 200 (Some (if String.eqb url "https://api.beep.nl/api/hives"
                          then hives else checklists))
  | BeepStore _ _ =>
      if (List.length (stores tr) =? 1)%nat then Response 500 None else Response 201 None
  end.

(** All credentials set; the data files and the ruleset are on disk. *)
Definition world_with_files : world :=
  {| getenv := fun _ => Some "secret";
     read_json := fun path =>
       if String.eqb path "data/hivetracks-records.json" then Some (Some dataset)
       else if String.eqb path "data/beep-checklists.json" then Some (Some checklists)
       else if String.eqb path "data/beep-hives.json" then Some (Some hives)
       else if String.eqb path "data/mappings.json" then Some (Some mappings)
       else None;
     http := answer;
     sql_now := fun _ => "2024-06-01 00:00:00" |}.

(** All credentials set, no ruleset on disk. *)
Definition world_without_ruleset : world :=
  {| getenv := fun _ => Some "secret";
     read_json := fun _ => None;
     http := answer;
     sql_now := fun _ => "2024-06-01 00:00:00" |}.

(** The BEEP password is not set. *)
Definition world_without_password : world :=
  {| getenv := fun name => if String.eqb name "BEEP_PASSWORD" then None else Some "secret";
     read_json := fun _ => None;
     http := answer;
     sql_now := fun _ => "2024-06-01 00:00:00" |}.

Definition upload_args : args :=
  {| import_from_file := true; dry_run := false; upload := true;
     log_file := "script-log.txt"; db_path := "beep_sync.db";
     mappings_file := "data/mappings.json" |}.

Definition api_args : args :=
  {| import_from_file := false; dry_run := false; upload := true;
     log_file := "script-log.txt"; db_path := "beep_sync.db";
     mappings_file := "data/mappings.json" |}.

Definition creds : credentials :=
  {| HIVETRACKS_EMAIL := "secret"; HIVETRACKS_PASSWORD := "secret";
     BEEP_EMAIL := "secret"; BEEP_PASSWORD := "secret" |}.

Definition fresh : state := {| table := []; trace := [] |}.

Definition first_run : result unit * state :=
  pipeline world_with_files upload_args creds dataset checklists hives fresh.

Definition second_run : result unit * state :=
  pipeline world_with_files upload_args creds dataset checklists hives
           {| table := table (snd first_run); trace := [] |}.

(** What the transformation makes of record 17. *)
Definition out17 : list transformed :=
  Eval vm_compute in
    match transform_records [record 17] hives checklists mappings with
    | Ok out => out
    | Raise _ => []
    end.

(** The same without any checklist to resolve to. *)
Definition out17_unfiled : list transformed :=
  Eval vm_compute in
    match transform_records [record 17] hives no_checklists mappings with
    | Ok out => out
    | Raise _ => []
    end.

Definition three : list transformed :=
  Eval vm_compute in
    match transform_records [record 1; record 2; record 3] hives checklists mappings with
    | Ok out => out
    | Raise _ => []
    end.
End Sample.

(** ** More sample data *)

Module Demo.
(** A ruleset file that sets one table, to null, and a key of its own. *)
Definition partial_ruleset : json := JObj [("enums", JNull); ("extra", JNum 1)].

Definition world_with_ruleset (ruleset : json) : world :=
  {| getenv := fun _ => Some "secret";
     read_json := fun path =>
       if String.eqb path "data/hivetracks-records.json" then Some (Some Sample.dataset)
       else if String.eqb path "data/beep-checklists.json" then Some (Some Sample.checklists)
       else if String.eqb path "data/beep-hives.json" then Some (Some Sample.hives)
       else if String.eqb path "data/mappings.json" then Some (Some ruleset)
       else None;
     http := Sample.answer;
     sql_now := fun _ => "2024-06-01 00:00:00" |}.

(** A record that says nothing about feeding. *)
Definition unfed : json :=
  JObj [("id", JNum 4); ("actionDate", JStr "2024-05-11T12:34:56.789012Z");
        ("inspectionBroodStages", JArr [JStr "eggs"])].
End Demo.

Module Runs.
(** [--import-from-file --dry-run --upload] *)
Definition dry_args : args :=
  {| import_from_file := true; dry_run := true; upload := true;
     log_file := "script-log.txt"; db_path := "beep_sync.db";
     mappings_file := "data/mappings.json" |}.

(** [--import-from-file] alone *)
Definition plain_args : args :=
  {| import_from_file := true; dry_run := false; upload := false;
     log_file := "script-log.txt"; db_path := "beep_sync.db";
     mappings_file := "data/mappings.json" |}.

Definition dry : outcome * state := main Sample.world_with_files dry_args 5 Sample.fresh.
Definition plain : outcome * state := main Sample.world_with_files plain_args 5 Sample.fresh.
Definition uploaded : outcome * state :=
  main Sample.world_with_files Sample.upload_args 5 Sample.fresh.
Definition from_apis : outcome * state :=
  main Sample.world_with_files Sample.api_args 5 Sample.fresh.

(** The pipeline as a dry run, on the data of [Sample.first_run]. *)
Definition dry_pipeline : result unit * state :=
  pipeline Sample.world_with_files dry_args Sample.creds Sample.dataset Sample.checklists
           Sample.hives Sample.fresh.
End Runs.

(** * Properties *)

(** ** Dicts *)

Lemma py_eq_key_norm k k' :
  hashable k = true -> hashable k' = true ->
  py_eq k k' = true <-> key_norm k = key_norm k'.
Proof.
  intros Hk Hk'.
  destruct k as [|[]| | | |], k' as [|[]| | | |]; simpl in *; try discriminate;
    rewrite ?Z.eqb_eq, ?String.eqb_eq; split; congruence.
Qed.

Lemma py_eq_unhashable_l k k' :
  hashable k = false -> hashable k' = true -> py_eq k k' = false.
Proof. destruct k, k'; simpl; congruence. Qed.

Lemma py_eq_trans_key k0 k k' :
  hashable k = true -> hashable k' = true ->
  py_eq k' k = true -> py_eq k0 k' = py_eq k0 k.
Proof.
  intros Hk Hk' E. destruct (hashable k0) eqn:H0.
  - apply py_eq_key_norm in E; try assumption.
    destruct (py_eq k0 k') eqn:E1, (py_eq k0 k) eqn:E2; try reflexivity.
    + apply py_eq_key_norm in E1; try assumption.
      assert (py_eq k0 k = true) by (apply py_eq_key_norm; congruence). congruence.
    + apply py_eq_key_norm in E2; try assumption.
      assert (py_eq k0 k' = true) by (apply py_eq_key_norm; congruence). congruence.
  - rewrite !(py_eq_unhashable_l k0) by assumption. reflexivity.
Qed.

Lemma dict_get_set k k' v d :
  hashable k = true -> hashable k' = true ->
  dict_get k (dict_set k' v d) = if py_eq k' k then Some v else dict_get k d.
Proof.
  intros Hk Hk'. induction d as [|[k0 v0] d IH]; simpl.
  - reflexivity.
  - destruct (py_eq k' k) eqn:E.
    + pose proof (py_eq_trans_key k0 k k' Hk Hk' E) as T.
      destruct (py_eq k0 k') eqn:E0; simpl; rewrite <- T; [reflexivity | exact IH].
    + destruct (py_eq k0 k') eqn:E0; simpl.
      * destruct (py_eq k0 k) eqn:E1; [|reflexivity].
        exfalso. destruct (hashable k0) eqn:H0.
        -- apply py_eq_key_norm in E0, E1; try assumption.
           assert (py_eq k' k = true) by (apply py_eq_key_norm; congruence). congruence.
        -- rewrite py_eq_unhashable_l in E0 by assumption. discriminate.
      * destruct (py_eq k0 k); [reflexivity | exact IH].
Qed.

Lemma dict_get_apply_writes k ws d :
  hashable k = true -> Forall (fun p => hashable (fst p) = true) ws ->
  dict_get k (apply_writes ws d) = or_else (last_write k ws) (dict_get k d).
Proof.
  intros Hk Hws. revert d. induction Hws as [|[k' v] ws Hk' _ IH]; intros d; simpl.
  - reflexivity.
  - unfold apply_writes in *. simpl. rewrite IH. simpl in Hk'.
    destruct (last_write k ws); simpl; [reflexivity|].
    rewrite dict_get_set by assumption. destruct (py_eq k' k); reflexivity.
Qed.

Lemma last_write_app k ws1 ws2 :
  last_write k (ws1 ++ ws2) = or_else (last_write k ws2) (last_write k ws1).
Proof.
  induction ws1 as [|[k' v] ws1 IH]; simpl.
  - destruct (last_write k ws2); reflexivity.
  - rewrite IH. destruct (last_write k ws2); simpl; [reflexivity|].
    destruct (last_write k ws1); reflexivity.
Qed.

Lemma apply_writes_app ws1 ws2 d :
  apply_writes (ws1 ++ ws2) d = apply_writes ws2 (apply_writes ws1 d).
Proof. unfold apply_writes. apply fold_left_app. Qed.

(** ** Steps that only assign *)

Lemma writer_ret : writer (fun its => Ok its).
Proof. exists (Ok []). split; [intros ws [= <-]; constructor | reflexivity]. Qed.

Lemma writer_raise e : writer (fun _ => Raise e).
Proof. exists (Raise e). split; [discriminate | reflexivity]. Qed.

Lemma writer_set k v : hashable k = true -> writer (fun its => Ok (dict_set k v its)).
Proof.
  intros Hk. exists (Ok [(k, v)]). split; [|reflexivity].
  intros ws [= <-]. repeat constructor. exact Hk.
Qed.

Lemma writer_ext S S' : (forall its, S its = S' its) -> writer S' -> writer S.
Proof. intros E [rws [H1 H2]]. exists rws. split; [exact H1|]. intros. rewrite E. apply H2. Qed.

Lemma writer_comp S1 S2 :
  writer S1 -> writer S2 -> writer (fun its => let! d := S1 its in S2 d).
Proof.
  intros [r1 [F1 E1]] [r2 [F2 E2]].
  exists (let! ws1 := r1 in let! ws2 := r2 in Ok (ws1 ++ ws2)). split.
  - intros ws. destruct r1 as [ws1|]; [|discriminate]. destruct r2 as [ws2|]; [|discriminate].
    intros [= <-]. apply Forall_app. split; [apply F1 | apply F2]; reflexivity.
  - intros its. rewrite E1. destruct r1 as [ws1|]; simpl; [|reflexivity].
    rewrite E2. destruct r2 as [ws2|]; simpl; [|reflexivity].
    rewrite apply_writes_app. reflexivity.
Qed.

Lemma writer_bind {A} (m : result A) (F : A -> pydict -> result pydict) :
  (forall x, m = Ok x -> writer (F x)) -> writer (fun its => let! x := m in F x its).
Proof.
  intros H. destruct m as [x|e]; simpl.
  - apply (writer_ext _ (F x)); [reflexivity | apply H; reflexivity].
  - apply writer_raise.
Qed.

Lemma writer_if (b : bool) S1 S2 :
  writer S1 -> writer S2 -> writer (fun its => if b then S1 its else S2 its).
Proof. destruct b; intros; assumption. Qed.

Lemma writer_foldM {A} (f : pydict -> A -> result pydict) (l : list A) :
  (forall x, In x l -> writer (fun its => f its x)) -> writer (foldM f l).
Proof.
  induction l as [|x l IH]; intros H; simpl.
  - apply writer_ret.
  - apply (writer_comp (fun its => f its x) (foldM f l)).
    + apply H. left. reflexivity.
    + apply IH. intros y Hy. apply H. right. exact Hy.
Qed.

Lemma writer_fold_left {A} (k : A -> json) (v : A -> json) (l : list A) :
  (forall x, In x l -> hashable (k x) = true) ->
  writer (fun its => Ok (fold_left (fun d p => dict_set (k p) (v p) d) l its)).
Proof.
  intros H. exists (Ok (List.map (fun p => (k p, v p)) l)). split.
  - intros ws [= <-]. apply List.Forall_forall. intros [k0 v0] Hin.
    apply in_map_iff in Hin as [x [[= <- <-] Hx]]. simpl. apply H. exact Hx.
  - intros its. simpl. f_equal. unfold apply_writes. revert its.
    induction l as [|x l IH]; intros its; simpl; [reflexivity|].
    apply IH. intros y Hy. apply H. right. exact Hy.
Qed.

(** What a step that only assigns leaves in the dict: its own assignments
    over what was there. *)
Lemma writer_overlay S its d :
  writer S -> S its = Ok d ->
  exists d0, S [] = Ok d0 /\
    forall k, hashable k = true -> dict_get k d = or_else (dict_get k d0) (dict_get k its).
Proof.
  intros [rws [F E]] H. rewrite E in H. destruct rws as [ws|]; [|discriminate].
  injection H as <-. exists (apply_writes ws []). split; [rewrite E; reflexivity|].
  intros k Hk. rewrite !dict_get_apply_writes by (try assumption; apply F; reflexivity).
  simpl. destruct (last_write k ws); reflexivity.
Qed.

Lemma writer_total S its its' d :
  writer S -> S its = Ok d -> exists d', S its' = Ok d'.
Proof.
  intros [rws [F E]] H. rewrite E in H. destruct rws as [ws|]; [|discriminate].
  exists (apply_writes ws its'). rewrite E. reflexivity.
Qed.

Ltac writer_step :=
  lazymatch goal with
  | |- writer (foldM _ _) => apply writer_foldM; intros ? _; cbv beta
  | |- writer (fun its => Ok its) => apply writer_ret
  | |- writer (fun _ => Raise _) => apply writer_raise
  | |- writer (fun its => Ok (dict_set _ _ its)) => apply writer_set; try reflexivity
  | |- writer (fun its => if ?b then _ else _) => destruct b
  | |- writer (fun its => match ?v with _ => _ end) => destruct v
  | |- writer (fun its => foldM _ _ its) => apply writer_foldM; intros ? _; cbv beta
  | |- writer (fun its => rbind _ _) => apply writer_bind; intros ? _
  end.

Lemma py_update_writer s : writer (fun its => py_update its s).
Proof.
  unfold py_update. destruct s;
    try (apply writer_bind; intros elems _; apply writer_foldM; intros e _; cbv beta;
         apply writer_bind; intros kv _;
         destruct kv as [|k [|v [|]]]; try apply writer_raise;
         destruct (hashable k) eqn:Hk; [apply writer_set; exact Hk | apply writer_raise]).
  apply (writer_fold_left (fun p => JStr (fst p)) snd). reflexivity.
Qed.

Lemma update_with_set_writer rule : writer (update_with_set rule).
Proof.
  unfold update_with_set. apply writer_bind. intros s _. apply py_update_writer.
Qed.

Lemma apply_rule_writer ft fo rule : writer (fun its => apply_rule ft fo its rule).
Proof.
  unfold apply_rule.
  apply writer_bind. intros c1 _.
  apply (writer_comp (fun its => if c1 then update_with_set rule its else Ok its)).
  { destruct c1; [apply update_with_set_writer | apply writer_ret]. }
  apply writer_bind. intros c2 _.
  apply (writer_comp (fun its => if c2 then update_with_set rule its else Ok its)).
  { destruct c2; [apply update_with_set_writer | apply writer_ret]. }
  apply writer_bind. intros c3 _.
  destruct c3; [apply update_with_set_writer | apply writer_ret].
Qed.

Lemma apply_field_map_writer r m : writer (apply_field_map r m).
Proof. unfold apply_field_map. repeat writer_step. Qed.

Lemma apply_enums_writer r m : writer (apply_enums r m).
Proof.
  unfold apply_enums. repeat writer_step.
  apply (writer_fold_left (fun p => JStr (fst p)) snd). reflexivity.
Qed.

Lemma apply_stages_flags_writer r m : writer (apply_stages_flags r m).
Proof. unfold apply_stages_flags. repeat writer_step. Qed.

Lemma apply_feeding_rules_writer r m : writer (apply_feeding_rules r m).
Proof.
  unfold apply_feeding_rules. repeat writer_step. apply apply_rule_writer.
Qed.

(** ** Results *)

Lemma rbind_ok {A B} (m : result A) (f : A -> result B) b :
  rbind m f = Ok b -> exists a, m = Ok a /\ f a = Ok b.
Proof. destruct m as [a|e]; simpl; [eauto | discriminate]. Qed.

Ltac inv_bind H :=
  let a := fresh "a" in
  let Ha := fresh "H" a in
  apply rbind_ok in H as [a [Ha H]].

Lemma mapM_Forall2 {A B} (f : A -> result B) l out :
  mapM f l = Ok out -> Forall2 (fun x y => f x = Ok y) l out.
Proof.
  revert out. induction l as [|x l IH]; intros out H; simpl in H.
  - injection H as <-. constructor.
  - inv_bind H. inv_bind H. injection H as <-. constructor; [assumption | auto].
Qed.

Lemma Forall2_mapM {A B} (f : A -> result B) l out :
  Forall2 (fun x y => f x = Ok y) l out -> mapM f l = Ok out.
Proof. induction 1 as [|x y l out E _ IH]; simpl; [|rewrite E; simpl; rewrite IH]; reflexivity. Qed.

Lemma mapM_raise {A B} (f : A -> result B) l x e :
  In x l -> f x = Raise e -> exists e', mapM f l = Raise e'.
Proof.
  induction l as [|y l IH]; intros Hin Hx; [destruct Hin|]. simpl.
  destruct (f y) as [b|e0] eqn:Ey; simpl; [|eauto].
  destruct Hin as [->|Hin]; [congruence|].
  destruct (IH Hin Hx) as [e' ->]. simpl. eauto.
Qed.

(** ** The transformation, record by record *)

Lemma transform_records_each rs hv cl m out :
  transform_records rs hv cl m = Ok out ->
  exists hive_map checklist_map fallback,
    name_id_map hv "hives" = Ok hive_map /\
    name_id_map cl "checklists" = Ok checklist_map /\
    py_get m (JStr "checklist_fallback") (JStr "TBD") = Ok fallback /\
    Forall2 (fun r t => transform_record hive_map checklist_map fallback m r = Ok t) rs out.
Proof.
  unfold transform_records. intros H.
  inv_bind H. inv_bind H. inv_bind H.
  eauto 10 using mapM_Forall2.
Qed.

Lemma transform_record_parts hm cm fb m r p sid cid :
  transform_record hm cm fb m r = Ok (p, sid, cid) ->
  exists src_id rec_type,
    py_get r (JStr "id") JNull = Ok src_id /\
    build_items r m = Ok (items p) /\
    resolve_hive_ids hm r = Ok (hive_ids p) /\
    py_get r (JStr "type") JNull = Ok rec_type /\
    resolve_checklist cm fb rec_type = Ok (checklist_id p) /\
    make_reminder cm r rec_type = Ok (reminder p) /\
    normalized_action_date r = Ok (date p) /\
    py_get r (JStr "notes") JNull = Ok (notes p) /\
    sid = py_str src_id /\ cid = py_str (checklist_id p).
Proof.
  unfold transform_record. intros H.
  repeat inv_bind H. injection H as <- <- <-. simpl.
  eauto 15.
Qed.

(** ** The four rule tables *)



Lemma build_items_in_table_order r m its :
  build_items r m = Ok its ->
  exists t1 t2 t3 t4,
    apply_field_map r m [] = Ok t1 /\ apply_enums r m [] = Ok t2 /\
    apply_stages_flags r m [] = Ok t3 /\ apply_feeding_rules r m [] = Ok t4 /\
    forall k, hashable k = true -> dict_get k its = in_table_order t1 t2 t3 t4 k.
Proof.
  unfold build_items. intros H. inv_bind H. inv_bind H. inv_bind H.
  destruct (writer_overlay _ _ _ (apply_enums_writer r m) Ha0) as [t2 [E2 L2]].
  destruct (writer_overlay _ _ _ (apply_stages_flags_writer r m) Ha1) as [t3 [E3 L3]].
  destruct (writer_overlay _ _ _ (apply_feeding_rules_writer r m) H) as [t4 [E4 L4]].
  exists a, t2, t3, t4. repeat (split; [assumption|]).
  intros k Hk. unfold in_table_order. rewrite (L4 k Hk), (L3 k Hk), (L2 k Hk). reflexivity.
Qed.




(** A rule none of whose conditions holds leaves the items alone. *)
Lemma apply_rule_no_match ft fo its rule :
  matches_type ft rule = Ok false ->
  matches_contains_any fo rule = Ok false ->
  matches_contains fo rule = Ok false ->
  apply_rule ft fo its rule = Ok its.
Proof. intros H1 H2 H3. unfold apply_rule. rewrite H1. simpl. rewrite H2. simpl. rewrite H3. reflexivity. Qed.



(** ** The upload driver *)

Lemma upload_one_spec w tok t st :
  upload_one w tok t st = (Ok tt, upload_step_spec w tok st t).
Proof.
  destruct t as [[p sid] cid].
  unfold upload_one, upload_step_spec, store_and_mark, request_ok, send, catch, bind,
    store_request, ledger_row. simpl.
  destruct (http w (trace st) (BeepStore ("Bearer " +:+ py_str tok) p)) as [|status body] eqn:E;
    simpl.
  - unfold log, emit. simpl. rewrite <- !app_assoc. reflexivity.
  - destruct (is_error_status status); simpl.
    + unfold log, emit. simpl. rewrite <- !app_assoc. reflexivity.
    + unfold log, emit, mark_imported. simpl. rewrite <- !app_assoc. reflexivity.
Qed.

Lemma upload_records_spec w ts tok st :
  upload_records w ts tok st = (Ok tt, fold_left (upload_step_spec w tok) ts st).
Proof.
  revert st. induction ts as [|t ts IH]; intros st; simpl; [reflexivity|].
  unfold bind. rewrite upload_one_spec. apply IH.
Qed.

Lemma stores_app tr1 tr2 : stores (tr1 ++ tr2) = stores tr1 ++ stores tr2.
Proof. apply flat_map_app. Qed.


Lemma upload_step_stores w tok st t :
  stores (trace (upload_step_spec w tok st t)) = stores (trace st) ++ [fst (fst t)].
Proof.
  unfold upload_step_spec. destruct (accepted _); simpl; rewrite !stores_app; simpl;
    rewrite ?app_nil_r; reflexivity.
Qed.


Lemma known_ids_insert r t :
  forall x, In x (known_ids (insert_or_ignore r t)) <-> x = LedgerRow.record_id r \/ In x (known_ids t).
Proof.
  intros x. unfold insert_or_ignore, known_ids.
  destruct (existsb _ t) eqn:E.
  - split; [auto|]. intros [->|H]; [|exact H].
    apply existsb_exists in E as [y [Hy Ey]]. apply String.eqb_eq in Ey. rewrite <- Ey.
    apply in_map. exact Hy.
  - rewrite map_app, in_app_iff. simpl. intuition congruence.
Qed.

Lemma upload_step_accepted w tok st t :
  accepted (http w (trace st) (store_request tok t)) = true ->
  exists tr, table (upload_step_spec w tok st t) = insert_or_ignore (ledger_row w t tr) (table st).
Proof. intros H. unfold upload_step_spec. rewrite H. simpl. eauto. Qed.


Lemma upload_fold_stores w tok ts st :
  stores (trace (fold_left (upload_step_spec w tok) ts st))
  = stores (trace st) ++ List.map (fun t => fst (fst t)) ts.
Proof.
  revert st. induction ts as [|t ts IH]; intros st; simpl.
  - rewrite app_nil_r. reflexivity.
  - rewrite IH, upload_step_stores, <- app_assoc. reflexivity.
Qed.



(** ** The ledger *)

Lemma existsb_known_ids record_id t :
  existsb (fun x => String.eqb (LedgerRow.record_id x) record_id) t = true <->
  In record_id (known_ids t).
Proof.
  unfold known_ids. rewrite existsb_exists, in_map_iff. split.
  - intros [x [Hx E]]. apply String.eqb_eq in E. eauto.
  - intros [x [E Hx]]. exists x. split; [exact Hx | apply String.eqb_eq; exact E].
Qed.

Lemma insert_or_ignore_present r t :
  In (LedgerRow.record_id r) (known_ids t) -> insert_or_ignore r t = t.
Proof.
  intros H. unfold insert_or_ignore.
  apply existsb_known_ids in H. rewrite H. reflexivity.
Qed.

Lemma insert_or_ignore_absent r t :
  ~ In (LedgerRow.record_id r) (known_ids t) -> insert_or_ignore r t = t ++ [r].
Proof.
  intros H. unfold insert_or_ignore.
  destruct (existsb _ t) eqn:E; [|reflexivity].
  apply existsb_known_ids in E. contradiction.
Qed.

(** The primary key stays a key. *)
Lemma insert_or_ignore_NoDup r t :
  NoDup (known_ids t) -> NoDup (known_ids (insert_or_ignore r t)).
Proof.
  intros H. destruct (in_dec string_dec (LedgerRow.record_id r) (known_ids t)) as [Hin|Hin].
  - rewrite insert_or_ignore_present by assumption. exact H.
  - rewrite insert_or_ignore_absent by assumption. unfold known_ids in *.
    rewrite map_app. simpl. apply NoDup_app. repeat split.
    + exact H.
    + intros x Hx [<-|[]]%list_elem_of_In. apply Hin. apply list_elem_of_In. exact Hx.
    + repeat constructor. intros []%list_elem_of_In.
Qed.

Lemma lookup_row_app_l record_id t t' r :
  lookup_row record_id t = Some r -> lookup_row record_id (t ++ t') = Some r.
Proof.
  unfold lookup_row. induction t as [|x t IH]; simpl; [discriminate|].
  destruct (String.eqb (LedgerRow.record_id x) record_id); auto.
Qed.

Lemma lookup_row_absent record_id t :
  ~ In record_id (known_ids t) -> lookup_row record_id t = None.
Proof.
  unfold lookup_row, known_ids. induction t as [|x t IH]; simpl; [reflexivity|].
  intros H. destruct (String.eqb_spec (LedgerRow.record_id x) record_id) as [E|E].
  - exfalso. apply H. left. exact E.
  - apply IH. intros Hin. apply H. right. exact Hin.
Qed.

Lemma lookup_row_insert_new r t :
  ~ In (LedgerRow.record_id r) (known_ids t) ->
  lookup_row (LedgerRow.record_id r) (insert_or_ignore r t) = Some r.
Proof.
  intros H. rewrite insert_or_ignore_absent by assumption.
  unfold lookup_row, known_ids in *. induction t as [|x t IH]; simpl.
  - rewrite String.eqb_refl. reflexivity.
  - destruct (String.eqb_spec (LedgerRow.record_id x) (LedgerRow.record_id r)) as [E|E].
    + exfalso. apply H. left. exact E.
    + apply IH. intros Hin. apply H. right. exact Hin.
Qed.

Lemma count_occ_NoDup_In (l : list string) x :
  NoDup l -> In x l -> count_occ string_dec l x = 1%nat.
Proof.
  intros N%NoDup_ListNoDup H.
  pose proof (proj1 (NoDup_count_occ string_dec l) N x) as Hle.
  pose proof (proj1 (count_occ_In string_dec l x) H). lia.
Qed.

(** C7.  [mark_imported] is first-write-wins: when the ledger already has a
    row for the record id the call changes nothing, so marking twice (with
    any dates and checklist ids) leaves exactly one row for the id, and that
    row keeps the first-written date and checklist id. *)
Theorem mark_is_first_write_wins w st record_id d1 c1 d2 c2 :
  let st1 := snd (mark_imported w record_id d1 c1 st) in
  let st2 := snd (mark_imported w record_id d2 c2 st1) in
  (In record_id (known_ids (table st)) ->
   mark_imported w record_id d1 c1 st = (Ok tt, st)) /\
  mark_imported w record_id d2 c2 st1 = (Ok tt, st1) /\
  (NoDup (known_ids (table st)) ->
   NoDup (known_ids (table st2)) /\
   count_occ string_dec (known_ids (table st2)) record_id = 1%nat) /\
  (~ In record_id (known_ids (table st)) ->
   exists r, lookup_row record_id (table st2) = Some r /\
             LedgerRow.action_date r = d1 /\ LedgerRow.checklist_id r = c1) /\
  (forall r0, lookup_row record_id (table st) = Some r0 ->
              lookup_row record_id (table st2) = Some r0).
Proof.
  intros st1 st2.
  assert (Hnoop : forall s d c, In record_id (known_ids (table s)) ->
                                mark_imported w record_id d c s = (Ok tt, s)).
  { intros [t tr] d c H. unfold mark_imported. simpl in *.
    rewrite insert_or_ignore_present by exact H. reflexivity. }
  assert (Hin1 : In record_id (known_ids (table st1))).
  { subst st1. unfold mark_imported. simpl. apply known_ids_insert. left. reflexivity. }
  assert (E2 : st2 = st1).
  { subst st2. rewrite (Hnoop st1 d2 c2 Hin1). reflexivity. }
  split; [apply Hnoop|]. split; [apply Hnoop; exact Hin1|]. rewrite E2.
  split; [|split].
  - intros N. assert (N1 : NoDup (known_ids (table st1))).
    { subst st1. unfold mark_imported. simpl. apply insert_or_ignore_NoDup. exact N. }
    split; [exact N1 | apply count_occ_NoDup_In; assumption].
  - intros Hnew. subst st1. unfold mark_imported. simpl.
    eexists. split; [apply (lookup_row_insert_new
      {| LedgerRow.record_id := record_id; LedgerRow.action_date := d1; LedgerRow.checklist_id := c1;
         LedgerRow.created_at := sql_now w (trace st) |}); exact Hnew | split; reflexivity].
  - intros r0 H0. subst st1. unfold mark_imported. simpl.
    unfold insert_or_ignore. destruct (existsb _ (table st)); [exact H0|].
    apply lookup_row_app_l. exact H0.
Qed.

(** ** Reference tables *)

Lemma dict_set_values (Q : json -> Prop) k v d :
  Q v -> Forall (fun p => Q (snd p)) d -> Forall (fun p => Q (snd p)) (dict_set k v d).
Proof.
  intros Hv. induction 1 as [|[k0 v0] d H0 Hd IH]; simpl.
  - repeat constructor. exact Hv.
  - destruct (py_eq k0 k); constructor; simpl; auto.
Qed.

Lemma dict_get_values (Q : json -> Prop) k v d :
  Forall (fun p => Q (snd p)) d -> dict_get k d = Some v -> Q v.
Proof.
  induction 1 as [|[k0 v0] d H0 _ IH]; simpl; [discriminate|].
  destruct (py_eq k0 k); [intros [= <-]; exact H0 | exact IH].
Qed.

Lemma foldM_invariant {A B} (P : B -> Prop) (f : B -> A -> result B) l acc out :
  (forall b x b', P b -> f b x = Ok b' -> P b') ->
  P acc -> foldM f l acc = Ok out -> P out.
Proof.
  intros Hf. revert acc. induction l as [|x l IH]; intros acc Hacc H; simpl in H.
  - injection H as <-. exact Hacc.
  - inv_bind H. eauto.
Qed.

(** Every id in a reference table is truthy: entries with a falsy name or
    id are left out when the table is built. *)
Lemma name_id_map_truthy ref field d k v :
  name_id_map ref field = Ok d -> dict_get k d = Some v -> py_truthy v = true.
Proof.
  unfold name_id_map. intros H. inv_bind H. inv_bind H.
  apply (dict_get_values (fun v => py_truthy v = true)).
  refine (foldM_invariant (fun d => Forall (fun p => py_truthy (snd p) = true) d)
            _ _ _ _ _ _ H); [|constructor].
  intros b x b' Hb Hx. cbv beta in Hx. inv_bind Hx.
  destruct (py_truthy a1); [|injection Hx as <-; exact Hb].
  inv_bind Hx. destruct (py_truthy a2) eqn:T; [|injection Hx as <-; exact Hb].
  inv_bind Hx. inv_bind Hx. destruct (hashable a3); [|discriminate].
  injection Hx as <-.
  apply (dict_set_values (fun v => py_truthy v = true)); [|exact Hb].
  destruct x; simpl in *; try discriminate.
  destruct (obj_get "id" kv) eqn:E; simpl in *; [|discriminate].
  injection Ha2 as <-. injection Ha4 as <-. exact T.
Qed.

Lemma py_get_str_total r a d x b d' :
  py_get r (JStr a) d = Ok x -> exists y, py_get r (JStr b) d' = Ok y.
Proof. destruct r; simpl; try discriminate. eauto. Qed.

(** ** Checklist resolution *)

Lemma resolve_checklist_spec cl cm fb ty c :
  name_id_map cl "checklists" = Ok cm ->
  resolve_checklist cm fb ty = Ok c ->
  c = match dict_get ty cm with
      | Some v => v
      | None => match dict_get fb cm with Some v => v | None => JNull end
      end.
Proof.
  intros Hcm H. unfold resolve_checklist, dget in H.
  destruct (hashable ty); simpl in H; [|discriminate].
  destruct (dict_get ty cm) as [v|] eqn:E; simpl in H.
  - rewrite (name_id_map_truthy _ _ _ _ _ Hcm E) in H. congruence.
  - destruct (hashable fb); [|discriminate].
    destruct (dict_get fb cm); simpl in H; congruence.
Qed.

Lemma make_reminder_spec cm r ty rem :
  make_reminder cm r ty = Ok rem ->
  forall t o, py_get r (JStr "type") JNull = Ok t ->
              py_get r (JStr "typeOther") JNull = Ok o ->
  rem = match dict_get ty cm with
        | Some _ => JNull
        | None => JStr ("Missing: " +:+ py_str t +:+ "/" +:+ py_str o)
        end.
Proof.
  intros H t o Ht Ho. unfold make_reminder, dcontains in H.
  destruct (hashable ty); simpl in H; [|discriminate].
  destruct (dict_get ty cm); simpl in H; [congruence|].
  rewrite Ht, Ho in H. simpl in H. congruence.
Qed.

(** C4.  For every record, [checklist_id] is the reference entry for the
    record's type; failing that, the entry for the configured fallback name;
    failing that, null.  [reminder] is null exactly when the type was found,
    and otherwise the string "Missing: <type>/<typeOther>". *)
Theorem checklist_resolution rs hv cl m out :
  transform_records rs hv cl m = Ok out ->
  exists checklist_map fallback,
    name_id_map cl "checklists" = Ok checklist_map /\
    py_get m (JStr "checklist_fallback") (JStr "TBD") = Ok fallback /\
    Forall2 (fun r t =>
      let p := fst (fst t) in
      exists rec_type type_other,
        py_get r (JStr "type") JNull = Ok rec_type /\
        py_get r (JStr "typeOther") JNull = Ok type_other /\
        checklist_id p =
          match dict_get rec_type checklist_map with
          | Some c => c
          | None => match dict_get fallback checklist_map with
                    | Some c => c
                    | None => JNull
                    end
          end /\
        reminder p =
          match dict_get rec_type checklist_map with
          | Some _ => JNull
          | None => JStr ("Missing: " +:+ py_str rec_type +:+ "/" +:+ py_str type_other)
          end /\
        (reminder p = JNull <-> exists c, dict_get rec_type checklist_map = Some c))
      rs out.
Proof.
  intros H.
  destruct (transform_records_each _ _ _ _ _ H) as (hm & cm & fb & _ & Hcm & Hfb & F).
  exists cm, fb. repeat (split; [assumption|]).
  eapply Forall2_impl; [exact F|]. intros r [[p sid] cid] Ht. simpl.
  destruct (transform_record_parts _ _ _ _ _ _ _ _ Ht)
    as (src & ty & _ & _ & _ & Hty & Hc & Hr & _).
  destruct (py_get_str_total _ _ _ _ "typeOther" JNull Hty) as [o Ho].
  exists ty, o. repeat (split; [assumption|]).
  pose proof (resolve_checklist_spec _ _ _ _ _ Hcm Hc) as Ec.
  pose proof (make_reminder_spec _ _ _ _ Hr ty o Hty Ho) as Er.
  split; [exact Ec|]. split; [exact Er|].
  rewrite Er. destruct (dict_get ty cm) as [c|].
  - split; [eauto | reflexivity].
  - split; [discriminate | intros [c Hc']; discriminate].
Qed.

(** ** Hive resolution *)

Lemma hive_fold_spec cl hm hs acc ids :
  name_id_map cl "hives" = Ok hm ->
  foldM (hive_step hm) hs acc = Ok ids ->
  exists names,
    mapM (fun h => py_getitem h (JStr "name")) hs = Ok names /\
    ids = acc ++ omap (fun n => dict_get n hm) names.
Proof.
  intros Hhm. revert acc. induction hs as [|h hs IH]; intros acc H; simpl in H.
  - injection H as <-. exists []. simpl. rewrite app_nil_r. auto.
  - inv_bind H. unfold hive_step in Ha. inv_bind Ha. inv_bind Ha.
    unfold dget in Ha1. destruct (hashable a0); [|discriminate]. injection Ha1 as <-.
    destruct (IH _ H) as [names [Hn ->]].
    exists (a0 :: names). simpl. rewrite Ha0, Hn. simpl. split; [reflexivity|].
    destruct (dict_get a0 hm) as [v|] eqn:E; simpl in Ha.
    + rewrite (name_id_map_truthy _ _ _ _ _ Hhm E) in Ha. injection Ha as <-.
      rewrite <- app_assoc. reflexivity.
    + injection Ha as <-. reflexivity.
Qed.

Lemma hive_fold_total cl hm hs names acc :
  name_id_map cl "hives" = Ok hm ->
  mapM (fun h => py_getitem h (JStr "name")) hs = Ok names ->
  Forall (fun n => hashable n = true) names ->
  foldM (hive_step hm) hs acc = Ok (acc ++ omap (fun n => dict_get n hm) names).
Proof.
  intros Hhm. revert names acc. induction hs as [|h hs IH]; intros names acc Hn Hh; simpl in *.
  - injection Hn as <-. simpl. rewrite app_nil_r. reflexivity.
  - inv_bind Hn. inv_bind Hn. injection Hn as <-.
    apply Forall_cons in Hh as [Ha1 Hh].
    unfold hive_step at 1. rewrite Ha. simpl. unfold dget. rewrite Ha1. simpl.
    destruct (dict_get a hm) as [v|] eqn:E; simpl.
    + rewrite (name_id_map_truthy _ _ _ _ _ Hhm E). simpl.
      rewrite (IH _ _ Ha0 Hh), <- app_assoc. reflexivity.
    + apply IH; assumption.
Qed.

(** C5.  For every record, [hive_ids] is the list of the reference ids of
    the record's hive names, in order, the names that the reference does not
    have being left out; a name without a match raises nothing. *)
Theorem hive_resolution_drops_unknowns rs hv cl m out :
  transform_records rs hv cl m = Ok out ->
  exists hive_map,
    name_id_map hv "hives" = Ok hive_map /\
    Forall2 (fun r t =>
      exists names,
        hive_names r = Ok names /\
        hive_ids (fst (fst t)) = omap (fun n => dict_get n hive_map) names)
      rs out /\
    (forall r names,
        hive_names r = Ok names ->
        Forall (fun n => hashable n = true) names ->
        resolve_hive_ids hive_map r = Ok (omap (fun n => dict_get n hive_map) names)).
Proof.
  intros H.
  destruct (transform_records_each _ _ _ _ _ H) as (hm & cm & fb & Hhm & _ & _ & F).
  exists hm. split; [assumption|]. split.
  - eapply Forall2_impl; [exact F|]. intros r [[p sid] cid] Ht. simpl.
    destruct (transform_record_parts _ _ _ _ _ _ _ _ Ht) as (? & ? & _ & _ & Hh & _).
    unfold resolve_hive_ids in Hh. inv_bind Hh. inv_bind Hh.
    destruct (hive_fold_spec _ _ _ _ _ Hhm Hh) as [names [Hn E]].
    exists names. split; [|exact E].
    unfold hive_names. rewrite Ha. simpl. rewrite Ha0. exact Hn.
  - intros r names Hn Hh. unfold hive_names in Hn. inv_bind Hn. inv_bind Hn.
    unfold resolve_hive_ids. rewrite Ha. simpl. rewrite Ha0. simpl.
    apply (hive_fold_total _ _ _ _ [] Hhm Hn Hh).
Qed.

(** ** Provenance *)

(** C10.  The provenance of a payload is stringified: the source id is
    [str] of the record's id and the checklist id is [str] of the payload's
    checklist id, so a null checklist id travels as the text "None" while
    the payload keeps the null, and a successful upload writes "None" into
    the ledger row. *)
Theorem provenance_is_stringified rs hv cl m out :
  transform_records rs hv cl m = Ok out ->
  Forall2 (fun r t =>
    let p := fst (fst t) in
    exists src_id,
      py_get r (JStr "id") JNull = Ok src_id /\
      snd (fst t) = py_str src_id /\
      snd t = py_str (checklist_id p) /\
      (checklist_id p = JNull ->
       snd t = "None" /\
       forall w tok st,
         accepted (http w (trace st) (store_request tok t)) = true ->
         exists tr,
           table (snd (upload_one w tok t st))
           = insert_or_ignore {| LedgerRow.record_id := py_str src_id;
                                 LedgerRow.action_date := date p;
                                 LedgerRow.checklist_id := "None";
                                 LedgerRow.created_at := sql_now w tr |} (table st)))
    rs out.
Proof.
  intros H.
  destruct (transform_records_each _ _ _ _ _ H) as (hm & cm & fb & _ & _ & _ & F).
  eapply Forall2_impl; [exact F|]. intros r [[p sid] cid] Ht. simpl.
  destruct (transform_record_parts _ _ _ _ _ _ _ _ Ht)
    as (src & ty & Hid & _ & _ & _ & _ & _ & _ & _ & -> & ->).
  exists src. repeat (split; [first [assumption | reflexivity]|]).
  intros Hnull. split; [rewrite Hnull; reflexivity|].
  intros w tok st Hacc. rewrite upload_one_spec. simpl.
  destruct (upload_step_accepted _ _ _ _ Hacc) as [tr E].
  exists tr. rewrite E. unfold ledger_row. simpl. rewrite Hnull. reflexivity.
Qed.

(** ** Order of the output and origin of the items *)

Lemma Forall2_length_eq {A B} (P : A -> B -> Prop) l l' :
  Forall2 P l l' -> List.length l = List.length l'.
Proof. induction 1; simpl; congruence. Qed.

(** C9, as amended.  The output has one triple per input record, in the
    order of the input, and the transformation adds no item of its own: a
    code -- the legacy record-id carrier "1499" included -- is among a
    payload's items only if one of the four rule tables assigns it for that
    record. *)
Theorem output_in_order_items_from_tables rs hv cl m out :
  transform_records rs hv cl m = Ok out ->
  List.length out = List.length rs /\
  (exists hive_map checklist_map fallback,
     Forall2 (fun r t => transform_record hive_map checklist_map fallback m r = Ok t) rs out) /\
  Forall2 (fun r t =>
    let its := items (fst (fst t)) in
    (forall k v, hashable k = true -> dict_get k its = Some v ->
       assigns (apply_field_map r m) k \/ assigns (apply_enums r m) k \/
       assigns (apply_stages_flags r m) k \/ assigns (apply_feeding_rules r m) k) /\
    (~ assigns (apply_field_map r m) legacy_record_id_code ->
     ~ assigns (apply_enums r m) legacy_record_id_code ->
     ~ assigns (apply_stages_flags r m) legacy_record_id_code ->
     ~ assigns (apply_feeding_rules r m) legacy_record_id_code ->
     dict_get legacy_record_id_code its = None)) rs out.
Proof.
  intros H.
  destruct (transform_records_each _ _ _ _ _ H) as (hm & cm & fb & _ & _ & _ & F).
  split; [symmetry; apply (Forall2_length_eq _ _ _ F)|]. split; [eauto|].
  eapply Forall2_impl; [exact F|]. intros r [[p sid] cid] Ht. simpl.
  destruct (transform_record_parts _ _ _ _ _ _ _ _ Ht) as (? & ? & _ & B & _).
  destruct (build_items_in_table_order _ _ _ B) as (t1 & t2 & t3 & t4 & E1 & E2 & E3 & E4 & L).
  assert (G : forall k v, hashable k = true -> dict_get k (items p) = Some v ->
       assigns (apply_field_map r m) k \/ assigns (apply_enums r m) k \/
       assigns (apply_stages_flags r m) k \/ assigns (apply_feeding_rules r m) k).
  { intros k v Hk Hv. rewrite (L k Hk) in Hv. unfold in_table_order, assigns in *.
    destruct (dict_get k t4) eqn:G4; [eauto 10|].
    destruct (dict_get k t3) eqn:G3; [eauto 10|].
    destruct (dict_get k t2) eqn:G2; [eauto 10|].
    simpl in Hv. eauto 10. }
  split; [exact G|]. intros N1 N2 N3 N4.
  destruct (dict_get legacy_record_id_code (items p)) as [v|] eqn:E; [|reflexivity].
  destruct (G legacy_record_id_code v (eq_refl true) E) as [A|[A|[A|A]]]; contradiction.
Qed.

(** ** Actions that leave the ledger and part of the trace alone *)

Section Silent.
Context {X : Type} (obs : event -> list X).

Lemma silent_ret {A} (a : A) : silent obs (ret a).
Proof. intros st r st' [= <- <-]. auto. Qed.

Lemma silent_raise {A} e : silent obs (@raise A e).
Proof. intros st r st' [= <- <-]. auto. Qed.

Lemma silent_lift {A} (m : result A) : silent obs (lift m).
Proof. intros st r st' [= <- <-]. auto. Qed.

Lemma silent_bind {A B} (m : io A) (f : A -> io B) :
  silent obs m -> (forall a, silent obs (f a)) -> silent obs (bind m f).
Proof.
  intros Hm Hf st r st' H. unfold bind in H.
  destruct (m st) as [[a|e] st1] eqn:E.
  - destruct (Hm _ _ _ E) as [T1 O1]. destruct (Hf a _ _ _ H) as [T2 O2].
    split; congruence.
  - injection H as <- <-. exact (Hm _ _ _ E).
Qed.

Lemma silent_catch {A} (m : io A) (h : pyerr -> io A) :
  silent obs m -> (forall e, silent obs (h e)) -> silent obs (catch m h).
Proof.
  intros Hm Hh st r st' H. unfold catch in H.
  destruct (m st) as [[a|e] st1] eqn:E.
  - injection H as <- <-. exact (Hm _ _ _ E).
  - destruct (Hm _ _ _ E) as [T1 O1].
    assert (G : (Raise e, st1) = (r, st') \/ h e st1 = (r, st')).
    { destruct e; auto. }
    destruct G as [[= <- <-]|G]; [auto|].
    destruct (Hh e _ _ _ G) as [T2 O2]. split; congruence.
Qed.

Lemma silent_emit e : obs e = [] -> silent obs (emit e).
Proof.
  intros He st r st' [= <- <-]. simpl. split; [reflexivity|].
  rewrite flat_map_app. simpl. rewrite He. simpl. rewrite app_nil_r. reflexivity.
Qed.

Lemma silent_if {A} (b : bool) (m1 m2 : io A) :
  silent obs m1 -> silent obs m2 -> silent obs (if b then m1 else m2).
Proof. destruct b; auto. Qed.

Variable w : world.

Lemma silent_send req : (forall resp, obs (Http req resp) = []) -> silent obs (send w req).
Proof.
  intros He st r st' [= <- <-]. simpl. split; [reflexivity|].
  rewrite flat_map_app. simpl. rewrite He. simpl. rewrite app_nil_r. reflexivity.
Qed.

Lemma silent_request_ok req :
  (forall resp, obs (Http req resp) = []) -> silent obs (request_ok w req).
Proof.
  intros He. unfold request_ok. apply silent_bind; [apply silent_send; exact He|].
  intros [|status body]; [apply silent_raise|].
  destruct (is_error_status status); [apply silent_raise | apply silent_ret].
Qed.

Lemma silent_body_json body : silent obs (body_json body).
Proof. destruct body; [apply silent_ret | apply silent_raise]. Qed.

Lemma silent_get_imported_ids : silent obs get_imported_ids.
Proof. intros st r st' [= <- <-]. auto. Qed.

Hypothesis obs_log : forall m, obs (Log m) = [].
Hypothesis obs_print : forall m, obs (Print m) = [].

Lemma silent_log m : silent obs (log m).
Proof. apply silent_emit, obs_log. Qed.

Lemma silent_print m : silent obs (print m).
Proof. apply silent_emit, obs_print. Qed.

Lemma silent_load_json_file path : silent obs (load_json_file w path).
Proof.
  unfold load_json_file. destruct (read_json w path) as [content|].
  - apply silent_bind; [apply silent_log|]. intros _.
    destruct content; [apply silent_ret | apply silent_raise].
  - apply silent_bind; [apply silent_log | intros _; apply silent_raise].
Qed.

Lemma silent_load_mappings path : silent obs (load_mappings w path).
Proof.
  unfold load_mappings. apply silent_bind; [apply silent_load_json_file|].
  intros m. destruct m; first [apply silent_raise | apply silent_ret].
Qed.

Lemma silent_get_beep_token email password :
  (forall resp, obs (Http (BeepLogin email password) resp) = []) ->
  silent obs (get_beep_token w email password).
Proof.
  intros He. unfold get_beep_token.
  apply silent_bind; [apply silent_request_ok; exact He|]. intros body.
  apply silent_bind; [apply silent_body_json|]. intros v.
  apply silent_bind; [apply silent_lift|]. intros token.
  destruct (py_truthy token); [apply silent_ret | apply silent_raise].
Qed.
End Silent.

(** ** The pipeline *)

Lemma store_of_log m : store_of (Log m) = [].
Proof. reflexivity. Qed.

Lemma store_of_print m : store_of (Print m) = [].
Proof. reflexivity. Qed.

Ltac step H E a s :=
  let e := fresh "e" in
  match type of H with
  | bind ?m _ ?st = _ =>
      unfold bind at 1 in H; destruct (m st) as [[a | e] s] eqn:E
  end.

Lemma pipeline_uploads w a c ds cl hv st res st' :
  pipeline w a c ds cl hv st = (res, st') ->
  exists ts tok st_up,
    table st_up = table st /\
    stores (trace st_up) = stores (trace st) /\
    table st' = table (fold_left (upload_step_spec w tok) ts st_up) /\
    stores (trace st') = stores (trace st) ++ List.map (fun t => fst (fst t)) ts /\
    (ts = [] \/
     exists eligible m,
       records_to_import (list_to_set (known_ids (table st))) ds = Ok eligible /\
       transform_records eligible hv cl m = Ok ts).
Proof.
  intros H.
  assert (Quiet : table st' = table st /\ stores (trace st') = stores (trace st) ->
          exists ts tok st_up,
            table st_up = table st /\
            stores (trace st_up) = stores (trace st) /\
            table st' = table (fold_left (upload_step_spec w tok) ts st_up) /\
            stores (trace st') = stores (trace st) ++ List.map (fun t => fst (fst t)) ts /\
            (ts = [] \/
             exists eligible m,
               records_to_import (list_to_set (known_ids (table st))) ds = Ok eligible /\
               transform_records eligible hv cl m = Ok ts)).
  { intros [T S]. exists [], JNull, st'. simpl. rewrite app_nil_r.
    repeat (split; [first [assumption | reflexivity]|]). left. reflexivity. }
  unfold pipeline in H.
  step H E0 ids s0.
  2: { injection H as <- <-. apply Quiet. exact (silent_get_imported_ids store_of _ _ _ E0). }
  injection E0 as <- <-.
  step H E1 to_import s1.
  2: { injection H as <- <-. apply Quiet. exact (silent_lift store_of _ _ _ _ E1). }
  injection E1 as E1 <-.
  step H E2 m s2.
  2: { injection H as <- <-. apply Quiet.
       exact (silent_load_mappings store_of w store_of_log _ _ _ _ E2). }
  destruct (silent_load_mappings store_of w store_of_log _ _ _ _ E2) as [T2 S2].
  step H E3 ts s3.
  2: { injection H as <- <-. apply Quiet. injection E3 as _ <-. split; unfold stores; congruence. }
  injection E3 as E3 <-.
  destruct (dry_run a).
  { apply Quiet.
    assert (Sil : silent store_of
              (do! _ := emit (WriteJson "beep-import-preview.json"
                                (List.map (fun t => fst (fst t)) ts)) in
               do! _ := log (DryRunComplete "beep-import-preview.json") in
               print (DryRunComplete "beep-import-preview.json"))).
    { repeat (apply silent_bind; [apply silent_emit; reflexivity | intros _]).
      apply silent_emit. reflexivity. }
    destruct (Sil _ _ _ H) as [T S]. split; unfold stores; congruence. }
  assert (Tail : silent store_of
            (do! n := lift (py_len ds) in
             do! _ := print TransformationComplete in
             do! _ := print (Summary n (List.length to_import) (List.length ts)) in
             log (Summary n (List.length to_import) (List.length ts)))).
  { apply silent_bind; [apply silent_lift | intros n].
    repeat (apply silent_bind; [apply silent_emit; reflexivity | intros _]).
    apply silent_emit. reflexivity. }
  destruct (upload a).
  - step H E4 u s4.
    2: { injection H as <- <-. apply Quiet.
         step E4 E5 u5 s5;
           [|injection E4 as _ <-;
             destruct (silent_log store_of store_of_log _ _ _ _ E5); split; unfold stores; congruence].
         destruct (silent_log store_of store_of_log _ _ _ _ E5) as [T5 S5].
         step E4 E6 tok s6.
         - rewrite upload_records_spec in E4. discriminate.
         - injection E4 as _ <-.
           destruct (silent_get_beep_token store_of w _ _ (fun _ => eq_refl) _ _ _ E6).
           split; unfold stores; congruence. }
    step E4 E5 u5 s5; [|discriminate].
    destruct (silent_log store_of store_of_log _ _ _ _ E5) as [T5 S5].
    step E4 E6 tok s6; [|discriminate].
    destruct (silent_get_beep_token store_of w _ _ (fun _ => eq_refl) _ _ _ E6) as [T6 S6].
    rewrite upload_records_spec in E4. injection E4 as _ <-.
    destruct (Tail _ _ _ H) as [T7 S7].
    exists ts, tok, s6. split; [congruence|]. split; [unfold stores; congruence|].
    split; [exact T7|]. split.
    + unfold stores at 1. rewrite S7.
      fold (stores (trace (fold_left (upload_step_spec w tok) ts s6))).
      rewrite upload_fold_stores. unfold stores. congruence.
    + right. exists to_import, m. split; assumption.
  - apply Quiet. unfold bind at 1 in H. simpl in H.
    destruct (Tail _ _ _ H) as [T S]. split; unfold stores; congruence.
Qed.

Lemma in_list_to_set (x : string) (l : list string) :
  x ∈ (list_to_set l : gset string) <-> In x l.
Proof. rewrite elem_of_list_to_set. apply list_elem_of_In. Qed.

(** Line 324 keeps exactly the records whose id is not in the ledger. *)
Lemma keep_new_excludes ids rs eligible :
  keep_new ids rs = Ok eligible ->
  Forall (fun r => In r rs /\ exists i, py_get r (JStr "id") JNull = Ok i /\ py_str i ∉ ids)
         eligible.
Proof.
  revert eligible. induction rs as [|r rs IH]; intros eligible H; simpl in H.
  - injection H as <-. constructor.
  - inv_bind H. inv_bind H. specialize (IH _ Ha0).
    assert (IH' : Forall (fun r0 => In r0 (r :: rs) /\
                     exists i, py_get r0 (JStr "id") JNull = Ok i /\ py_str i ∉ ids) a0).
    { eapply Forall_impl; [exact IH|]. intros x [Hx Hi]. split; [right; exact Hx | exact Hi]. }
    destruct (bool_decide (py_str a ∈ ids)) eqn:E; injection H as <-; [exact IH'|].
    constructor; [|exact IH']. split; [left; reflexivity|].
    exists a. split; [exact Ha|]. apply bool_decide_eq_false in E. exact E.
Qed.

Lemma records_to_import_excludes t ds eligible :
  records_to_import (list_to_set (known_ids t)) ds = Ok eligible ->
  Forall (fun r => exists i, py_get r (JStr "id") JNull = Ok i /\
                             ~ In (py_str i) (known_ids t)) eligible.
Proof.
  unfold records_to_import. intros H. inv_bind H.
  eapply Forall_impl; [exact (keep_new_excludes _ _ _ H)|].
  intros r [_ [i [Hi Hn]]]. exists i. split; [exact Hi|].
  intros Hin. apply Hn. apply in_list_to_set. exact Hin.
Qed.

Lemma transformed_ids_not_known t eligible hv cl m ts :
  Forall (fun r => exists i, py_get r (JStr "id") JNull = Ok i /\
                             ~ In (py_str i) (known_ids t)) eligible ->
  transform_records eligible hv cl m = Ok ts ->
  Forall (fun x => ~ In (snd (fst x)) (known_ids t)) ts.
Proof.
  intros He H.
  destruct (transform_records_each _ _ _ _ _ H) as (hm & cm & fb & _ & _ & _ & F).
  clear H. induction F as [|r [[p sid] cid] rs ts Hr _ IH]; [constructor|].
  apply Forall_cons in He as [[i [Hi Hn]] He].
  constructor; [|apply IH; exact He]. simpl.
  destruct (transform_record_parts _ _ _ _ _ _ _ _ Hr)
    as (src & ? & Hid & _ & _ & _ & _ & _ & _ & _ & -> & _).
  congruence.
Qed.

Lemma upload_step_known_ids w tok st t x :
  In x (known_ids (table (upload_step_spec w tok st t))) <->
  In x (known_ids (table st)) \/
  (accepted (http w (trace st) (store_request tok t)) = true /\ x = snd (fst t)).
Proof.
  unfold upload_step_spec. destruct (accepted _); simpl.
  - rewrite known_ids_insert. unfold ledger_row. simpl. intuition.
  - intuition congruence.
Qed.

Lemma upload_fold_known_ids w tok ts st x :
  In x (known_ids (table (fold_left (upload_step_spec w tok) ts st))) <->
  In x (known_ids (table st)) \/ In x (succeeded w tok ts st).
Proof.
  revert st. induction ts as [|t ts IH]; intros st; simpl.
  - intuition.
  - rewrite IH, upload_step_known_ids, in_app_iff.
    destruct (accepted _); simpl; intuition congruence.
Qed.

Lemma succeeded_sub w tok ts st x :
  In x (succeeded w tok ts st) -> In x (List.map (fun t => snd (fst t)) ts).
Proof.
  revert st. induction ts as [|t ts IH]; intros st; simpl; [auto|].
  rewrite in_app_iff. intros [H|H]; [|right; eapply IH; exact H].
  destruct (accepted _); [|destruct H]. destruct H as [<-|[]]. left. reflexivity.
Qed.

Lemma upload_fold_NoDup w tok ts st :
  NoDup (known_ids (table st)) ->
  NoDup (known_ids (table (fold_left (upload_step_spec w tok) ts st))).
Proof.
  revert st. induction ts as [|t ts IH]; intros st N; simpl; [exact N|].
  apply IH. unfold upload_step_spec. destruct (accepted _); simpl; [|exact N].
  apply insert_or_ignore_NoDup. exact N.
Qed.

(** C1.  Run the pipeline twice on the same source dataset, the second run
    starting from the ledger the first one left.  Every record whose upload
    succeeded in the first run is in the ledger, the second run's eligible
    set excludes every ledgered id, and the payloads the second run submits
    are the transformations of that eligible set, one attempt each: it
    uploads none of the records that succeeded before.  The ledger only
    grows and keeps one row per id. *)
Theorem import_is_idempotent w1 w2 a1 a2 c1 c2 ds cl1 hv1 cl2 hv2 st0 res1 st1 tr res2 st2 :
  pipeline w1 a1 c1 ds cl1 hv1 st0 = (res1, st1) ->
  pipeline w2 a2 c2 ds cl2 hv2 {| table := table st1; trace := tr |} = (res2, st2) ->
  exists ts1 tok1 up1 ts2,
    table up1 = table st0 /\
    table st1 = table (fold_left (upload_step_spec w1 tok1) ts1 up1) /\
    stores (trace st1) = stores (trace st0) ++ List.map (fun t => fst (fst t)) ts1 /\
    (forall x, In x (succeeded w1 tok1 ts1 up1) -> In x (known_ids (table st1))) /\
    (forall eligible2,
        records_to_import (list_to_set (known_ids (table st1))) ds = Ok eligible2 ->
        Forall (fun r => exists i, py_get r (JStr "id") JNull = Ok i /\
                                   ~ In (py_str i) (known_ids (table st1))) eligible2) /\
    stores (trace st2) = stores tr ++ List.map (fun t => fst (fst t)) ts2 /\
    (ts2 = [] \/
     exists eligible2 m,
       records_to_import (list_to_set (known_ids (table st1))) ds = Ok eligible2 /\
       transform_records eligible2 hv2 cl2 m = Ok ts2) /\
    Forall (fun t => ~ In (snd (fst t)) (known_ids (table st1))) ts2 /\
    (forall x, In x (succeeded w1 tok1 ts1 up1) ->
               ~ In x (List.map (fun t => snd (fst t)) ts2)) /\
    (forall x, In x (known_ids (table st0)) -> In x (known_ids (table st1))) /\
    (forall x, In x (known_ids (table st1)) -> In x (known_ids (table st2))) /\
    (NoDup (known_ids (table st0)) -> NoDup (known_ids (table st2))).
Proof.
  intros H1 H2.
  destruct (pipeline_uploads _ _ _ _ _ _ _ _ _ H1)
    as (ts1 & tok1 & up1 & T1 & _ & E1 & S1 & _).
  destruct (pipeline_uploads _ _ _ _ _ _ _ _ _ H2)
    as (ts2 & tok2 & up2 & T2 & _ & E2 & S2 & C2).
  simpl in T2, S2, C2.
  assert (K1 : forall x, In x (succeeded w1 tok1 ts1 up1) -> In x (known_ids (table st1))).
  { intros x Hx. rewrite E1. apply upload_fold_known_ids. right. exact Hx. }
  assert (F2 : Forall (fun t => ~ In (snd (fst t)) (known_ids (table st1))) ts2).
  { destruct C2 as [->|(el & m & Hel & Htr)]; [constructor|].
    eapply transformed_ids_not_known; [|exact Htr].
    eapply records_to_import_excludes. exact Hel. }
  exists ts1, tok1, up1, ts2.
  repeat (split; [first [assumption | intros el; apply records_to_import_excludes]|]).
  split; [|split; [|split]].
  - intros x Hx Hin. apply in_map_iff in Hin as [t [<- Ht]].
    rewrite List.Forall_forall in F2. exact (F2 t Ht (K1 _ Hx)).
  - intros x Hx. rewrite E1. apply upload_fold_known_ids. left. rewrite T1. exact Hx.
  - intros x Hx. rewrite E2. apply upload_fold_known_ids. left. rewrite T2. exact Hx.
  - intros N. rewrite E2. apply upload_fold_NoDup. rewrite T2, E1.
    apply upload_fold_NoDup. rewrite T1. exact N.
Qed.

(** ** Configuration errors *)

Ltac silent_tac :=
  repeat first
    [ apply silent_ret | apply silent_raise | apply silent_lift | apply silent_body_json
    | apply silent_get_imported_ids
    | apply silent_emit; reflexivity
    | apply silent_request_ok; intros; reflexivity
    | apply silent_load_json_file; intros; reflexivity
    | apply silent_load_mappings; intros; reflexivity
    | apply silent_get_beep_token; intros; reflexivity
    | apply silent_bind; [|intros ?] ].

Lemma silent_fetch_pages w fuel token page records :
  silent store_of (fetch_pages w fuel token page records).
Proof.
  revert page records. induction fuel as [|fuel IH]; intros page records; simpl.
  - apply silent_raise.
  - apply silent_bind; [apply silent_emit; reflexivity|]. intros _.
    apply silent_bind.
    { unfold get_page. silent_tac. }
    intros page_data. destruct (py_truthy page_data); [|apply silent_ret].
    apply silent_bind; [apply silent_lift|]. intros more. apply IH.
Qed.

(** Acquiring the data never submits a payload. *)
Lemma silent_acquire_store w a c fuel : silent store_of (acquire w a c fuel).
Proof.
  unfold acquire. destruct (import_from_file a).
  - silent_tac.
  - apply silent_bind; [apply silent_emit; reflexivity|]. intros _.
    apply silent_bind; [unfold get_hivetracks_token; silent_tac|]. intros ht_token.
    apply silent_bind.
    { unfold get_hivetracks_records. apply silent_bind; [apply silent_fetch_pages|].
      intros rs. apply silent_ret. }
    intros rs.
    apply silent_bind; [apply silent_get_beep_token; intros; reflexivity|]. intros tok.
    unfold get_beep_data. silent_tac.
Qed.

(** With [--import-from-file], acquiring the data sends no request. *)
Lemma silent_acquire_files w a c fuel :
  import_from_file a = true -> silent request_of (acquire w a c fuel).
Proof. intros E. unfold acquire. rewrite E. silent_tac. Qed.

Lemma keep_new_raises ids rs e : keep_new ids rs = Raise e -> e = AttributeError.
Proof.
  induction rs as [|r rs IH]; simpl; [discriminate|].
  destruct (py_get r (JStr "id") JNull) as [i|e'] eqn:E; simpl.
  - destruct (keep_new ids rs); simpl; [discriminate|]. intros [= <-]. apply IH. reflexivity.
  - intros [= <-]. destruct r; simpl in E; congruence.
Qed.

Lemma records_to_import_raises ids ds e :
  records_to_import ids ds = Raise e -> e = AttributeError \/ e = TypeError.
Proof.
  unfold records_to_import. destruct (py_iter ds) as [rs|e'] eqn:E; simpl.
  - intros H. left. eapply keep_new_raises. exact H.
  - intros [= <-]. right. destruct ds; simpl in E; congruence.
Qed.

Lemma load_json_file_raises w path st e st' :
  load_json_file w path st = (Raise e, st') -> e = FileNotFoundError \/ e = JSONDecodeError.
Proof.
  unfold load_json_file. destruct (read_json w path) as [[v|]|];
    unfold bind, log, emit, ret, raise; simpl; intros [= <- <-]; auto.
Qed.

(** When the ruleset cannot be loaded the pipeline raises, having done
    nothing but log. *)
Lemma pipeline_without_ruleset {X} (obs : event -> list X) w a c ds cl hv st res st' :
  (forall m, obs (Log m) = []) ->
  ruleset_unusable w a ->
  pipeline w a c ds cl hv st = (res, st') ->
  (exists e, res = Raise e /\ e <> OutOfFuel) /\
  table st' = table st /\ flat_map obs (trace st') = flat_map obs (trace st).
Proof.
  intros Hlog U H. unfold pipeline in H.
  step H E0 ids s0; [|discriminate]. injection E0 as <- <-.
  step H E1 to_import s1.
  2: { injection H as <- <-. injection E1 as E1 <-. split; [|auto].
       exists e. split; [reflexivity|].
       destruct (records_to_import_raises _ _ _ E1) as [-> | ->]; discriminate. }
  injection E1 as E1 <-.
  step H E2 m s2.
  - exfalso. unfold load_mappings, ruleset_unusable in *.
    step E2 E3 v s3; [|discriminate].
    unfold load_json_file in E3.
    destruct (read_json w (mappings_file a)) as [[v'|]|];
      unfold bind, log, emit, ret, raise in E3; simpl in E3; try discriminate.
    injection E3 as <- <-. destruct v'; try discriminate; contradiction.
  - injection H as <- <-.
    destruct (silent_load_mappings obs w Hlog _ _ _ _ E2) as [T S].
    split; [|auto]. exists e. split; [reflexivity|]. intros ->.
    unfold load_mappings in E2. step E2 E3 v s3.
    + destruct v; discriminate.
    + injection E2 as E2 _. subst.
      destruct (load_json_file_raises _ _ _ _ _ E3); discriminate.
Qed.

Lemma require_env_cases w name st :
  require_env w name st = (match getenv w name with
                           | Some v => Ok v
                           | None => Raise RuntimeError
                           end, st).
Proof. unfold require_env. destruct (getenv w name); reflexivity. Qed.

Lemma require_credentials_cases w st :
  (exists c, require_credentials w st = (Ok c, st) /\
             Forall (fun name => getenv w name <> None) credential_names) \/
  (require_credentials w st = (Raise RuntimeError, st) /\
   exists name, In name credential_names /\ getenv w name = None).
Proof.
  unfold require_credentials, bind, credential_names.
  rewrite (require_env_cases w "HIVETRACKS_EMAIL").
  destruct (getenv w "HIVETRACKS_EMAIL") eqn:E1; [|right; simpl; eauto 10].
  rewrite (require_env_cases w "HIVETRACKS_PASSWORD").
  destruct (getenv w "HIVETRACKS_PASSWORD") eqn:E2; [|right; simpl; eauto 10].
  rewrite (require_env_cases w "BEEP_EMAIL").
  destruct (getenv w "BEEP_EMAIL") eqn:E3; [|right; simpl; eauto 10].
  rewrite (require_env_cases w "BEEP_PASSWORD").
  destruct (getenv w "BEEP_PASSWORD") eqn:E4; [|right; simpl; eauto 10].
  left. eexists. split; [reflexivity|].
  repeat constructor; congruence.
Qed.

Lemma request_ok_trace w req st r st' :
  request_ok w req st = (r, st') ->
  table st' = table st /\ exists resp, trace st' = trace st ++ [Http req resp].
Proof.
  unfold request_ok, bind, send. simpl.
  destruct (http w (trace st) req) as [|status body].
  - intros [= <- <-]. simpl. eauto.
  - destruct (is_error_status status); intros [= <- <-]; simpl; eauto.
Qed.

Lemma body_json_state body st r st' : body_json body st = (r, st') -> st' = st.
Proof. destruct body; intros [= <- <-]; reflexivity. Qed.

Lemma lift_state {A} (m : result A) st r st' : lift m st = (r, st') -> st' = st.
Proof. intros [= <- <-]. reflexivity. Qed.

(** An action that holds one request, sent first, and answers only after it. *)
Lemma one_request_trace {A} w req (k : option json -> io A) st r st' :
  (forall b s r' s', k b s = (r', s') -> s' = s) ->
  bind (request_ok w req) k st = (r, st') ->
  exists resp, trace st' = trace st ++ [Http req resp].
Proof.
  intros Hk H. unfold bind in H.
  destruct (request_ok w req st) as [[b|e] s] eqn:E.
  - destruct (request_ok_trace _ _ _ _ _ E) as [_ [resp T]].
    apply Hk in H. subst. eauto.
  - injection H as <- <-. destruct (request_ok_trace _ _ _ _ _ E) as [_ [resp T]]. eauto.
Qed.

Lemma after_body_state {A} (f : json -> result A) b s r' s' :
  bind (body_json b) (fun v => lift (f v)) s = (r', s') -> s' = s.
Proof.
  unfold bind. destruct (body_json b s) as [[v|e] s1] eqn:E.
  - apply body_json_state in E. subst. apply lift_state.
  - intros [= <- <-]. apply body_json_state in E. exact E.
Qed.

Lemma get_hivetracks_token_trace w email password st r st' :
  get_hivetracks_token w email password st = (r, st') ->
  exists resp, trace st' = trace st ++ [Http (HtSignin email password) resp].
Proof.
  unfold get_hivetracks_token. apply one_request_trace.
  intros b s r' s'. apply after_body_state.
Qed.

Lemma get_beep_data_trace w url token st r st' :
  get_beep_data w url token st = (r, st') ->
  exists resp, trace st' = trace st ++ [Http (BeepGet url ("Bearer " +:+ py_str token)) resp].
Proof.
  unfold get_beep_data. apply one_request_trace.
  intros b s r' s'. apply body_json_state.
Qed.

Lemma get_beep_token_trace w email password st r st' :
  get_beep_token w email password st = (r, st') ->
  exists resp, trace st' = trace st ++ [Http (BeepLogin email password) resp].
Proof.
  unfold get_beep_token. apply one_request_trace.
  intros b s r' s' H. unfold bind in H.
  destruct (body_json b s) as [[v|e] s1] eqn:E; apply body_json_state in E; subst.
  - destruct (lift (py_get v (JStr "api_token") JNull) s) as [[tok|e] s2] eqn:E2;
      apply lift_state in E2; subst.
    + destruct (py_truthy tok); injection H as _ <-; reflexivity.
    + injection H as _ <-. reflexivity.
  - injection H as _ <-. reflexivity.
Qed.

Lemma extends_pure {A} (m : io A) :
  (forall st r st', m st = (r, st') -> st' = st) -> extends m.
Proof. intros H st r st' E. apply H in E. subst. exists []. rewrite app_nil_r. reflexivity. Qed.

Lemma extends_bind {A B} (m : io A) (f : A -> io B) :
  extends m -> (forall a, extends (f a)) -> extends (bind m f).
Proof.
  intros Hm Hf st r st' H. unfold bind in H.
  destruct (m st) as [[a|e] s] eqn:E.
  - destruct (Hm _ _ _ E) as [evs1 T1]. destruct (Hf a _ _ _ H) as [evs2 T2].
    exists (evs1 ++ evs2). rewrite T2, T1, app_assoc. reflexivity.
  - injection H as <- <-. exact (Hm _ _ _ E).
Qed.

Lemma extends_emit e : extends (emit e).
Proof. intros st r st' [= <- <-]. simpl. eauto. Qed.

Lemma extends_request_ok w req : extends (request_ok w req).
Proof. intros st r st' H. destruct (request_ok_trace _ _ _ _ _ H) as [_ [resp T]]. eauto. Qed.

Lemma extends_get_page w url token page size : extends (get_page w url token page size).
Proof.
  unfold get_page. apply extends_bind; [apply extends_request_ok|]. intros b.
  apply extends_pure. intros st r st'. apply after_body_state.
Qed.

Lemma extends_fetch_pages w fuel token page records :
  extends (fetch_pages w fuel token page records).
Proof.
  revert page records. induction fuel as [|fuel IH]; intros page records; simpl.
  - apply extends_pure. intros st r st' [= <- <-]. reflexivity.
  - apply extends_bind; [apply extends_emit|]. intros _.
    apply extends_bind; [apply extends_get_page|]. intros page_data.
    destruct (py_truthy page_data).
    + apply extends_bind; [apply extends_pure; intros st r st'; apply lift_state|].
      intros more. apply IH.
    + apply extends_pure. intros st r st' [= <- <-]. reflexivity.
Qed.

(** When the page loop returns, it has asked for the first page. *)
Lemma get_hivetracks_records_trace w fuel token st v st' :
  get_hivetracks_records w fuel token st = (Ok v, st') ->
  exists resp evs,
    trace st' = trace st ++
      Log (Text ("Fetching HiveTracks page " +:+ pretty 0%Z)) ::
      Http (HtGetPage records_url ("access_token=" +:+ py_str token) 0) resp :: evs.
Proof.
  unfold get_hivetracks_records. intros H. step H E rs s; [|discriminate].
  injection H as _ <-. destruct fuel as [|fuel]; [discriminate|]. simpl in E.
  unfold bind at 1 in E. simpl in E.
  step E E1 page_data s1; [|discriminate].
  assert (T1 : exists resp, trace s1 = (trace st ++ [Log (Text ("Fetching HiveTracks page " +:+ pretty 0%Z))])
                 ++ [Http (HtGetPage records_url ("access_token=" +:+ py_str token) 0) resp]).
  { unfold get_page in E1. eapply one_request_trace in E1; [exact E1|].
    intros b s0 r' s'. apply after_body_state. }
  destruct T1 as [resp T1].
  assert (T2 : exists evs, trace s = trace s1 ++ evs).
  { destruct (py_truthy page_data).
    - step E E2 more s2; [|discriminate]. apply lift_state in E2. subst.
      eapply extends_fetch_pages. exact E.
    - injection E as _ <-. exists []. rewrite app_nil_r. reflexivity. }
  destruct T2 as [evs T2]. exists resp, evs.
  rewrite T2, T1, <- !app_assoc. reflexivity.
Qed.

Lemma requests_app tr1 tr2 : requests (tr1 ++ tr2) = requests tr1 ++ requests tr2.
Proof. apply flat_map_app. Qed.

(** Without [--import-from-file], the data are in hand only after the
    sign-in, the first page, the login and the two reference fetches. *)
Lemma acquire_api_requests w a c fuel st data st' :
  import_from_file a = false ->
  acquire w a c fuel st = (Ok data, st') ->
  exists sent,
    requests (trace st') = requests (trace st) ++ sent /\
    In (HtSignin (HIVETRACKS_EMAIL c) (HIVETRACKS_PASSWORD c)) sent /\
    (exists cookie, In (HtGetPage records_url cookie 0) sent) /\
    In (BeepLogin (BEEP_EMAIL c) (BEEP_PASSWORD c)) sent /\
    (exists auth, In (BeepGet "https://api.beep.nl/api/inspections/lists" auth) sent) /\
    (exists auth, In (BeepGet "https://api.beep.nl/api/hives" auth) sent).
Proof.
  intros Ea H. unfold acquire in H. rewrite Ea in H.
  unfold bind at 1 in H. simpl in H.
  step H E1 ht_token s1; [|discriminate].
  destruct (get_hivetracks_token_trace _ _ _ _ _ _ E1) as [r1 T1]. simpl in T1.
  step H E2 recs s2; [|discriminate].
  destruct (get_hivetracks_records_trace _ _ _ _ _ _ E2) as (r2 & evs & T2).
  step H E3 tok s3; [|discriminate].
  destruct (get_beep_token_trace _ _ _ _ _ _ E3) as [r3 T3].
  step H E4 cls s4; [|discriminate].
  destruct (get_beep_data_trace _ _ _ _ _ _ E4) as [r4 T4].
  step H E5 hvs s5; [|discriminate].
  destruct (get_beep_data_trace _ _ _ _ _ _ E5) as [r5 T5].
  injection H as _ <-.
  rewrite T5, T4, T3, T2, T1. rewrite <- !app_assoc. simpl.
  rewrite requests_app. eexists. split; [reflexivity|].
  simpl. rewrite requests_app. simpl. repeat split.
  - left. reflexivity.
  - eexists. right. left. reflexivity.
  - right. right. apply in_app_iff. right. left. reflexivity.
  - eexists. right. right. apply in_app_iff. right. right. left. reflexivity.
  - eexists. right. right. apply in_app_iff. right. right. right. left. reflexivity.
Qed.

(** C2, as amended.  A missing credential ends the run before anything has
    happened.  A ruleset that cannot be loaded is fatal as well: the run
    does not complete, submits no payload and leaves the ledger as it was;
    with [--import-from-file] it has sent no request at all, but without it
    the ruleset is loaded only after the data were fetched, so the sign-in,
    the first page, the login and both reference fetches have been sent
    when the run exits with status 1. *)
Theorem config_errors_are_fatal w a fuel st o st' :
  main w a fuel st = (o, st') ->
  ((exists name, In name credential_names /\ getenv w name = None) ->
   o = Crashed RuntimeError /\ st' = st) /\
  (ruleset_unusable w a ->
   (o = Crashed RuntimeError \/ o = Exited 1 \/ o = Unfinished) /\
   table st' = table st /\
   stores (trace st') = stores (trace st) /\
   (import_from_file a = true -> requests (trace st') = requests (trace st)) /\
   (import_from_file a = false ->
    forall c data st_a,
      require_credentials w st = (Ok c, st) ->
      acquire w a c fuel st = (Ok data, st_a) ->
      o = Exited 1 /\
      exists sent,
        requests (trace st') = requests (trace st) ++ sent /\
        In (HtSignin (HIVETRACKS_EMAIL c) (HIVETRACKS_PASSWORD c)) sent /\
        (exists cookie, In (HtGetPage records_url cookie 0) sent) /\
        In (BeepLogin (BEEP_EMAIL c) (BEEP_PASSWORD c)) sent /\
        (exists auth, In (BeepGet "https://api.beep.nl/api/inspections/lists" auth) sent) /\
        (exists auth, In (BeepGet "https://api.beep.nl/api/hives" auth) sent))).
Proof.
  intros H. unfold main in H.
  destruct (require_credentials_cases w st) as [(c & Ec & Hall) | (Ec & name & Hin & Hnone)];
    rewrite Ec in H.
  2: { injection H as <- <-. split; [auto|]. intros _.
       split; [auto|]. split; [reflexivity|]. split; [reflexivity|].
       split; [reflexivity|]. intros _ c data st_a Hc. congruence. }
  split.
  { intros (name & Hin & Hnone). exfalso.
    rewrite List.Forall_forall in Hall. exact (Hall name Hin Hnone). }
  intros U.
  unfold bind at 1 in H. simpl in H. unfold bind at 1 in H.
  destruct (acquire w a c fuel st) as [[[[recs cls] hvs]|e] sa] eqn:Ea.
  - destruct (pipeline w a c recs cls hvs sa) as [res sp] eqn:Ep.
    destruct (pipeline_without_ruleset store_of _ _ _ _ _ _ _ _ _ (fun _ => eq_refl) U Ep)
      as ((e & -> & Hne) & Tp & Sp).
    destruct (pipeline_without_ruleset request_of _ _ _ _ _ _ _ _ _ (fun _ => eq_refl) U Ep)
      as (_ & _ & Rp).
    destruct (silent_acquire_store _ _ _ _ _ _ _ Ea) as [Ta Sa].
    assert (Eo : o = Exited 1 /\ st' = snd ((do! _ := log (Error e) in print (Error e)) sp)).
    { destruct e; try (injection H as <- <-; auto). congruence. }
    destruct Eo as [-> ->].
    unfold bind, log, print, emit. simpl.
    unfold stores, requests. rewrite !flat_map_app. simpl. rewrite !app_nil_r.
    split; [auto|]. split; [congruence|]. split; [congruence|]. split.
    + intros Ef. destruct (silent_acquire_files _ _ _ fuel Ef _ _ _ Ea) as [_ Ra]. congruence.
    + intros Ef c' data st_a Hc' Ha'. split; [reflexivity|].
      assert (c' = c) by congruence. subst c'.
      assert (st_a = sa) by congruence. subst st_a.
      destruct (acquire_api_requests _ _ _ _ _ _ _ Ef Ha') as (sent & Hs & Hrest).
      exists sent. split; [|exact Hrest]. unfold requests in *. congruence.
  - assert (Eo : (o = Exited 1 \/ o = Unfinished) /\
                 (st' = sa \/ st' = snd ((do! _ := log (Error e) in print (Error e)) sa))).
    { destruct e; injection H as <- <-; auto. }
    destruct Eo as [Ho Hs].
    destruct (silent_acquire_store _ _ _ _ _ _ _ Ea) as [Ta Sa].
    assert (Fin : table st' = table sa /\
                  (forall {X} (obs : event -> list X),
                      (forall m, obs (Log m) = []) -> (forall m, obs (Print m) = []) ->
                      flat_map obs (trace st') = flat_map obs (trace sa))).
    { destruct Hs as [-> | ->]; [auto|]. split; [reflexivity|].
      intros X obs Hl Hp. unfold bind, log, print, emit. simpl.
      rewrite !flat_map_app. simpl. rewrite Hl, Hp, !app_nil_r. reflexivity. }
    destruct Fin as [Tf Of].
    split; [destruct Ho; auto|]. split; [congruence|].
    split; [unfold stores; rewrite (Of _ store_of) by reflexivity; exact Sa|].
    split.
    + intros Ef. destruct (silent_acquire_files _ _ _ fuel Ef _ _ _ Ea) as [_ Ra].
      unfold requests. rewrite (Of _ request_of) by reflexivity. exact Ra.
    + intros _ c' data st_a Hc' Ha'. assert (c' = c) by congruence. subst c'. congruence.
Qed.

(** ** The properties on the sample data *)


Lemma checklist_resolution_witness :
  transform_records [Sample.record 17] Sample.hives Sample.checklists Sample.mappings
  = Ok Sample.out17 /\
  List.map (fun t => (checklist_id (fst (fst t)), reminder (fst (fst t)))) Sample.out17
  = [(JStr "c9", JStr "Missing: Foo/bar")] /\
  exists checklist_map fallback,
    name_id_map Sample.checklists "checklists" = Ok checklist_map /\
    py_get Sample.mappings (JStr "checklist_fallback") (JStr "TBD") = Ok fallback /\
    Forall2 (fun r t =>
      let p := fst (fst t) in
      exists rec_type type_other,
        py_get r (JStr "type") JNull = Ok rec_type /\
        py_get r (JStr "typeOther") JNull = Ok type_other /\
        checklist_id p =
          match dict_get rec_type checklist_map with
          | Some c => c
          | None => match dict_get fallback checklist_map with
                    | Some c => c
                    | None => JNull
                    end
          end /\
        reminder p =
          match dict_get rec_type checklist_map with
          | Some _ => JNull
          | None => JStr ("Missing: " +:+ py_str rec_type +:+ "/" +:+ py_str type_other)
          end /\
        (reminder p = JNull <-> exists c, dict_get rec_type checklist_map = Some c))
      [Sample.record 17] Sample.out17.
Proof.
  split; [vm_compute; reflexivity|]. split; [vm_compute; reflexivity|].
  apply (checklist_resolution [Sample.record 17] Sample.hives Sample.checklists
           Sample.mappings Sample.out17).
  vm_compute. reflexivity.
Defined.

Lemma hive_resolution_drops_unknowns_witness :
  transform_records [Sample.record 17] Sample.hives Sample.checklists Sample.mappings
  = Ok Sample.out17 /\
  hive_names (Sample.record 17) = Ok [JStr "A"; JStr "Unknown"] /\
  List.map (fun t => hive_ids (fst (fst t))) Sample.out17 = [[JStr "h1"]] /\
  exists hive_map,
    name_id_map Sample.hives "hives" = Ok hive_map /\
    Forall2 (fun r t =>
      exists names,
        hive_names r = Ok names /\
        hive_ids (fst (fst t)) = omap (fun n => dict_get n hive_map) names)
      [Sample.record 17] Sample.out17 /\
    (forall r names,
        hive_names r = Ok names ->
        Forall (fun n => hashable n = true) names ->
        resolve_hive_ids hive_map r = Ok (omap (fun n => dict_get n hive_map) names)).
Proof.
  split; [vm_compute; reflexivity|]. split; [vm_compute; reflexivity|].
  split; [vm_compute; reflexivity|].
  apply (hive_resolution_drops_unknowns [Sample.record 17] Sample.hives Sample.checklists
           Sample.mappings Sample.out17).
  vm_compute. reflexivity.
Defined.

Lemma provenance_is_stringified_witness :
  transform_records [Sample.record 17] Sample.hives Sample.no_checklists Sample.mappings
  = Ok Sample.out17_unfiled /\
  List.map (fun t => (checklist_id (fst (fst t)), snd (fst t), snd t)) Sample.out17_unfiled
  = [(JNull, "17", "None")] /\
  Forall2 (fun r t =>
    let p := fst (fst t) in
    exists src_id,
      py_get r (JStr "id") JNull = Ok src_id /\
      snd (fst t) = py_str src_id /\
      snd t = py_str (checklist_id p) /\
      (checklist_id p = JNull ->
       snd t = "None" /\
       forall w tok st,
         accepted (http w (trace st) (store_request tok t)) = true ->
         exists tr,
           table (snd (upload_one w tok t st))
           = insert_or_ignore {| LedgerRow.record_id := py_str src_id;
                                 LedgerRow.action_date := date p;
                                 LedgerRow.checklist_id := "None";
                                 LedgerRow.created_at := sql_now w tr |} (table st)))
    [Sample.record 17] Sample.out17_unfiled.
Proof.
  split; [vm_compute; reflexivity|]. split; [vm_compute; reflexivity|].
  apply (provenance_is_stringified [Sample.record 17] Sample.hives Sample.no_checklists
           Sample.mappings Sample.out17_unfiled).
  vm_compute. reflexivity.
Defined.

Lemma mark_is_first_write_wins_witness :
  let w := Sample.world_with_files in
  let st1 := snd (mark_imported w "17" "2024-05-11T12:34:56Z" "c9" Sample.fresh) in
  let st2 := snd (mark_imported w "17" "2025-01-01T00:00:00Z" "c1" st1) in
  ~ In "17" (known_ids (table Sample.fresh)) /\
  NoDup (known_ids (table Sample.fresh)) /\
  List.map (fun r => (LedgerRow.record_id r, LedgerRow.action_date r, LedgerRow.checklist_id r)) (table st2)
  = [("17", "2024-05-11T12:34:56Z", "c9")] /\
  count_occ string_dec (known_ids (table st2)) "17" = 1%nat /\
  exists r, lookup_row "17" (table st2) = Some r /\
            LedgerRow.action_date r = "2024-05-11T12:34:56Z" /\ LedgerRow.checklist_id r = "c9".
Proof.
  intros w st1 st2.
  assert (Hnew : ~ In "17" (known_ids (table Sample.fresh))) by (simpl; tauto).
  assert (Hkey : NoDup (known_ids (table Sample.fresh))) by constructor.
  split; [exact Hnew|]. split; [exact Hkey|]. split; [vm_compute; reflexivity|].
  destruct (mark_is_first_write_wins w Sample.fresh "17" "2024-05-11T12:34:56Z" "c9"
              "2025-01-01T00:00:00Z" "c1") as (_ & _ & Hone & Hfirst & _).
  split; [exact (proj2 (Hone Hkey)) | exact (Hfirst Hnew)].
Defined.


Lemma import_is_idempotent_witness :
  known_ids (table (snd Sample.first_run)) = ["1"; "3"] /\
  List.length (stores (trace (snd Sample.first_run))) = 3%nat /\
  List.length (stores (trace (snd Sample.second_run))) = 1%nat /\
  known_ids (table (snd Sample.second_run)) = ["1"; "3"; "2"] /\
  exists ts2 : list transformed,
    stores (trace (snd Sample.second_run)) = List.map (fun t => fst (fst t)) ts2 /\
    Forall (fun t => ~ In (snd (fst t)) (known_ids (table (snd Sample.first_run)))) ts2 /\
    NoDup (known_ids (table (snd Sample.second_run))).
Proof.
  split; [vm_compute; reflexivity|]. split; [vm_compute; reflexivity|].
  split; [vm_compute; reflexivity|]. split; [vm_compute; reflexivity|].
  destruct (import_is_idempotent
              Sample.world_with_files Sample.world_with_files
              Sample.upload_args Sample.upload_args Sample.creds Sample.creds
              Sample.dataset Sample.checklists Sample.hives Sample.checklists Sample.hives
              Sample.fresh (fst Sample.first_run) (snd Sample.first_run) []
              (fst Sample.second_run) (snd Sample.second_run))
    as (ts1 & tok1 & up1 & ts2 & _ & _ & _ & _ & _ & Hst & _ & Hnew & _ & _ & _ & Hkey).
  - symmetry. apply surjective_pairing.
  - symmetry. apply surjective_pairing.
  - exists ts2. split; [exact Hst|]. split; [exact Hnew|]. apply Hkey. constructor.
Defined.

Lemma config_errors_are_fatal_witness :
  ruleset_unusable Sample.world_without_ruleset Sample.api_args /\
  main Sample.world_without_ruleset Sample.api_args 5 Sample.fresh
  = (Exited 1, snd (main Sample.world_without_ruleset Sample.api_args 5 Sample.fresh)) /\
  table (snd (main Sample.world_without_ruleset Sample.api_args 5 Sample.fresh)) = [] /\
  stores (trace (snd (main Sample.world_without_ruleset Sample.api_args 5 Sample.fresh))) = [].
Proof.
  assert (U : ruleset_unusable Sample.world_without_ruleset Sample.api_args) by exact I.
  split; [exact U|]. split; [vm_compute; reflexivity|].
  destruct (config_errors_are_fatal Sample.world_without_ruleset Sample.api_args 5 Sample.fresh
              (fst (main Sample.world_without_ruleset Sample.api_args 5 Sample.fresh))
              (snd (main Sample.world_without_ruleset Sample.api_args 5 Sample.fresh)))
    as (_ & Hrules).
  - symmetry. apply surjective_pairing.
  - destruct (Hrules U) as (_ & Ht & Hs & _). split; [exact Ht | exact Hs].
Defined.

(** Counterexample to C2 as stated: without [--import-from-file] and
    without a ruleset on disk, the run fails loading the ruleset after five
    requests to the remote services. *)
Lemma ruleset_is_loaded_after_the_fetches :
  let run := main Sample.world_without_ruleset Sample.api_args 5 Sample.fresh in
  read_json Sample.world_without_ruleset (mappings_file Sample.api_args) = None /\
  fst run = Exited 1 /\
  In (Log (Error FileNotFoundError)) (trace (snd run)) /\
  requests (trace (snd run))
  = [HtSignin "secret" "secret";
     HtGetPage records_url "access_token=ht" 0;
     HtGetPage records_url "access_token=ht" 10;
     BeepLogin "secret" "secret";
     BeepGet "https://api.beep.nl/api/inspections/lists" "Bearer tok";
     BeepGet "https://api.beep.nl/api/hives" "Bearer tok"].
Proof.
  intros run. split; [reflexivity|]. split; [vm_compute; reflexivity|].
  split; [vm_compute; tauto | vm_compute; reflexivity].
Qed.

Lemma output_in_order_items_from_tables_witness :
  transform_records [Sample.record 17] Sample.hives Sample.checklists Sample.mappings
  = Ok Sample.out17 /\
  List.length Sample.out17 = 1%nat /\
  Forall (fun t => dict_get legacy_record_id_code (items (fst (fst t))) = None) Sample.out17 /\
  exists hive_map checklist_map fallback,
    Forall2 (fun r t => transform_record hive_map checklist_map fallback Sample.mappings r = Ok t)
            [Sample.record 17] Sample.out17.
Proof.
  split; [vm_compute; reflexivity|].
  destruct (output_in_order_items_from_tables [Sample.record 17] Sample.hives Sample.checklists
              Sample.mappings Sample.out17) as (Hlen & Heach & _).
  - vm_compute. reflexivity.
  - split; [exact Hlen|]. split; [|exact Heach].
    repeat constructor.
Defined.

(** Counterexample to C9 as stated: a ruleset whose field_map names the
    code "1499" puts the record id into item "1499". *)
Lemma legacy_code_can_be_configured :
  exists p sid cid,
    transform_records [Sample.record 17] Sample.hives Sample.checklists Sample.legacy_mappings
    = Ok [(p, sid, cid)] /\
    dict_get legacy_record_id_code (items p) = Some (JNum 17).
Proof. do 3 eexists. split; vm_compute; reflexivity. Qed.

(** ** The record normalizer *)

Lemma digit_cases c : is_digit c = true -> In c digits.
Proof.
  destruct c as [[] [] [] [] [] [] [] []]; vm_compute; intros H; try discriminate;
    repeat (first [left; reflexivity | right]).
Qed.














Lemma rep_match_S ma lo hi s :
  rep_match ma lo (S hi) s
  = and_then (ma s) (rep_match ma (pred lo) hi)
    ++ match lo with O => [empty_match s] | S _ => [] end.
Proof. reflexivity. Qed.



















(** *** What the matcher can return *)

Lemma in_and_then m ms K :
  In m (and_then ms K) ->
  exists m1 m2, In m1 ms /\ In m2 (K (rest m1)) /\ m = join_match m1 m2.
Proof.
  unfold and_then. rewrite in_flat_map. intros (m1 & H1 & H2).
  apply in_map_iff in H2 as (m2 & <- & H2). eauto.
Qed.

Lemma in_seq m a b s :
  In m (re_match (Seq a b) s) ->
  exists m1 m2, In m1 (re_match a s) /\ In m2 (re_match b (rest m1)) /\ m = join_match m1 m2.
Proof. apply in_and_then. Qed.

Lemma in_alt m a b s :
  In m (re_match (Alt a b) s) -> In m (re_match a s) \/ In m (re_match b s).
Proof. apply in_app_or. Qed.

Lemma in_chr m c s :
  In m (re_match (Chr c) s) ->
  exists x s', s = x :: s' /\ lower x = lower c /\ m = one_char x s'.
Proof.
  destruct s as [|x s']; [intros []|].
  change (re_match (Chr c) (x :: s'))
    with (if Ascii.eqb (lower c) (lower x) then [one_char x s'] else []).
  destruct (Ascii.eqb_spec (lower c) (lower x)) as [E|E]; [|intros []].
  intros [<-|[]]. eauto.
Qed.

Lemma in_rng m lo hi s :
  In m (re_match (Rng lo hi) s) ->
  exists x s', s = x :: s' /\ in_range lo hi x = true /\ m = one_char x s'.
Proof.
  destruct s as [|x s']; [intros []|].
  change (re_match (Rng lo hi) (x :: s'))
    with (if in_range lo hi x then [one_char x s'] else []).
  destruct (in_range lo hi x) eqn:E; [|intros []].
  intros [<-|[]]. eauto.
Qed.

Lemma in_grp m name a s :
  In m (re_match (Grp name a) s) ->
  exists m0, In m0 (re_match a s) /\
             m = {| captured := (name, consumed m0) :: captured m0;
                    consumed := consumed m0; rest := rest m0 |}.
Proof.
  change (re_match (Grp name a) s)
    with (List.map (fun m => {| captured := (name, consumed m) :: captured m;
                                consumed := consumed m; rest := rest m |}) (re_match a s)).
  intros H. apply in_map_iff in H as (m0 & <- & H). eauto.
Qed.

(** A range within the digits tests for a digit. *)
Lemma rng_is_digit lo hi x :
  is_digit lo = true -> is_digit hi = true -> in_range lo hi x = true -> is_digit x = true.
Proof.
  unfold is_digit, in_range. change (nat_of_ascii "0") with 48%nat.
  change (nat_of_ascii "9") with 57%nat.
  rewrite !andb_true_iff, !Nat.leb_le. lia.
Qed.

Lemma lower_digit x : is_digit (lower x) = true -> lower x = x.
Proof. destruct x as [[] [] [] [] [] [] [] []]; vm_compute; intros H; first [reflexivity | discriminate]. Qed.

(** A character that [lower] sends to something other than a small letter
    is that thing. *)
Lemma lower_inv x c : lower x = c -> in_range "a" "z" c = false -> x = c.
Proof.
  intros <-. destruct x as [[] [] [] [] [] [] [] []]; vm_compute; intros H;
    first [reflexivity | discriminate].
Qed.

Lemma chr_is_digit c x : is_digit c = true -> lower x = lower c -> x = c /\ is_digit x = true.
Proof.
  intros Hc E. assert (Lc : lower c = c).
  { apply digit_cases in Hc. simpl in Hc.
    repeat (destruct Hc as [<- | Hc]); try contradiction; reflexivity. }
  rewrite Lc in E. assert (x = c).
  { rewrite <- E. symmetry. apply lower_digit. rewrite E. exact Hc. }
  subst x. auto.
Qed.

Lemma in_rep_digits hi :
  forall lo s m,
    In m (rep_match (re_match digit) lo hi s) ->
    captured m = [] /\ forallb is_digit (consumed m) = true /\
    (lo <= List.length (consumed m) <= hi)%nat /\ s = consumed m ++ rest m.
Proof.
  induction hi as [|hi IH]; intros lo s m H.
  - simpl in H. destruct lo; [|destruct H]. destruct H as [<-|[]]. simpl. auto.
  - rewrite rep_match_S in H. apply in_app_or in H as [H|H].
    + apply in_and_then in H as (m1 & m2 & H1 & H2 & ->).
      apply in_rng in H1 as (x & s' & -> & Hx & ->).
      apply IH in H2 as (C & D & L & E). simpl in E. simpl.
      rewrite C. split; [reflexivity|]. fold (is_digit x) in Hx. rewrite Hx, D.
      split; [reflexivity|]. split; [lia|]. rewrite <- E. reflexivity.
    + destruct lo; [|destruct H]. destruct H as [<-|[]]. simpl.
      repeat split; auto; lia.
Qed.

Ltac inv_re_step :=
  match goal with
  | H : In _ (re_match (Grp _ _) _) |- _ =>
      let m0 := fresh "m" in apply in_grp in H as (m0 & H & ->)
  | H : In _ (re_match (Seq _ _) _) |- _ =>
      let m1 := fresh "m" in let m2 := fresh "m" in
      let H2 := fresh "H" in
      apply in_seq in H as (m1 & m2 & H & H2 & ->)
  | H : In _ (re_match (Alt _ _) _) |- _ => apply in_alt in H as [H | H]
  | H : In _ (re_match (Chr _) (_ :: _)) |- _ =>
      let x := fresh "x" in let s := fresh "s" in
      let E := fresh "E" in let T := fresh "T" in
      apply in_chr in H as (x & s & E & T & ->); injection E as <- <-
  | H : In _ (re_match (Chr _) ?s) |- _ =>
      is_var s;
      let x := fresh "x" in let s' := fresh "s" in let T := fresh "T" in
      apply in_chr in H as (x & s' & -> & T & ->)
  | H : In _ (re_match (Rng _ _) (_ :: _)) |- _ =>
      let x := fresh "x" in let s := fresh "s" in
      let E := fresh "E" in let T := fresh "T" in
      apply in_rng in H as (x & s & E & T & ->); injection E as <- <-
  | H : In _ (re_match (Rng _ _) ?s) |- _ =>
      is_var s;
      let x := fresh "x" in let s' := fresh "s" in let T := fresh "T" in
      apply in_rng in H as (x & s' & -> & T & ->)
  end.

Ltac inv_re := repeat (inv_re_step; cbn [rest one_char join_match consumed captured] in * ).

Ltac digit_facts :=
  repeat match goal with
         | H : lower ?x = lower ?c |- _ =>
             apply (chr_is_digit c x eq_refl) in H as [-> _]
         | H : in_range ?lo ?hi ?y = true |- _ =>
             apply (rng_is_digit lo hi y eq_refl eq_refl) in H
         end.

Ltac shape_done :=
  (split; [reflexivity|]); (split; [reflexivity|]);
  unfold day_text, short_number; cbn [forallb List.length app];
  repeat match goal with H : is_digit _ = true |- _ => rewrite H; clear H end;
  reflexivity.

Lemma month_sound s m :
  In m (re_match re_m s) ->
  captured m = [("m", consumed m)] /\ s = consumed m ++ rest m /\
  short_number (consumed m) = true.
Proof.
  unfold re_m, digit. intros H. inv_re; digit_facts; shape_done.
Qed.

Lemma hour_sound s m :
  In m (re_match re_H s) ->
  captured m = [("H", consumed m)] /\ s = consumed m ++ rest m /\
  short_number (consumed m) = true.
Proof. unfold re_H, digit. intros H. inv_re; digit_facts; shape_done. Qed.

Lemma minute_sound s m :
  In m (re_match re_M s) ->
  captured m = [("M", consumed m)] /\ s = consumed m ++ rest m /\
  short_number (consumed m) = true.
Proof. unfold re_M, digit. intros H. inv_re; digit_facts; shape_done. Qed.

Lemma second_sound s m :
  In m (re_match re_S s) ->
  captured m = [("S", consumed m)] /\ s = consumed m ++ rest m /\
  short_number (consumed m) = true.
Proof. unfold re_S, digit. intros H. inv_re; digit_facts; shape_done. Qed.

Lemma year_sound s m :
  In m (re_match re_Y s) ->
  captured m = [("Y", consumed m)] /\ s = consumed m ++ rest m /\
  forallb is_digit (consumed m) = true /\ List.length (consumed m) = 4%nat.
Proof.
  unfold re_Y, digit. intros H. inv_re; digit_facts.
  split; [reflexivity|]. split; [reflexivity|]. cbn [forallb List.length app].
  repeat match goal with H : is_digit _ = true |- _ => rewrite H; clear H end.
  split; reflexivity.
Qed.

Lemma fraction_sound s m :
  In m (re_match re_f s) ->
  captured m = [("f", consumed m)] /\ s = consumed m ++ rest m /\
  forallb is_digit (consumed m) = true /\ (1 <= List.length (consumed m) <= 6)%nat.
Proof.
  unfold re_f. intros H. apply in_grp in H as (m0 & H & ->).
  change (re_match (Rep digit 1 6) s) with (rep_match (re_match digit) 1 6 s) in H.
  apply in_rep_digits in H as (C & D & L & E). simpl. rewrite C. auto.
Qed.

Lemma day_sound s m :
  In m (re_match re_d s) ->
  captured m = [("d", consumed m)] /\ s = consumed m ++ rest m /\
  day_text (consumed m) = true.
Proof.
  unfold re_d, digit. intros H. inv_re.
  5: { apply (lower_inv x " "%char) in T; [|reflexivity]. subst x.
       split; [reflexivity|]. split; [reflexivity|].
       unfold day_text. cbn [app]. rewrite T0. reflexivity. }
  all: digit_facts; (split; [reflexivity|]); (split; [reflexivity|]);
    unfold day_text, short_number; cbn [forallb List.length app];
    repeat match goal with H : is_digit _ = true |- _ => rewrite H; clear H end;
    reflexivity.
Qed.

(** *** One-digit fields and separators in either case *)













(** *** [strptime] accepts exactly the timestamps described *)



Lemma field_sep_sound fld sep R s m :
  In m (re_match (Seq fld (Seq (Chr sep) R)) s) ->
  exists mf x s' mr,
    In mf (re_match fld s) /\ rest mf = x :: s' /\ lower x = lower sep /\
    In mr (re_match R s') /\ m = join_match mf (join_match (one_char x s') mr).
Proof.
  intros H. apply in_seq in H as (mf & m2 & Hf & H2 & ->).
  apply in_seq in H2 as (m3 & mr & H3 & Hr & ->).
  apply in_chr in H3 as (x & s' & E & T & ->). simpl in Hr.
  exists mf, x, s', mr. auto.
Qed.

Lemma source_format_sound text m :
  In m (re_match source_format text) ->
  exists ys mo d h mi s fs t z,
    text = ys ++ "-"%char :: mo ++ "-"%char :: d ++ t :: h ++ ":"%char :: mi ++ ":"%char
              :: s ++ "."%char :: fs ++ z :: rest m /\
    captured m = [("Y", ys); ("m", mo); ("d", d); ("H", h); ("M", mi); ("S", s); ("f", fs)] /\
    forallb is_digit ys = true /\ List.length ys = 4%nat /\
    short_number mo = true /\ day_text d = true /\ short_number h = true /\
    short_number mi = true /\ short_number s = true /\
    forallb is_digit fs = true /\ (1 <= List.length fs <= 6)%nat /\
    lower t = "t"%char /\ lower z = "z"%char.
Proof.
  unfold source_format. intros H.
  apply field_sep_sound in H as (mY & x1 & s1 & r1 & HY & E1 & T1 & H & ->).
  apply field_sep_sound in H as (mm & x2 & s2 & r2 & Hm & E2 & T2 & H & ->).
  apply field_sep_sound in H as (md & x3 & s3 & r3 & Hd & E3 & T3 & H & ->).
  apply field_sep_sound in H as (mH & x4 & s4 & r4 & HH & E4 & T4 & H & ->).
  apply field_sep_sound in H as (mM & x5 & s5 & r5 & HM & E5 & T5 & H & ->).
  apply field_sep_sound in H as (mS & x6 & s6 & r6 & HS & E6 & T6 & H & ->).
  apply in_seq in H as (mf & mz & Hf & Hz & ->).
  apply in_chr in Hz as (z & s7 & E7 & T7 & ->).
  apply year_sound in HY as (CY & SY & DY & LY).
  apply month_sound in Hm as (Cm & Sm & Dm).
  apply day_sound in Hd as (Cd & Sd & Dd).
  apply hour_sound in HH as (CH & SH & DH).
  apply minute_sound in HM as (CM & SM & DM).
  apply second_sound in HS as (CS & SS & DS).
  apply fraction_sound in Hf as (Cf & Sf & Df & Lf).
  apply (lower_inv x1 "-"%char) in T1; [subst x1 | reflexivity].
  apply (lower_inv x2 "-"%char) in T2; [subst x2 | reflexivity].
  apply (lower_inv x4 ":"%char) in T4; [subst x4 | reflexivity].
  apply (lower_inv x5 ":"%char) in T5; [subst x5 | reflexivity].
  apply (lower_inv x6 "."%char) in T6; [subst x6 | reflexivity].
  exists (consumed mY), (consumed mm), (consumed md), (consumed mH), (consumed mM),
    (consumed mS), (consumed mf), x3, z.
  cbn [join_match captured consumed rest one_char app].
  rewrite CY, Cm, Cd, CH, CM, CS, Cf. cbn [app].
  split.
  { rewrite SY, E1. f_equal. f_equal. rewrite Sm, E2. f_equal. f_equal.
    rewrite Sd, E3. f_equal. f_equal. rewrite SH, E4. f_equal. f_equal.
    rewrite SM, E5. f_equal. f_equal. rewrite SS, E6. f_equal. f_equal.
    rewrite Sf, E7. reflexivity. }
  repeat (split; [first [reflexivity | assumption | lia]|]).
  exact T7.
Qed.

Lemma strptime_sound text dt :
  strptime text = Ok dt -> accepted_timestamp (list_ascii_of_string text) dt.
Proof.
  unfold strptime. intros H.
  destruct (re_match source_format (list_ascii_of_string text)) as [|m ms] eqn:E;
    [discriminate|].
  assert (Hin : In m (re_match source_format (list_ascii_of_string text))).
  { rewrite E. left. reflexivity. }
  destruct (rest m) eqn:Hr; [|discriminate].
  apply source_format_sound in Hin
    as (ys & mo & d & h & mi & s & fs & t & z & Et & Hc & Hys & Lys & Hmo & Hd & Hh & Hmi
        & Hs & Hfs & Lfs & Ht & Hz).
  rewrite Hr in Et. rewrite Hc in H.
  change ((if valid_datetime (timestamp_fields ys mo d h mi s fs)
           then Ok (timestamp_fields ys mo d h mi s fs) else Raise ValueError)
          = Ok dt) in H.
  destruct (valid_datetime (timestamp_fields ys mo d h mi s fs)) eqn:Hv; [|discriminate].
  injection H as <-.
  exists ys, mo, d, h, mi, s, fs, t, z.
  split; [exact Et|]. repeat (split; [assumption|]).
  split; [reflexivity | exact Hv].
Qed.

Lemma strptime_raises text e : strptime text = Raise e -> e = ValueError.
Proof.
  unfold strptime. intros H.
  destruct (re_match source_format (list_ascii_of_string text)) as [|m ms]; [congruence|].
  destruct (rest m); [|congruence].
  match type of H with (if ?b then _ else _) = _ => destruct b end; congruence.
Qed.





(** * More of the script *)

(** ** Reference maps *)

Lemma name_step_entry x acc :
  is_object x = true ->
  (let! n := py_get x (JStr "name") JNull in
   if py_truthy n then
     let! i := py_get x (JStr "id") JNull in
     if py_truthy i then
       let! k := py_getitem x (JStr "name") in
       let! v := py_getitem x (JStr "id") in
       if hashable k then Ok (dict_set k v acc) else Raise TypeError
     else Ok acc
   else Ok acc)
  = match entry_pair x with
    | Some (n, i) => if hashable n then Ok (dict_set n i acc) else Raise TypeError
    | None => Ok acc
    end.
Proof.
  destruct x as [| | | | |kv]; try discriminate. intros _. simpl.
  destruct (obj_get "name" kv) as [n|]; simpl; [|reflexivity].
  destruct (py_truthy n); simpl; [|destruct (obj_get "id" kv); reflexivity].
  destruct (obj_get "id" kv) as [i|]; simpl; [|reflexivity].
  destruct (py_truthy i); reflexivity.
Qed.

Lemma name_fold_entries xs acc :
  Forall (fun x => is_object x = true) xs ->
  Forall (fun p => hashable (fst p) = true) (omap entry_pair xs) ->
  foldM (fun acc x =>
           let! n := py_get x (JStr "name") JNull in
           if py_truthy n then
             let! i := py_get x (JStr "id") JNull in
             if py_truthy i then
               let! k := py_getitem x (JStr "name") in
               let! v := py_getitem x (JStr "id") in
               if hashable k then Ok (dict_set k v acc) else Raise TypeError
             else Ok acc
           else Ok acc) xs acc
  = Ok (apply_writes (omap entry_pair xs) acc).
Proof.
  revert acc. induction xs as [|x xs IH]; intros acc Ho Hh; [reflexivity|].
  inversion Ho as [|? ? Hx Ho']; subst.
  cbn [foldM]. rewrite (name_step_entry x acc Hx).
  cbn [omap list_omap] in Hh |- *.
  destruct (entry_pair x) as [[n i]|].
  - inversion Hh as [|? ? Hn Hh']; subst. simpl in Hn. rewrite Hn.
    simpl. rewrite IH by assumption. reflexivity.
  - simpl. rewrite IH by assumption. reflexivity.
Qed.

(** X1.  When the reference data hold a list of objects, the name-to-id map
    of lines 195-196 is what assigning, in order, the id of every entry with
    a truthy name and a truthy id gives: an entry with id 0, null or the
    empty string is ignored, and of two entries with one name the later one
    is used. *)
Theorem name_id_map_last_entry_wins ref field xs :
  py_get ref (JStr field) (JArr []) = Ok (JArr xs) ->
  Forall (fun x => is_object x = true) xs ->
  Forall (fun p => hashable (fst p) = true) (omap entry_pair xs) ->
  name_id_map ref field = Ok (apply_writes (omap entry_pair xs) []) /\
  forall k, hashable k = true ->
            dict_get k (apply_writes (omap entry_pair xs) []) = last_write k (omap entry_pair xs).
Proof.
  intros Hg Ho Hh. split.
  - unfold name_id_map. rewrite Hg. simpl. apply name_fold_entries; assumption.
  - intros k Hk. rewrite dict_get_apply_writes by assumption.
    simpl. destruct (last_write k (omap entry_pair xs)); reflexivity.
Qed.

Lemma name_id_map_last_entry_wins_witness :
  name_id_map
    (JObj [("hives", JArr [JObj [("name", JStr "A"); ("id", JNum 1)];
                           JObj [("name", JStr "B"); ("id", JNum 0)];
                           JObj [("name", JStr "A"); ("id", JNum 2)]])]) "hives"
  = Ok [(JStr "A", JNum 2)].
Proof.
  refine (proj1 (name_id_map_last_entry_wins
                   (JObj [("hives", JArr [JObj [("name", JStr "A"); ("id", JNum 1)];
                                          JObj [("name", JStr "B"); ("id", JNum 0)];
                                          JObj [("name", JStr "A"); ("id", JNum 2)]])])
                   "hives" _ eq_refl _ _)).
  - repeat constructor.
  - repeat constructor.
Defined.

(** ** The filter of line 324 *)

Lemma keep_new_filter ids rs :
  keep_new ids rs
  = if forallb is_object rs
    then Ok (List.filter (fun r => negb (bool_decide (source_id r ∈ ids))) rs)
    else Raise AttributeError.
Proof.
  induction rs as [|r rs IH]; [reflexivity|].
  cbn [keep_new forallb List.filter]. rewrite IH.
  destruct r as [| | | | |kv]; try reflexivity.
  cbn [is_object andb py_get rbind source_id].
  destruct (forallb is_object rs); [|reflexivity].
  simpl. destruct (bool_decide _); reflexivity.
Qed.

(** X2.  The records to import are the records of the dataset whose ledger
    key, [str] of the id, is not in the ledger, in the order of the dataset;
    a record that is not an object raises AttributeError.  A record without
    an id has the key "None", and the number 7 and the text "7" are one
    key. *)
Theorem records_to_import_is_a_filter ids rs :
  records_to_import ids (JArr rs)
  = (if forallb is_object rs
     then Ok (List.filter (fun r => negb (bool_decide (source_id r ∈ ids))) rs)
     else Raise AttributeError) /\
  (forall kv, obj_get "id" kv = None -> source_id (JObj kv) = "None") /\
  source_id (JObj [("id", JNum 7)]) = source_id (JObj [("id", JStr "7")]).
Proof.
  split; [apply keep_new_filter|]. split; [|reflexivity].
  intros kv H. simpl. rewrite H. reflexivity.
Qed.

(** ** Records the transformation cannot take *)

Lemma foldM_raise {A B} (f : B -> A -> result B) l x acc :
  In x l -> (forall b, exists e, f b x = Raise e) -> exists e, foldM f l acc = Raise e.
Proof.
  revert acc. induction l as [|y l IH]; intros acc Hin Hx; [destruct Hin|].
  simpl. destruct Hin as [->|Hin].
  - destruct (Hx acc) as [e He]. rewrite He. eauto.
  - destruct (f acc y) as [b|e]; simpl; [apply IH; assumption | eauto].
Qed.

Lemma transform_record_raises hm cm fb m r :
  (is_object r = false \/
   (exists hs0 hs h e,
       py_get r (JStr "hives") (JArr []) = Ok hs0 /\ py_iter hs0 = Ok hs /\
       In h hs /\ py_getitem h (JStr "name") = Raise e) \/
   (exists t, py_get r (JStr "type") JNull = Ok t /\ hashable t = false)) ->
  exists e, transform_record hm cm fb m r = Raise e.
Proof.
  intros H. unfold transform_record.
  destruct (py_get r (JStr "id") JNull) as [src_id|e0] eqn:Eid; simpl; [|eauto].
  destruct H as [H|[H|H]].
  - destruct r; simpl in H, Eid; discriminate.
  - destruct (build_items r m); simpl; [|eauto].
    destruct H as (hs0 & hs & h & e & H0 & H1 & Hin & Hn).
    assert (Hr : exists e', resolve_hive_ids hm r = Raise e').
    { unfold resolve_hive_ids. rewrite H0. simpl. rewrite H1. simpl.
      apply (foldM_raise _ _ h); [exact Hin|].
      intros b. unfold hive_step. rewrite Hn. simpl. eauto. }
    destruct Hr as [e' ->]. simpl. eauto.
  - destruct (build_items r m); simpl; [|eauto].
    destruct (resolve_hive_ids hm r); simpl; [|eauto].
    destruct H as (t & Ht & Hh). rewrite Ht. simpl.
    unfold resolve_checklist, dget. rewrite Hh. simpl. eauto.
Qed.

(** X3.  A record that is not an object, a record with a hive entry that
    has no name to read, and a record whose type is a list or an object each
    make [transform_records] raise: the batch is lost, the record is not
    skipped. *)
Theorem malformed_record_aborts_batch rs hv cl m r :
  In r rs ->
  (is_object r = false \/
   (exists hs0 hs h e,
       py_get r (JStr "hives") (JArr []) = Ok hs0 /\ py_iter hs0 = Ok hs /\
       In h hs /\ py_getitem h (JStr "name") = Raise e) \/
   (exists t, py_get r (JStr "type") JNull = Ok t /\ hashable t = false)) ->
  exists e, transform_records rs hv cl m = Raise e.
Proof.
  intros Hin H. unfold transform_records.
  destruct (name_id_map hv "hives") as [hm|]; simpl; [|eauto].
  destruct (name_id_map cl "checklists") as [cm|]; simpl; [|eauto].
  destruct (py_get m (JStr "checklist_fallback") (JStr "TBD")) as [fb|]; simpl; [|eauto].
  destruct (transform_record_raises hm cm fb m r H) as [e He].
  eapply mapM_raise; eassumption.
Qed.

Lemma malformed_record_aborts_batch_witness :
  exists e,
    transform_records
      [Sample.record 1;
       JObj [("id", JNum 2); ("actionDate", JStr "2024-05-11T12:34:56.789012Z");
             ("hives", JArr [JObj [("id", JStr "h1")]])]]
      Sample.hives Sample.checklists Sample.mappings = Raise e.
Proof.
  apply (malformed_record_aborts_batch _ _ _ _
           (JObj [("id", JNum 2); ("actionDate", JStr "2024-05-11T12:34:56.789012Z");
                  ("hives", JArr [JObj [("id", JStr "h1")]])])).
  - right. left. reflexivity.
  - right. left. exists (JArr [JObj [("id", JStr "h1")]]), [JObj [("id", JStr "h1")]],
      (JObj [("id", JStr "h1")]), KeyError.
    split; [reflexivity|]. split; [reflexivity|]. split; [left; reflexivity | reflexivity].
Defined.

(** ** The ruleset and its defaults *)

Lemma obj_get_app k kv kv' :
  obj_get k (kv ++ kv') = or_else (obj_get k kv) (obj_get k kv').
Proof.
  induction kv as [|[k' v] kv IH]; simpl; [destruct (obj_get k kv'); reflexivity|].
  destruct (String.eqb k k'); [reflexivity | exact IH].
Qed.

Lemma obj_get_setdefault k k' v kv :
  obj_get k (setdefault k' v kv)
  = or_else (obj_get k kv) (if String.eqb k k' then Some v else None).
Proof.
  unfold setdefault. destruct (obj_get k' kv) as [x|] eqn:E.
  - destruct (String.eqb_spec k k') as [->|_].
    + rewrite E. reflexivity.
    + destruct (obj_get k kv); reflexivity.
  - rewrite obj_get_app. simpl. destruct (String.eqb k k'); reflexivity.
Qed.

Lemma setdefault_extends k v kv : exists added, setdefault k v kv = kv ++ added.
Proof.
  unfold setdefault. destruct (obj_get k kv).
  - exists []. rewrite app_nil_r. reflexivity.
  - eauto.
Qed.

Lemma load_mappings_cases w path st :
  load_mappings w path st
  = (match read_json w path with
     | Some (Some (JObj kv)) =>
         Ok (JObj (setdefault "checklist_fallback" (JStr "TBD")
                  (setdefault "feeding_rules" (JArr [])
                  (setdefault "stages_flags"
                     (JObj [("field", JStr "inspectionBroodStages"); ("flags", JObj [])])
                  (setdefault "enums" (JObj [])
                  (setdefault "field_map" (JObj []) kv))))))
     | Some (Some _) => Raise AttributeError
     | Some None => Raise JSONDecodeError
     | None => Raise FileNotFoundError
     end,
     {| table := table st;
        trace := trace st ++ [Log (Text ((match read_json w path with
                                          | Some _ => "Loaded file: "
                                          | None => "File not found: "
                                          end) +:+ path))] |}).
Proof.
  unfold load_mappings, load_json_file.
  destruct (read_json w path) as [[v|]|]; try reflexivity.
  destruct v; reflexivity.
Qed.

(** X4.  [load_mappings] returns the object of the ruleset file with the
    five defaults of lines 178-182 added after its own keys: a key the file
    has keeps its value, whatever that is, and a key it lacks gets the
    default.  A file that holds something else than an object raises
    AttributeError; a missing file and a file that is not JSON raise as in
    [load_json_file]. *)
Theorem load_mappings_adds_defaults w path st r st' :
  load_mappings w path st = (r, st') ->
  table st' = table st /\
  match read_json w path with
  | Some (Some (JObj kv)) =>
      exists kv' added,
        r = Ok (JObj kv') /\ kv' = kv ++ added /\
        forall k, obj_get k kv' = or_else (obj_get k kv) (obj_get k default_tables)
  | Some (Some _) => r = Raise AttributeError
  | Some None => r = Raise JSONDecodeError
  | None => r = Raise FileNotFoundError
  end.
Proof.
  rewrite load_mappings_cases. intros [= <- <-]. split; [reflexivity|].
  destruct (read_json w path) as [[v|]|]; try reflexivity.
  destruct v as [| | | | |kv]; try reflexivity.
  eexists. 
  destruct (setdefault_extends "field_map" (JObj []) kv) as [a1 E1].
  destruct (setdefault_extends "enums" (JObj []) (kv ++ a1)) as [a2 E2].
  destruct (setdefault_extends "stages_flags"
              (JObj [("field", JStr "inspectionBroodStages"); ("flags", JObj [])])
              ((kv ++ a1) ++ a2)) as [a3 E3].
  destruct (setdefault_extends "feeding_rules" (JArr []) (((kv ++ a1) ++ a2) ++ a3))
    as [a4 E4].
  destruct (setdefault_extends "checklist_fallback" (JStr "TBD")
              ((((kv ++ a1) ++ a2) ++ a3) ++ a4)) as [a5 E5].
  exists (a1 ++ a2 ++ a3 ++ a4 ++ a5).
  split; [reflexivity|]. split.
  - rewrite E1, E2, E3, E4, E5. rewrite <- !app_assoc. reflexivity.
  - intros k. rewrite !obj_get_setdefault. unfold default_tables. cbn [obj_get].
    destruct (obj_get k kv); [reflexivity|]. cbn [or_else].
    destruct (String.eqb k "field_map"); [reflexivity|].
    destruct (String.eqb k "enums"); [reflexivity|].
    destruct (String.eqb k "stages_flags"); [reflexivity|].
    destruct (String.eqb k "feeding_rules"); [reflexivity|].
    destruct (String.eqb k "checklist_fallback"); reflexivity.
Qed.

Lemma load_mappings_adds_defaults_witness :
  let run := load_mappings (Demo.world_with_ruleset Demo.partial_ruleset) "data/mappings.json"
               Sample.fresh in
  exists kv',
    fst run = Ok (JObj kv') /\
    obj_get "enums" kv' = Some JNull /\
    obj_get "extra" kv' = Some (JNum 1) /\
    obj_get "checklist_fallback" kv' = Some (JStr "TBD").
Proof.
  intros run.
  destruct (load_mappings_adds_defaults (Demo.world_with_ruleset Demo.partial_ruleset)
              "data/mappings.json" Sample.fresh (fst run) (snd run)) as [_ H].
  - symmetry. apply surjective_pairing.
  - simpl in H. destruct H as (kv' & added & Hr & _ & Hk).
    exists kv'. split; [exact Hr|].
    rewrite !Hk. repeat split; reflexivity.
Defined.

(** X5.  With a ruleset file that has none of the four tables, for instance
    the empty object, [load_mappings] supplies empty tables and the
    transformation gives every payload an empty [items]. *)
Theorem bare_ruleset_gives_empty_items w path st m st' kv rs hv cl out :
  read_json w path = Some (Some (JObj kv)) ->
  obj_get "field_map" kv = None ->
  obj_get "enums" kv = None ->
  obj_get "stages_flags" kv = None ->
  obj_get "feeding_rules" kv = None ->
  load_mappings w path st = (Ok m, st') ->
  transform_records rs hv cl m = Ok out ->
  Forall (fun t => items (fst (fst t)) = []) out.
Proof.
  intros Hf E1 E2 E3 E4 Hl Ht.
  rewrite load_mappings_cases, Hf in Hl. injection Hl as <- _.
  apply transform_records_each in Ht as (hm & cm & fb & _ & _ & _ & Hall).
  induction Hall as [|r t rs out Hr _ IH]; constructor; [|exact IH].
  destruct t as [[p sid] cid].
  apply transform_record_parts in Hr as (_ & _ & _ & Hb & _). simpl.
  revert Hb. unfold build_items, apply_field_map, apply_enums, apply_stages_flags,
    apply_feeding_rules.
  cbn [py_get default]. rewrite !obj_get_setdefault, E1, E2, E3, E4. cbn.
  destruct r; cbn; congruence.
Qed.

Lemma bare_ruleset_gives_empty_items_witness :
  exists out,
    transform_records [Sample.record 1; Sample.record 2] Sample.hives Sample.checklists
      (JObj default_tables) = Ok out /\
    Forall (fun t => items (fst (fst t)) = []) out.
Proof.
  destruct (transform_records [Sample.record 1; Sample.record 2] Sample.hives Sample.checklists
              (JObj default_tables)) as [out|] eqn:E; [|vm_compute in E; discriminate].
  exists out. split; [reflexivity|].
  apply (bare_ruleset_gives_empty_items (Demo.world_with_ruleset (JObj []))
           "data/mappings.json" Sample.fresh (JObj default_tables)
           (snd (load_mappings (Demo.world_with_ruleset (JObj [])) "data/mappings.json"
                   Sample.fresh))
           [] [Sample.record 1; Sample.record 2] Sample.hives Sample.checklists out);
    try reflexivity.
  exact E.
Defined.

(** ** Stage flags *)

Lemma dict_set_entries (Q : json * json -> Prop) k v d :
  Forall Q d -> (forall k', Q (k', v)) -> Forall Q (dict_set k v d).
Proof.
  intros Hd Hv. induction Hd as [|[k' v'] d Hp Hd IH]; simpl.
  - constructor; [apply Hv | constructor].
  - destruct (py_eq k' k); constructor; auto.
Qed.

Lemma dict_set_keys k v d : exists added, List.map fst (dict_set k v d) = List.map fst d ++ added.
Proof.
  induction d as [|[k' v'] d [added IH]]; simpl.
  - exists [k]. reflexivity.
  - destruct (py_eq k' k); simpl.
    + exists []. rewrite app_nil_r. reflexivity.
    + exists added. rewrite IH. reflexivity.
Qed.

(** X6.  The stage flags only ever set an item to [True]: after step 3
    every item is one that was there before or has the value [True], and
    the items that were there keep their place.  A stage that the record
    lacks leaves its item unset rather than false. *)
Theorem stage_flags_only_set_true r m its its' :
  apply_stages_flags r m its = Ok its' ->
  Forall (fun p => In p its \/ snd p = JBool true) its' /\
  exists added, List.map fst its' = List.map fst its ++ added.
Proof.
  unfold apply_stages_flags. intros H.
  inv_bind H. inv_bind H. inv_bind H. inv_bind H. inv_bind H.
  revert H.
  apply (foldM_invariant
           (fun b => Forall (fun p => In p its \/ snd p = JBool true) b /\
                     exists added, List.map fst b = List.map fst its ++ added)).
  - intros b e b' [Hb [added Hk]] Hstep.
    destruct (py_in (JStr (fst e)) (py_or a2 (JArr []))) as [[|]|]; simpl in Hstep;
      try discriminate; injection Hstep as <-.
    + split.
      * apply dict_set_entries; [exact Hb|]. intros k'. right. reflexivity.
      * destruct (dict_set_keys (JStr (py_str (snd e))) (JBool true) b) as [added' Hk'].
        exists (added ++ added'). rewrite Hk', Hk, app_assoc. reflexivity.
    + split; [exact Hb | exists added; exact Hk].
  - split.
    + apply List.Forall_forall. intros p Hp. left. exact Hp.
    + exists []. rewrite app_nil_r. reflexivity.
Qed.

Lemma stage_flags_only_set_true_witness :
  apply_stages_flags (Sample.record 1) Sample.mappings [(JStr "30", JNum 5); (JStr "9", JNull)]
  = Ok [(JStr "30", JBool true); (JStr "9", JNull); (JStr "40", JBool true)] /\
  Forall (fun p => In p [(JStr "30", JNum 5); (JStr "9", JNull)] \/ snd p = JBool true)
         [(JStr "30", JBool true); (JStr "9", JNull); (JStr "40", JBool true)].
Proof.
  split; [reflexivity|].
  apply (stage_flags_only_set_true (Sample.record 1) Sample.mappings). reflexivity.
Defined.

(** ** Feeding rules and records without feeding data *)

Lemma anyM_all_false {A} (f : A -> result bool) l :
  Forall (fun x => f x = Ok false) l -> anyM f l = Ok false.
Proof.
  induction 1 as [|x l Hx _ IH]; [reflexivity|]. simpl. rewrite Hx. simpl. exact IH.
Qed.

Lemma plain_rule_idle rule its :
  plain_rule rule -> apply_rule JNull (JStr "") its rule = Ok its.
Proof.
  intros (kv & -> & Ht & Hc & Ha). apply apply_rule_no_match.
  - unfold matches_type. simpl. destruct (obj_get "if_type" kv) as [v|] eqn:E; [|reflexivity].
    simpl. destruct (Ht v eq_refl) as [t ->]. reflexivity.
  - unfold matches_contains_any. simpl.
    destruct (obj_get "if_other_contains_any" kv) as [v|] eqn:E; [|reflexivity].
    simpl. destruct (Ha v eq_refl) as (l & -> & Hl). simpl.
    apply anyM_all_false. eapply List.Forall_impl; [|exact Hl].
    intros x (s & -> & Hs). destruct s; [congruence | reflexivity].
  - unfold matches_contains. simpl.
    destruct (obj_get "if_other_contains" kv) as [v|] eqn:E; [|reflexivity].
    simpl. destruct (Hc v eq_refl) as (s & -> & Hs). destruct s; [congruence | reflexivity].
Qed.

(** X7.  The feeding rules leave a record without feeding data alone: when
    the record has no food type and no other food text (absent or null, or
    the empty text), no rule whose conditions are a type, a text that is not
    empty or a list of such texts applies, and step 4 returns the items as
    they were. *)
Theorem feeding_rules_need_feeding_data kv m rules its :
  unset "feedBeesFoodType" kv ->
  unset "feedBeesFoodTypeOther" kv \/ obj_get "feedBeesFoodTypeOther" kv = Some (JStr "") ->
  py_get m (JStr "feeding_rules") (JArr []) = Ok (JArr rules) ->
  Forall plain_rule rules ->
  apply_feeding_rules (JObj kv) m its = Ok its.
Proof.
  intros Ht Ho Hm Hr. unfold apply_feeding_rules. rewrite Hm. cbn [py_get rbind py_iter].
  assert (E1 : default JNull (obj_get "feedBeesFoodType" kv) = JNull).
  { destruct Ht as [-> | ->]; reflexivity. }
  assert (E2 : py_or (default JNull (obj_get "feedBeesFoodTypeOther" kv)) (JStr "") = JStr "").
  { destruct Ho as [[-> | ->] | ->]; reflexivity. }
  rewrite E1, E2. clear E1 E2 Hm.
  induction Hr as [|rule rules Hp _ IH]; [reflexivity|].
  simpl. rewrite plain_rule_idle by exact Hp. simpl. exact IH.
Qed.

Lemma feeding_rules_need_feeding_data_witness :
  apply_feeding_rules Demo.unfed Sample.mappings [(JStr "30", JBool true)]
  = Ok [(JStr "30", JBool true)].
Proof.
  apply (feeding_rules_need_feeding_data _ Sample.mappings
           [JObj [("if_type", JStr "sugar"); ("set", JObj [("40", JNum 7); ("50", JNum 1)])];
            JObj [("if_other_contains_any", JArr [JStr "syr"; JStr "x"]);
                  ("set", JObj [("50", JNum 2)])];
            JObj [("if_other_contains", JStr "zz"); ("set", JObj [("50", JNum 3)])]]).
  - left. reflexivity.
  - left. left. reflexivity.
  - reflexivity.
  - repeat constructor.
    + eexists. split; [reflexivity|]. repeat split; intros v [= <-] || (intros v; discriminate).
      eexists. reflexivity.
    + eexists. split; [reflexivity|]. repeat split; try (intros v; discriminate).
      intros v [= <-]. eexists. split; [reflexivity|].
      repeat constructor; eexists; (split; [reflexivity | discriminate]).
    + eexists. split; [reflexivity|]. repeat split; try (intros v; discriminate).
      intros v [= <-]. eexists. split; [reflexivity | discriminate].
Defined.

(** ** The BEEP token *)

(** X8.  [get_beep_token] sends one login request and nothing else, and
    never returns a token that is falsy: a body without [api_token], or with
    a null or empty one, raises "No BEEP token received". *)
Theorem beep_token_is_never_empty w email password st r st' :
  get_beep_token w email password st = (r, st') ->
  let resp := http w (trace st) (BeepLogin email password) in
  table st' = table st /\
  trace st' = trace st ++ [Http (BeepLogin email password) resp] /\
  (forall token, r = Ok token ->
     py_truthy token = true /\
     exists status body,
       resp = Response status (Some body) /\ is_error_status status = false /\
       py_get body (JStr "api_token") JNull = Ok token) /\
  (forall status kv,
     resp = Response status (Some (JObj kv)) -> is_error_status status = false ->
     py_truthy (default JNull (obj_get "api_token" kv)) = false ->
     r = Raise NoTokenReceived).
Proof.
  intros H resp.
  assert (E : get_beep_token w email password st
              = (match resp with
                 | NoResponse => Raise RequestException
                 | Response status body =>
                     if is_error_status status then Raise RequestException
                     else match body with
                          | Some v =>
                              let! token := py_get v (JStr "api_token") JNull in
                              if py_truthy token then Ok token else Raise NoTokenReceived
                          | None => Raise JSONDecodeError
                          end
                 end,
                 {| table := table st;
                    trace := trace st ++ [Http (BeepLogin email password) resp] |})).
  { unfold get_beep_token, request_ok, send, bind. cbn. fold resp.
    destruct resp as [|status body]; [reflexivity|].
    destruct (is_error_status status); [reflexivity|].
    destruct body as [v|]; [|reflexivity]. cbn.
    destruct (py_get v (JStr "api_token") JNull) as [token|]; [|reflexivity].
    cbn. destruct (py_truthy token); reflexivity. }
  rewrite E in H. injection H as <- <-. clear E.
  split; [reflexivity|]. split; [reflexivity|]. split.
  - intros token Hr. destruct resp as [|status body]; [discriminate|].
    destruct (is_error_status status) eqn:Es; [discriminate|].
    destruct body as [v|]; [|discriminate].
    destruct (py_get v (JStr "api_token") JNull) as [t|] eqn:Eg; [|discriminate].
    cbn in Hr. destruct (py_truthy t) eqn:Et; [|discriminate].
    injection Hr as <-. split; [exact Et|]. exists status, v. auto.
  - intros status kv -> -> Hf. cbn. rewrite Hf. reflexivity.
Qed.

Lemma beep_token_is_never_empty_witness :
  let run := get_beep_token Sample.world_with_files "me" "pw" Sample.fresh in
  fst run = Ok (JStr "tok") /\
  trace (snd run)
  = [Http (BeepLogin "me" "pw") (Response 200 (Some (JObj [("api_token", JStr "tok")])))].
Proof.
  intros run. split; [reflexivity|].
  refine (proj1 (proj2 (beep_token_is_never_empty Sample.world_with_files "me" "pw"
                          Sample.fresh (fst run) (snd run) _))).
  reflexivity.
Defined.

(** ** Pages *)

Lemma get_page_cases w url token page size st :
  let req := HtGetPage url ("access_token=" +:+ py_str token) (page * size) in
  let resp := http w (trace st) req in
  get_page w url token page size st
  = (match resp with
     | NoResponse => Raise RequestException
     | Response status body =>
         if is_error_status status then Raise RequestException
         else match body with
              | Some v => page_results v
              | None => Raise JSONDecodeError
              end
     end,
     {| table := table st; trace := trace st ++ [Http req resp] |}).
Proof.
  intros req resp. unfold get_page, request_ok, send, bind. cbn. fold req. fold resp.
  destruct resp as [|status body]; [reflexivity|].
  destruct (is_error_status status); [reflexivity|].
  destruct body; reflexivity.
Qed.

Lemma fetch_pages_requests w token fuel : forall p records st r st',
  fetch_pages w fuel token (Z.of_nat p) records st = (r, st') ->
  table st' = table st /\
  exists n, (n <= fuel)%nat /\
    requests (trace st') = requests (trace st) ++ List.map (page_request token) (seq p n) /\
    (forall out, r = Ok out -> (1 <= n)%nat).
Proof.
  induction fuel as [|fuel IH]; intros p records st r st' H.
  - injection H as <- <-. split; [reflexivity|]. exists 0%nat.
    split; [lia|]. split; [simpl; rewrite app_nil_r; reflexivity | discriminate].
  - cbn [fetch_pages] in H. unfold bind at 1 in H. cbn [log emit] in H.
    unfold bind at 1 in H. rewrite get_page_cases in H. cbn [table trace] in H.
    set (req := HtGetPage records_url ("access_token=" +:+ py_str token) (Z.of_nat p * 10)) in H.
    set (resp := http w ((trace st ++ [Log (Text ("Fetching HiveTracks page "
                                                  +:+ pretty (Z.of_nat p)))])) req) in H.
    assert (One : forall res,
               (res, {| table := table st;
                        trace := (trace st ++ [Log (Text ("Fetching HiveTracks page "
                                                          +:+ pretty (Z.of_nat p)))])
                                 ++ [Http req resp] |}) = (r, st') ->
               (forall out, res <> Ok out) ->
               table st' = table st /\
               exists n, (n <= S fuel)%nat /\
                 requests (trace st') = requests (trace st)
                                        ++ List.map (page_request token) (seq p n) /\
                 (forall out, r = Ok out -> (1 <= n)%nat)).
    { intros res [= <- <-] Hne. split; [reflexivity|]. exists 1%nat. split; [lia|]. split.
      - cbn [trace]. rewrite !requests_app. cbn. rewrite app_nil_r. reflexivity.
      - intros _ _. lia. }
    match type of H with
    | match ?res with Ok _ => _ | Raise _ => _ end = _ => destruct res as [page_data|e] eqn:Er
    end.
    2: { apply (One (Raise e)); [exact H | discriminate]. }
    destruct (py_truthy page_data).
    + unfold bind at 1 in H. unfold lift in H.
      destruct (py_iter page_data) as [more|e].
      * replace (Z.of_nat p + 1)%Z with (Z.of_nat (S p)) in H by lia.
        apply IH in H as (Ht & n & Hn & Hreq & Hok). cbn [table trace] in Ht, Hreq.
        split; [exact Ht|]. exists (S n). split; [lia|]. split.
        -- rewrite Hreq, !requests_app. cbn. rewrite app_nil_r, <- app_assoc. reflexivity.
        -- intros _ _. lia.
      * apply (One (Raise e)); [exact H | discriminate].
    + injection H as <- <-. split; [reflexivity|]. exists 1%nat. split; [lia|]. split.
      * cbn [trace]. rewrite !requests_app. cbn. rewrite app_nil_r. reflexivity.
      * intros _ _. lia.
Qed.

(** X9.  [get_hivetracks_records] requests the pages of the record list one
    after the other from page 0, each with skip ten times its number and the
    cookie of the token, never one twice and never one out of turn; it does
    not touch the ledger, and it returns only after at least one request. *)
Theorem pages_are_fetched_in_sequence w fuel token st r st' :
  get_hivetracks_records w fuel token st = (r, st') ->
  table st' = table st /\
  exists n, (n <= fuel)%nat /\
    requests (trace st') = requests (trace st) ++ List.map (page_request token) (seq 0 n) /\
    (forall out, r = Ok out -> (1 <= n)%nat).
Proof.
  unfold get_hivetracks_records, bind. intros H.
  destruct (fetch_pages w fuel token 0 [] st) as [[records|e] s] eqn:E.
  - apply (fetch_pages_requests w token fuel 0) in E as (Ht & n & Hn & Hreq & Hok).
    injection H as <- <-. split; [exact Ht|]. exists n. split; [exact Hn|].
    split; [exact Hreq|]. intros _ _. exact (Hok records eq_refl).
  - apply (fetch_pages_requests w token fuel 0) in E as (Ht & n & Hn & Hreq & Hok).
    injection H as <- <-. split; [exact Ht|]. exists n. split; [exact Hn|].
    split; [exact Hreq | discriminate].
Qed.

Lemma pages_are_fetched_in_sequence_witness :
  let run := get_hivetracks_records Sample.world_with_files 5 (JStr "ht") Sample.fresh in
  fst run = Ok Sample.dataset /\
  exists n, requests (trace (snd run)) = List.map (page_request (JStr "ht")) (seq 0 n).
Proof.
  intros run. split; [reflexivity|].
  destruct (pages_are_fetched_in_sequence Sample.world_with_files 5 (JStr "ht") Sample.fresh
              (fst run) (snd run) eq_refl) as (_ & n & _ & Hreq & _).
  exists n. exact Hreq.
Defined.

Lemma fetch_pages_collects w token : forall pages fuel p records st,
  (forall tr i, exists status body,
      http w tr (page_request token (p + i)) = Response status (Some body) /\
      is_error_status status = false /\
      page_results body = Ok (JArr (nth i pages []))) ->
  Forall (fun pg => pg <> []) pages ->
  (List.length pages < fuel)%nat ->
  exists st',
    fetch_pages w fuel token (Z.of_nat p) records st = (Ok (records ++ concat pages), st') /\
    table st' = table st /\
    requests (trace st')
    = requests (trace st) ++ List.map (page_request token) (seq p (S (List.length pages))).
Proof.
  induction pages as [|pg pages IH]; intros fuel p records st Hw Hne Hf;
    (destruct fuel as [|fuel]; [simpl in Hf; lia|]);
    cbn [fetch_pages]; unfold bind at 1; cbn [log emit];
    unfold bind at 1; rewrite get_page_cases; cbn [table trace];
    match goal with
    | |- context [http w ?tr ?req] =>
        destruct (Hw tr 0%nat) as (status & body & Hresp & Hs & Hres);
        rewrite Nat.add_0_r in Hresp; unfold page_request in Hresp; rewrite Hresp, Hs, Hres
    end.
  - cbn [nth py_truthy ret]. eexists. split; [|split].
    + simpl. rewrite app_nil_r. reflexivity.
    + reflexivity.
    + cbn [trace]. rewrite !requests_app. cbn. rewrite app_nil_r. reflexivity.
  - inversion Hne as [|? ? Hpg Hne']; subst.
    cbn [nth]. destruct pg as [|x pg]; [congruence|]. cbn [py_truthy].
    unfold bind at 1. cbn [lift py_iter].
    replace (Z.of_nat p + 1)%Z with (Z.of_nat (S p)) by lia.
    match goal with
    | |- context [fetch_pages w fuel token _ ?recs ?s] =>
        destruct (IH fuel (S p) recs s) as (st' & Hrun & Ht & Hreq)
    end.
    + intros tr i. destruct (Hw tr (S i)) as (status' & body' & H1 & H2 & H3).
      exists status', body'. replace (S p + i)%nat with (p + S i)%nat by lia. auto.
    + exact Hne'.
    + simpl in Hf. lia.
    + exists st'. split; [|split].
      * rewrite Hrun. cbn [concat]. rewrite <- app_assoc. reflexivity.
      * exact Ht.
      * rewrite Hreq. cbn [trace table]. rewrite !requests_app. cbn.
        rewrite app_nil_r, <- app_assoc. reflexivity.
Qed.

(** X10.  When the service holds the pages [pages], none of them empty, and
    answers with an empty page past the last, [get_hivetracks_records]
    returns the records of all pages in order, after one request per page
    and one more that finds the empty page. *)
Theorem all_pages_are_collected w token pages fuel st :
  serves_pages w token pages ->
  Forall (fun pg => pg <> []) pages ->
  (List.length pages < fuel)%nat ->
  exists st',
    get_hivetracks_records w fuel token st = (Ok (JArr (concat pages)), st') /\
    table st' = table st /\
    requests (trace st')
    = requests (trace st) ++ List.map (page_request token) (seq 0 (S (List.length pages))).
Proof.
  intros Hw Hne Hf.
  destruct (fetch_pages_collects w token pages fuel 0 [] st) as (st' & Hrun & Ht & Hreq);
    [exact Hw | exact Hne | exact Hf |].
  exists st'. unfold get_hivetracks_records, bind. change (Z.of_nat 0) with 0%Z in Hrun.
  rewrite Hrun. auto.
Qed.

Lemma all_pages_are_collected_witness :
  exists st',
    get_hivetracks_records Sample.world_with_files 2 (JStr "ht") Sample.fresh
    = (Ok Sample.dataset, st') /\
    requests (trace st') = [page_request (JStr "ht") 0; page_request (JStr "ht") 1].
Proof.
  destruct (all_pages_are_collected Sample.world_with_files (JStr "ht")
              [[Sample.record 1; Sample.record 2; Sample.record 3]] 2 Sample.fresh)
    as (st' & Hrun & _ & Hreq).
  - intros tr i. exists 200%nat. destruct i as [|i].
    + eexists. split; [reflexivity|]. split; reflexivity.
    + eexists. split; [|split; [reflexivity|]].
      * cbn. replace (Z.pos (Pos.of_succ_nat i) * 10 =? 0)%Z with false; [reflexivity|].
        symmetry. apply Z.eqb_neq. lia.
      * destruct i; reflexivity.
  - repeat constructor. discriminate.
  - simpl. lia.
  - exists st'. split; [exact Hrun | exact Hreq].
Defined.

(** ** What an action appends *)

Section Effects.
Context (P : event -> Prop) (R : LedgerRow.t -> Prop).

Lemma effects_pure {A} (m : io A) :
  (forall st, snd (m st) = st) -> effects P R m.
Proof.
  intros Hm st r st' H. assert (E : st' = st) by (rewrite <- (Hm st), H; reflexivity).
  subst st'. split; [auto|]. exists [], []. rewrite !app_nil_r. auto.
Qed.

Lemma effects_ret {A} (a : A) : effects P R (ret a).
Proof. apply effects_pure. reflexivity. Qed.

Lemma effects_raise {A} e : effects P R (@raise A e).
Proof. apply effects_pure. reflexivity. Qed.

Lemma effects_lift {A} (m : result A) : effects P R (lift m).
Proof. apply effects_pure. reflexivity. Qed.

Lemma effects_bind {A B} (m : io A) (f : A -> io B) :
  effects P R m -> (forall a, effects P R (f a)) -> effects P R (bind m f).
Proof.
  intros Hm Hf st r st' H. unfold bind in H.
  destruct (m st) as [[a|e] st1] eqn:E.
  - destruct (Hm _ _ _ E) as (N1 & rows1 & evs1 & T1 & R1 & E1 & P1).
    destruct (Hf a _ _ _ H) as (N2 & rows2 & evs2 & T2 & R2 & E2 & P2).
    split; [auto|]. exists (rows1 ++ rows2), (evs1 ++ evs2).
    rewrite T2, T1, E2, E1, !app_assoc.
    repeat split; try reflexivity; apply Forall_app; auto.
  - injection H as <- <-. exact (Hm _ _ _ E).
Qed.

Lemma effects_bind_lift {A B} (m : result A) (f : A -> io B) :
  (forall a, m = Ok a -> effects P R (f a)) -> effects P R (bind (lift m) f).
Proof.
  intros Hf st r st' H. unfold bind, lift in H. destruct m as [a|e].
  - exact (Hf a eq_refl _ _ _ H).
  - injection H as <- <-. exact (@effects_raise B e st (Raise e) st eq_refl).
Qed.

Lemma effects_catch {A} (m : io A) (h : pyerr -> io A) :
  effects P R m -> (forall e, effects P R (h e)) -> effects P R (catch m h).
Proof.
  intros Hm Hh st r st' H. unfold catch in H.
  destruct (m st) as [[a|e] st1] eqn:E.
  - injection H as <- <-. exact (Hm _ _ _ E).
  - assert (G : (Raise e, st1) = (r, st') \/ h e st1 = (r, st')).
    { destruct e; auto. }
    destruct G as [[= <- <-]|G]; [exact (Hm _ _ _ E)|].
    destruct (Hm _ _ _ E) as (N1 & rows1 & evs1 & T1 & R1 & E1 & P1).
    destruct (Hh e _ _ _ G) as (N2 & rows2 & evs2 & T2 & R2 & E2 & P2).
    split; [auto|]. exists (rows1 ++ rows2), (evs1 ++ evs2).
    rewrite T2, T1, E2, E1, !app_assoc.
    repeat split; try reflexivity; apply Forall_app; auto.
Qed.

Lemma effects_emit e : P e -> effects P R (emit e).
Proof.
  intros He st r st' [= <- <-]. split; [auto|]. exists [], [e]. cbn.
  rewrite app_nil_r. repeat split; auto.
Qed.

Variable w : world.

Lemma effects_send req : (forall resp, P (Http req resp)) -> effects P R (send w req).
Proof.
  intros He st r st' [= <- <-]. split; [auto|]. exists [], [Http req (http w (trace st) req)].
  cbn. rewrite app_nil_r. repeat split; auto.
Qed.

Lemma effects_request_ok req :
  (forall resp, P (Http req resp)) -> effects P R (request_ok w req).
Proof.
  intros He. unfold request_ok. apply effects_bind; [apply effects_send; exact He|].
  intros [|status body]; [apply effects_raise|].
  destruct (is_error_status status); [apply effects_raise | apply effects_ret].
Qed.

Lemma effects_body_json body : effects P R (body_json body).
Proof. destruct body; [apply effects_ret | apply effects_raise]. Qed.

Lemma effects_get_imported_ids : effects P R get_imported_ids.
Proof. apply effects_pure. reflexivity. Qed.

Lemma effects_one_request {A} req (f : json -> result A) :
  (forall resp, P (Http req resp)) ->
  effects P R (bind (request_ok w req) (fun body => bind (body_json body) (fun v => lift (f v)))).
Proof.
  intros He. apply effects_bind; [apply effects_request_ok; exact He|]. intros body.
  apply effects_bind; [apply effects_body_json|]. intros v. apply effects_lift.
Qed.

Lemma effects_get_beep_token email password :
  (forall resp, P (Http (BeepLogin email password) resp)) ->
  effects P R (get_beep_token w email password).
Proof.
  intros He. unfold get_beep_token.
  apply effects_bind; [apply effects_request_ok; exact He|]. intros body.
  apply effects_bind; [apply effects_body_json|]. intros v.
  apply effects_bind; [apply effects_lift|]. intros token.
  destruct (py_truthy token); [apply effects_ret | apply effects_raise].
Qed.

Lemma effects_get_beep_data url token :
  (forall auth resp, P (Http (BeepGet url auth) resp)) ->
  effects P R (get_beep_data w url token).
Proof.
  intros He. unfold get_beep_data.
  apply effects_bind; [apply effects_request_ok; apply He | apply effects_body_json].
Qed.

Lemma effects_mark_imported record_id action_date checklist_id :
  (forall r, R r) -> effects P R (mark_imported w record_id action_date checklist_id).
Proof.
  intros HR st r st' [= <- <-]. cbn [table trace]. split.
  - apply insert_or_ignore_NoDup.
  - unfold insert_or_ignore.
    destruct (existsb _ (table st)).
    + exists [], []. rewrite !app_nil_r. auto.
    + eexists [_], []. rewrite app_nil_r. repeat split; auto.
Qed.

Hypothesis text_ok : forall s, P (Log (Text s)).

Lemma effects_load_json_file path : effects P R (load_json_file w path).
Proof.
  unfold load_json_file. destruct (read_json w path) as [content|].
  - apply effects_bind; [apply effects_emit, text_ok|]. intros _.
    destruct content; [apply effects_ret | apply effects_raise].
  - apply effects_bind; [apply effects_emit, text_ok | intros _; apply effects_raise].
Qed.

Lemma effects_load_mappings path : effects P R (load_mappings w path).
Proof.
  unfold load_mappings. apply effects_bind; [apply effects_load_json_file|].
  intros m. destruct m; first [apply effects_raise | apply effects_ret].
Qed.

Lemma effects_fetch_pages token fuel :
  (forall cookie (page : nat) resp,
      P (Http (HtGetPage records_url cookie (Z.of_nat page * 10)) resp)) ->
  forall (p : nat) records, effects P R (fetch_pages w fuel token (Z.of_nat p) records).
Proof.
  intros He. induction fuel as [|fuel IH]; intros p records; cbn [fetch_pages].
  - apply effects_raise.
  - apply effects_bind; [apply effects_emit, text_ok|]. intros _.
    apply effects_bind.
    + unfold get_page. apply effects_one_request. apply He.
    + intros page_data. destruct (py_truthy page_data); [|apply effects_ret].
      apply effects_bind; [apply effects_lift|]. intros more.
      replace (Z.of_nat p + 1)%Z with (Z.of_nat (S p)) by lia. apply IH.
Qed.

Lemma effects_upload_records tok ts :
  (forall r, R r) ->
  (forall auth p resp, P (Http (BeepStore auth p) resp)) ->
  (forall d, P (Log (Uploaded d))) ->
  (forall d e, P (Log (FailedUpload d e))) ->
  P (Sleep (3 # 4)) ->
  effects P R (upload_records w ts tok).
Proof.
  intros HR Hs Hu Hf Hz. induction ts as [|[[p sid] cid] ts IH]; cbn [upload_records].
  - apply effects_ret.
  - apply effects_bind; [|intros _; exact IH].
    unfold upload_one. apply effects_bind; [|intros _; apply effects_emit, Hz].
    apply effects_catch.
    + unfold store_and_mark.
      apply effects_bind; [apply effects_request_ok; apply Hs|]. intros _.
      apply effects_bind; [apply effects_emit, Hu|]. intros _.
      apply effects_mark_imported, HR.
    + intros e. apply effects_emit, Hf.
Qed.
End Effects.

Lemma chars_length s : List.length (chars s) = String.length s.
Proof. induction s as [|c s IH]; simpl; congruence. Qed.

Lemma keep_new_length ids rs out :
  keep_new ids rs = Ok out -> (List.length out <= List.length rs)%nat.
Proof.
  rewrite keep_new_filter. destruct (forallb is_object rs); [|discriminate].
  intros [= <-]. apply List.filter_length_le.
Qed.

Lemma records_to_import_length ids ds out n :
  records_to_import ids ds = Ok out -> py_len ds = Ok n -> (List.length out <= n)%nat.
Proof.
  unfold records_to_import. intros H Hn. inv_bind H. apply keep_new_length in H.
  destruct ds; simpl in Ha, Hn; try discriminate;
    injection Ha as <-; injection Hn as <-.
  - rewrite length_map, chars_length in H. exact H.
  - exact H.
  - rewrite length_map in H. exact H.
Qed.

Lemma transform_records_length rs hv cl m out :
  transform_records rs hv cl m = Ok out -> List.length out = List.length rs.
Proof.
  intros H. apply transform_records_each in H as (hm & cm & fb & _ & _ & _ & H).
  symmetry. exact (Forall2_length_eq _ _ _ H).
Qed.

Lemma require_credentials_env w st c st' :
  require_credentials w st = (Ok c, st') -> st' = st /\ env_credentials w c.
Proof.
  unfold require_credentials, bind, require_env, env_credentials.
  destruct (getenv w "HIVETRACKS_EMAIL") as [he|]; [|discriminate]. cbn.
  destruct (getenv w "HIVETRACKS_PASSWORD") as [hp|]; [|discriminate]. cbn.
  destruct (getenv w "BEEP_EMAIL") as [be|]; [|discriminate]. cbn.
  destruct (getenv w "BEEP_PASSWORD") as [bp|]; [|discriminate]. cbn.
  intros [= <- <-]. cbn. auto.
Qed.

Lemma acquire_effects w a c fuel :
  effects (run_event a c) (fun _ => uploading a) (acquire w a c fuel).
Proof.
  unfold acquire. destruct (import_from_file a) eqn:Ef.
  - apply effects_bind; [apply effects_emit; exact I|]. intros _.
    repeat (apply effects_bind; [apply effects_load_json_file; intros; exact I | intros ?]).
    apply effects_ret.
  - apply effects_bind; [apply effects_emit; exact I|]. intros _.
    apply effects_bind.
    { unfold get_hivetracks_token. apply effects_one_request.
      intros resp. cbn. auto. }
    intros ht_token. apply effects_bind.
    { unfold get_hivetracks_records.
      apply effects_bind; [|intros ?; apply effects_ret].
      apply (effects_fetch_pages _ _ w (fun _ => I) ht_token fuel) with (p := 0%nat).
      intros cookie page resp. cbn. split; [exact Ef|]. split; [reflexivity|]. eauto. }
    intros records. apply effects_bind.
    { apply effects_get_beep_token. intros resp. cbn. auto. }
    intros beep_token.
    apply effects_bind.
    { apply effects_get_beep_data. intros auth resp. cbn. auto. }
    intros cl. apply effects_bind.
    { apply effects_get_beep_data. intros auth resp. cbn. auto. }
    intros hv. apply effects_ret.
Qed.

Lemma pipeline_effects w a c ds cl hv :
  effects (run_event a c) (fun _ => uploading a) (pipeline w a c ds cl hv).
Proof.
  unfold pipeline.
  apply effects_bind; [apply effects_get_imported_ids|]. intros ids.
  apply effects_bind_lift. intros to_import Hto.
  apply effects_bind; [apply effects_load_mappings; intros; exact I|]. intros m.
  apply effects_bind_lift. intros ts Hts.
  destruct (dry_run a) eqn:Ed.
  - apply effects_bind; [apply effects_emit; cbn; auto|]. intros _.
    apply effects_bind; [apply effects_emit; cbn; auto|]. intros _.
    apply effects_emit. cbn. auto.
  - apply effects_bind.
    + destruct (upload a) eqn:Eu; [|apply effects_ret].
      apply effects_bind; [apply effects_emit; exact I|]. intros _.
      apply effects_bind.
      { apply effects_get_beep_token. intros resp. cbn. unfold uploading. auto. }
      intros beep_token.
      apply effects_upload_records; intros; cbn; unfold uploading; auto.
    + intros _. apply effects_bind_lift. intros n Hn.
      apply effects_bind; [apply effects_emit; cbn; auto|]. intros _.
      assert (Hs : run_message a (Summary n (List.length to_import) (List.length ts))).
      { cbn. split; [exact Ed|]. split.
        - exact (transform_records_length _ _ _ _ _ Hts).
        - exact (records_to_import_length _ _ _ _ Hto Hn). }
      apply effects_bind; [apply effects_emit; exact Hs|]. intros _.
      apply effects_emit. exact Hs.
Qed.

(** What [main] does, as a whole: it crashes at once on a missing
    credential; otherwise it appends rows and events of a run, and two
    more events, the error in the log and on stdout, when it exits with
    status 1. *)
Lemma main_effects w a fuel st o st' :
  main w a fuel st = (o, st') ->
  (o = Crashed RuntimeError /\ st' = st /\
   exists name, In name credential_names /\ getenv w name = None) \/
  exists c rows evs tail,
    env_credentials w c /\
    (NoDup (known_ids (table st)) -> NoDup (known_ids (table st'))) /\
    table st' = table st ++ rows /\ Forall (fun _ => uploading a) rows /\
    trace st' = trace st ++ evs ++ tail /\ Forall (run_event a c) evs /\
    match o with
    | Completed | Unfinished => tail = []
    | Exited code => code = 1%nat /\ exists e, tail = [Log (Error e); Print (Error e)]
    | Crashed _ => False
    end.
Proof.
  unfold main. intros H.
  destruct (require_credentials_cases w st) as [(c & Hc & _)|(Hc & Hname)].
  2: { rewrite Hc in H. injection H as <- <-. left. auto. }
  rewrite Hc in H. right.
  destruct (require_credentials_env _ _ _ _ Hc) as [_ Henv].
  match type of H with
  | match ?body st with _ => _ end = _ =>
      assert (Hb : effects (run_event a c) (fun _ => uploading a) body)
  end.
  { apply effects_bind; [apply effects_ret|]. intros _.
    apply effects_bind; [apply acquire_effects|]. intros [[x y] z].
    apply pipeline_effects. }
  match type of H with
  | match ?body st with _ => _ end = _ => destruct (body st) as [[u|e] st2] eqn:E
  end;
    destruct (Hb _ _ _ E) as (N & rows & evs & T & HR & Etr & HP).
  - injection H as <- <-. exists c, rows, evs, []. rewrite app_nil_r.
    repeat (split; [assumption|]). reflexivity.
  - assert (G : (o = Unfinished /\ st' = st2) \/
                (o = Exited 1 /\
                 st' = {| table := table st2;
                          trace := (trace st2 ++ [Log (Error e)]) ++ [Print (Error e)] |})).
    { destruct e; injection H as <- <-; auto. }
    destruct G as [[-> ->]|[-> ->]].
    + exists c, rows, evs, []. rewrite app_nil_r.
      repeat (split; [assumption|]). reflexivity.
    + exists c, rows, evs, [Log (Error e); Print (Error e)]. cbn [table trace].
      repeat (split; [assumption|]). split.
      * rewrite Etr, <- !app_assoc. reflexivity.
      * split; [exact HP|]. split; [reflexivity | eauto].
Qed.

(** ** Runs *)

Lemma flat_map_unseen {X} (obs : event -> list X) (Q : event -> Prop) evs :
  Forall Q evs -> (forall e, Q e -> obs e = []) -> flat_map obs evs = [].
Proof.
  intros H Hq. induction H as [|e evs He _ IH]; [reflexivity|].
  simpl. rewrite (Hq e He), IH. reflexivity.
Qed.

Lemma requests_of_run w a c evs :
  env_credentials w c -> Forall (run_event a c) evs -> Forall (known_request w a) (requests evs).
Proof.
  intros (E1 & E2 & E3 & E4) H. induction H as [|e evs He _ IH]; [constructor|].
  unfold requests in *. cbn [flat_map]. apply Forall_app. split; [|exact IH].
  destruct e as [req resp| | | |]; cbn; try constructor; [|constructor].
  destruct req; cbn in He |- *.
  - destruct He as (_ & -> & ->). auto.
  - destruct He as (_ & -> & Hp). auto.
  - destruct He as (_ & -> & ->). auto.
  - destruct He as (_ & Hu). exact Hu.
  - exact He.
Qed.

(** X11.  Whatever the arguments and the answers of the services, [main]
    sends only these requests: the HiveTracks sign-in and the BEEP login,
    each with the credentials the environment holds for that service; pages
    of the record list, with a skip that is a multiple of ten; the two BEEP
    reference lists; and, only when asked to upload, payloads to the store
    endpoint.  The hive id list that [get_hivetracks_hives] asks for is
    never requested. *)
Theorem run_requests_are_known w a fuel st o st' :
  main w a fuel st = (o, st') ->
  exists sent,
    requests (trace st') = requests (trace st) ++ sent /\
    Forall (known_request w a) sent /\
    (forall cookie skip, ~ In (HtGetPage hives_url cookie skip) sent) /\
    (forall token st0,
        requests (trace (snd (get_hivetracks_hives w token st0)))
        = requests (trace st0) ++ [HtGetPage hives_url ("access_token=" +:+ py_str token) 0]).
Proof.
  intros H.
  assert (Hh : forall token st0,
             requests (trace (snd (get_hivetracks_hives w token st0)))
             = requests (trace st0)
               ++ [HtGetPage hives_url ("access_token=" +:+ py_str token) 0]).
  { intros token st0. unfold get_hivetracks_hives. rewrite get_page_cases. cbn [snd trace].
    rewrite requests_app. reflexivity. }
  assert (Hk : forall sent, Forall (known_request w a) sent ->
                            forall cookie skip, ~ In (HtGetPage hives_url cookie skip) sent).
  { intros sent Hs cookie skip Hin. rewrite List.Forall_forall in Hs.
    destruct (Hs _ Hin) as [E _]. discriminate E. }
  apply main_effects in H as [(_ & -> & _)|(c & rows & evs & tail & Henv & _ & _ & _ & Etr & HP & Ho)].
  - exists []. rewrite app_nil_r. split; [reflexivity|]. split; [constructor|].
    split; [apply Hk; constructor | exact Hh].
  - exists (requests evs).
    assert (Ht : requests tail = []).
    { destruct o; try (subst tail; reflexivity); [|destruct Ho].
      destruct Ho as (_ & e & ->). reflexivity. }
    pose proof (requests_of_run w a c evs Henv HP) as Hreq.
    split; [|split; [exact Hreq | split; [apply Hk; exact Hreq | exact Hh]]].
    rewrite Etr, !requests_app, Ht, app_nil_r. reflexivity.
Qed.

Lemma run_requests_are_known_witness :
  exists sent,
    requests (trace (snd Runs.from_apis)) = sent /\
    Forall (known_request Sample.world_with_files Sample.api_args) sent /\
    List.length sent = 10%nat.
Proof.
  destruct (run_requests_are_known Sample.world_with_files Sample.api_args 5 Sample.fresh
              (fst Runs.from_apis) (snd Runs.from_apis)) as (sent & Hreq & Hk & _).
  - apply surjective_pairing.
  - assert (E : requests (trace (snd Runs.from_apis)) = sent) by exact Hreq.
    exists sent. split; [exact E|]. split; [exact Hk|].
    rewrite <- E. vm_compute. reflexivity.
Defined.

Lemma not_uploading_rows a (rows : list LedgerRow.t) :
  ~ uploading a -> Forall (fun _ => uploading a) rows -> rows = [].
Proof. intros Hn H. destruct H as [|r rows Hr _]; [reflexivity | contradiction]. Qed.

(** X12.  Only a run with [--upload] and without [--dry-run] writes: any
    other run, however it ends, leaves the ledger as it was, submits no
    payload and never sleeps.  [--dry-run] wins over [--upload]. *)
Theorem only_an_upload_run_writes w a fuel st o st' :
  main w a fuel st = (o, st') ->
  ~ uploading a ->
  table st' = table st /\
  stores (trace st') = stores (trace st) /\
  sleeps (trace st') = sleeps (trace st).
Proof.
  intros H Hn.
  apply main_effects in H
    as [(_ & -> & _)|(c & rows & evs & tail & _ & _ & T & HR & Etr & HP & Ho)]; [auto|].
  rewrite (not_uploading_rows a rows Hn HR), app_nil_r in T.
  assert (Ht : stores tail = [] /\ sleeps tail = []).
  { destruct o; try (subst tail; split; reflexivity); [|destruct Ho].
    destruct Ho as (_ & e & ->). split; reflexivity. }
  destruct Ht as [Ht1 Ht2].
  split; [exact T|]. unfold stores, sleeps in *. rewrite Etr, !flat_map_app, Ht1, Ht2.
  rewrite (flat_map_unseen store_of (run_event a c) evs HP),
          (flat_map_unseen sleep_of (run_event a c) evs HP), !app_nil_r; [auto| |].
  - intros [[]| | | |] He; try reflexivity. cbn in He. destruct He as [He _]. contradiction.
  - intros [[]| | | |] He; try reflexivity. contradiction.
Qed.

Lemma only_an_upload_run_writes_witness :
  fst Runs.dry = Completed /\
  table (snd Runs.dry) = [] /\ stores (trace (snd Runs.dry)) = [] /\
  sleeps (trace (snd Runs.dry)) = [].
Proof.
  split; [vm_compute; reflexivity|].
  apply (only_an_upload_run_writes Sample.world_with_files Runs.dry_args 5 Sample.fresh
           (fst Runs.dry) (snd Runs.dry)).
  - apply surjective_pairing.
  - intros [_ H]. discriminate H.
Defined.

(** X13.  A run with [--import-from-file] that is not asked to upload works
    offline: it sends no request at all. *)
Theorem file_run_stays_offline w a fuel st o st' :
  main w a fuel st = (o, st') ->
  import_from_file a = true ->
  ~ uploading a ->
  requests (trace st') = requests (trace st).
Proof.
  intros H Hf Hn.
  apply main_effects in H
    as [(_ & -> & _)|(c & rows & evs & tail & _ & _ & _ & _ & Etr & HP & Ho)]; [auto|].
  assert (Ht : requests tail = []).
  { destruct o; try (subst tail; reflexivity); [|destruct Ho].
    destruct Ho as (_ & e & ->). reflexivity. }
  unfold requests in *. rewrite Etr, !flat_map_app, Ht.
  rewrite (flat_map_unseen request_of (run_event a c) evs HP), !app_nil_r; [reflexivity|].
  intros [req resp| | | |] He; try reflexivity. exfalso.
  destruct req; cbn in He.
  - destruct He as [He _]. congruence.
  - destruct He as [He _]. congruence.
  - destruct He as [[He|He] _]; [congruence | contradiction].
  - destruct He as [He _]. congruence.
  - contradiction.
Qed.

Lemma file_run_stays_offline_witness :
  fst Runs.plain = Completed /\ requests (trace (snd Runs.plain)) = [].
Proof.
  split; [vm_compute; reflexivity|].
  apply (file_run_stays_offline Sample.world_with_files Runs.plain_args 5 Sample.fresh
           (fst Runs.plain) (snd Runs.plain)).
  - apply surjective_pairing.
  - reflexivity.
  - intros [H _]. discriminate H.
Defined.

(** X14.  The ledger is append-only: whatever a run does and however it
    ends, the rows that were in the ledger are still there, unchanged and in
    place, new rows come after them, and no id gets a second row. *)
Theorem ledger_is_append_only w a fuel st o st' :
  main w a fuel st = (o, st') ->
  (exists rows, table st' = table st ++ rows) /\
  (forall record_id r0,
      lookup_row record_id (table st) = Some r0 ->
      lookup_row record_id (table st') = Some r0) /\
  (NoDup (known_ids (table st)) -> NoDup (known_ids (table st'))).
Proof.
  intros H.
  apply main_effects in H
    as [(_ & -> & _)|(c & rows & evs & tail & _ & N & T & _)].
  - split; [exists []; rewrite app_nil_r; reflexivity | auto].
  - split; [exists rows; exact T|]. split; [|exact N].
    intros record_id r0 Hl. rewrite T. apply lookup_row_app_l. exact Hl.
Qed.

Lemma ledger_is_append_only_witness :
  known_ids (table (snd Runs.uploaded)) = ["1"; "3"] /\
  NoDup (known_ids (table (snd Runs.uploaded))).
Proof.
  split; [vm_compute; reflexivity|].
  apply (ledger_is_append_only Sample.world_with_files Sample.upload_args 5 Sample.fresh
           (fst Runs.uploaded) (snd Runs.uploaded)).
  - apply surjective_pairing.
  - constructor.
Defined.



(** X16.  The summary a run prints and logs never disagrees with itself:
    the number of records transformed equals the number eligible for
    import, and the number eligible is at most the number processed.  A dry
    run prints no summary. *)
Theorem summary_counts_agree w a fuel st o st' :
  main w a fuel st = (o, st') ->
  exists evs,
    trace st' = trace st ++ evs /\
    forall processed eligible ntransformed,
      In (Print (Summary processed eligible ntransformed)) evs \/
      In (Log (Summary processed eligible ntransformed)) evs ->
      dry_run a = false /\ ntransformed = eligible /\ (eligible <= processed)%nat.
Proof.
  intros H.
  apply main_effects in H
    as [(_ & -> & _)|(c & rows & evs & tail & _ & _ & _ & _ & Etr & HP & Ho)].
  - exists []. rewrite app_nil_r. split; [reflexivity|]. intros n e t [[]|[]].
  - exists (evs ++ tail). split; [exact Etr|].
    intros n e t Hin.
    assert (Hev : In (Print (Summary n e t)) evs \/ In (Log (Summary n e t)) evs).
    { destruct Hin as [Hin|Hin]; apply in_app_or in Hin as [Hin|Hin]; auto; exfalso;
        (destruct o; try (subst tail; destruct Hin); [|destruct Ho];
         destruct Ho as (_ & x & ->); destruct Hin as [Hin|[Hin|[]]]; discriminate Hin). }
    rewrite List.Forall_forall in HP.
    destruct Hev as [Hin'|Hin']; exact (HP _ Hin').
Qed.

Lemma summary_counts_agree_witness :
  In (Print (Summary 3 3 3)) (trace (snd Runs.uploaded)) /\
  exists evs,
    trace (snd Runs.uploaded) = evs /\
    forall processed eligible ntransformed,
      In (Print (Summary processed eligible ntransformed)) evs ->
      ntransformed = eligible /\ (eligible <= processed)%nat.
Proof.
  split; [vm_compute; tauto|].
  destruct (summary_counts_agree Sample.world_with_files Sample.upload_args 5 Sample.fresh
              (fst Runs.uploaded) (snd Runs.uploaded) (surjective_pairing _))
    as (evs & Etr & Hs).
  exists evs. split; [exact Etr|].
  intros n e t Hin. destruct (Hs n e t (or_introl Hin)) as (_ & H1 & H2). auto.
Defined.

(** ** The preview of a dry run *)

Lemma pipeline_cases w a c ds cl hv st :
  pipeline w a c ds cl hv st
  = match records_to_import (list_to_set (known_ids (table st))) ds with
    | Raise e => (Raise e, st)
    | Ok to_import =>
        match load_mappings w (mappings_file a) st with
        | (Raise e, st1) => (Raise e, st1)
        | (Ok m, st1) =>
            match transform_records to_import hv cl m with
            | Raise e => (Raise e, st1)
            | Ok ts =>
                if dry_run a then
                  (Ok tt,
                   {| table := table st1;
                      trace := trace st1 ++ [WriteJson "beep-import-preview.json"
                                               (List.map (fun t => fst (fst t)) ts);
                                             Log (DryRunComplete "beep-import-preview.json");
                                             Print (DryRunComplete "beep-import-preview.json")] |})
                else
                  (do! _ := (if upload a then
                               do! _ := log (Text "Uploading records to BEEP API") in
                               do! beep_token := get_beep_token w (BEEP_EMAIL c) (BEEP_PASSWORD c) in
                               upload_records w ts beep_token
                             else ret tt) in
                   do! n := lift (py_len ds) in
                   do! _ := print TransformationComplete in
                   do! _ := print (Summary n (List.length to_import) (List.length ts)) in
                   log (Summary n (List.length to_import) (List.length ts))) st1
            end
        end
    end.
Proof.
  unfold pipeline. unfold bind at 1. cbn [get_imported_ids].
  change (List.map LedgerRow.record_id (table st)) with (known_ids (table st)).
  unfold bind at 1. unfold lift at 1.
  destruct (records_to_import (list_to_set (known_ids (table st))) ds) as [to_import|e];
    [|reflexivity].
  unfold bind at 1. destruct (load_mappings w (mappings_file a) st) as [[m|e] st1];
    [|reflexivity].
  unfold bind at 1. unfold lift at 1.
  destruct (transform_records to_import hv cl m) as [ts|e]; [|reflexivity].
  destruct (dry_run a); [|reflexivity].
  unfold bind, log, print, emit. cbn. rewrite <- !app_assoc. reflexivity.
Qed.

(** X17.  A dry run of the pipeline that completes adds four events and
    nothing else: the ruleset was loaded, the preview file is written, and
    "dry run complete" is logged and printed.  The preview holds the
    payloads of the eligible records, in order, and these are exactly the
    payloads that an upload run from the same state submits, unless that run
    fails to log in, in which case it submits nothing. *)
Theorem preview_is_what_an_upload_submits w a_dry a_up c ds cl hv st st_d r_u st_u :
  dry_run a_dry = true ->
  uploading a_up ->
  mappings_file a_up = mappings_file a_dry ->
  pipeline w a_dry c ds cl hv st = (Ok tt, st_d) ->
  pipeline w a_up c ds cl hv st = (r_u, st_u) ->
  exists eligible m ts,
    records_to_import (list_to_set (known_ids (table st))) ds = Ok eligible /\
    transform_records eligible hv cl m = Ok ts /\
    table st_d = table st /\
    trace st_d = trace st ++ [Log (Text ("Loaded file: " +:+ mappings_file a_dry));
                              WriteJson preview_file (List.map (fun t => fst (fst t)) ts);
                              Log (DryRunComplete preview_file);
                              Print (DryRunComplete preview_file)] /\
    (stores (trace st_u) = stores (trace st) ++ List.map (fun t => fst (fst t)) ts \/
     (stores (trace st_u) = stores (trace st) /\ exists e, r_u = Raise e)).
Proof.
  intros Ed [Eu Edu] Em Hd Hu.
  rewrite pipeline_cases in Hd, Hu. rewrite Ed in Hd. rewrite Edu, Eu, Em in Hu.
  destruct (records_to_import (list_to_set (known_ids (table st))) ds) as [eligible|];
    [|discriminate].
  rewrite load_mappings_cases in Hd, Hu.
  destruct (read_json w (mappings_file a_dry)) as [[v|]|]; try discriminate.
  destruct v as [| | | | |kv]; try discriminate.
  match type of Hd with
  | match transform_records _ _ _ ?m with _ => _ end = _ =>
      destruct (transform_records eligible hv cl m) as [ts|] eqn:Et; [|discriminate];
      exists eligible, m, ts
  end.
  injection Hd as <-. cbn [table trace].
  split; [reflexivity|]. split; [exact Et|]. split; [reflexivity|]. split.
  { rewrite <- app_assoc. reflexivity. }
  clear Et.
  set (st1 := {| table := table st;
                 trace := trace st ++ [Log (Text ("Loaded file: " +:+ mappings_file a_dry))] |})
    in Hu.
  assert (S1 : stores (trace st1) = stores (trace st)).
  { unfold st1, stores. cbn [trace]. rewrite flat_map_app. cbn. apply app_nil_r. }
  assert (Tail : forall k : nat,
             silent store_of
               (do! n := lift (py_len ds) in
                do! _ := print TransformationComplete in
                do! _ := print (Summary n k (List.length ts)) in
                log (Summary n k (List.length ts)))).
  { intros k. apply silent_bind; [apply silent_lift | intros n].
    repeat (apply silent_bind; [apply silent_emit; reflexivity | intros _]).
    apply silent_emit. reflexivity. }
  assert (Login : forall r st3,
             (do! _ := log (Text "Uploading records to BEEP API") in
              get_beep_token w (BEEP_EMAIL c) (BEEP_PASSWORD c)) st1 = (r, st3) ->
             stores (trace st3) = stores (trace st)).
  { intros r st3 H. rewrite <- S1.
    assert (Sil : silent store_of
              (do! _ := log (Text "Uploading records to BEEP API") in
               get_beep_token w (BEEP_EMAIL c) (BEEP_PASSWORD c))).
    { apply silent_bind; [apply silent_emit; reflexivity | intros _].
      apply silent_get_beep_token. reflexivity. }
    exact (proj2 (Sil _ _ _ H)). }
  assert (Split : forall s,
             (do! _ := log (Text "Uploading records to BEEP API") in
              do! beep_token := get_beep_token w (BEEP_EMAIL c) (BEEP_PASSWORD c) in
              upload_records w ts beep_token) s
             = match (do! _ := log (Text "Uploading records to BEEP API") in
                      get_beep_token w (BEEP_EMAIL c) (BEEP_PASSWORD c)) s with
               | (Ok tok, s') => (Ok tt, fold_left (upload_step_spec w tok) ts s')
               | (Raise e, s') => (Raise e, s')
               end).
  { intros s. unfold bind. cbn [log emit].
    destruct (get_beep_token w (BEEP_EMAIL c) (BEEP_PASSWORD c) _) as [[tok|e] s'];
      [apply upload_records_spec | reflexivity]. }
  unfold bind at 1 in Hu. rewrite Split in Hu.
  pose proof (Login _ _ (surjective_pairing _)) as Etok. clear Login.
  destruct ((do! _ := log (Text "Uploading records to BEEP API") in
             get_beep_token w (BEEP_EMAIL c) (BEEP_PASSWORD c)) st1)
    as [[tok|e] st3]; cbn [snd] in Etok.
  - left. destruct (Tail _ _ _ _ Hu) as [_ S3].
    change (stores (trace st_u)
            = stores (trace (fold_left (upload_step_spec w tok) ts st3))) in S3.
    rewrite S3, upload_fold_stores, Etok. reflexivity.
  - injection Hu as <- <-. right. split; [exact Etok | eauto].
Qed.

Lemma preview_is_what_an_upload_submits_witness :
  exists ts : list transformed,
    In (WriteJson preview_file (List.map (fun t => fst (fst t)) ts))
       (trace (snd Runs.dry_pipeline)) /\
    stores (trace (snd Sample.first_run)) = List.map (fun t => fst (fst t)) ts.
Proof.
  assert (H1 : pipeline Sample.world_with_files Runs.dry_args Sample.creds Sample.dataset
                 Sample.checklists Sample.hives Sample.fresh
               = (Ok tt, snd Runs.dry_pipeline)).
  { transitivity (fst Runs.dry_pipeline, snd Runs.dry_pipeline);
      [apply surjective_pairing | f_equal; vm_compute; reflexivity]. }
  destruct (preview_is_what_an_upload_submits
              Sample.world_with_files Runs.dry_args Sample.upload_args Sample.creds
              Sample.dataset Sample.checklists Sample.hives Sample.fresh
              (snd Runs.dry_pipeline) (fst Sample.first_run) (snd Sample.first_run)
              eq_refl (conj eq_refl eq_refl) eq_refl H1 (surjective_pairing _))
    as (eligible & m & ts & _ & _ & _ & Htr & Hst).
  exists ts. split.
  - rewrite Htr. apply in_or_app. right. right. left. reflexivity.
  - destruct Hst as [H|[H _]]; [exact H|]. exfalso. vm_compute in H. discriminate H.
Defined.

Lemma records_to_import_is_a_filter_witness :
  records_to_import {["2"]} Sample.dataset = Ok [Sample.record 1; Sample.record 3] /\
  source_id (JObj [("type", JStr "Foo")]) = "None".
Proof.
  split.
  - rewrite (proj1 (records_to_import_is_a_filter {["2"]}
                      [Sample.record 1; Sample.record 2; Sample.record 3])).
    vm_compute. reflexivity.
  - apply (proj1 (proj2 (records_to_import_is_a_filter ∅ []))). reflexivity.
Defined.

(** ** The ledger, written and read back *)

(** X18.  After [mark_imported] the ids that [get_imported_ids] reads are
    the ids it read before together with the marked one, so the filter of
    line 324 lets through no record with that ledger key, nor any it held
    back before. *)
Theorem marked_record_is_filtered_out w st record_id d c :
  let st1 := snd (mark_imported w record_id d c st) in
  exists ids ids1 : gset string,
    get_imported_ids st = (Ok ids, st) /\
    get_imported_ids st1 = (Ok ids1, st1) /\
    ids1 = {[record_id]} ∪ ids /\
    forall rs out,
      records_to_import ids1 (JArr rs) = Ok out ->
      Forall (fun r => source_id r <> record_id /\ source_id r ∉ ids) out.
Proof.
  intros st1. eexists _, _. split; [reflexivity|]. split; [reflexivity|].
  assert (E : (list_to_set (List.map LedgerRow.record_id (table st1)) : gset string)
              = {[record_id]} ∪ list_to_set (List.map LedgerRow.record_id (table st))).
  { apply set_eq. intros x.
    rewrite elem_of_union, elem_of_singleton.
    change (List.map LedgerRow.record_id (table st1)) with (known_ids (table st1)).
    change (List.map LedgerRow.record_id (table st)) with (known_ids (table st)).
    rewrite !in_list_to_set. unfold st1. cbn [mark_imported snd table].
    rewrite known_ids_insert. reflexivity. }
  split; [exact E|].
  intros rs out H. rewrite E in H.
  change (keep_new ({[record_id]} ∪ list_to_set (List.map LedgerRow.record_id (table st))) rs
          = Ok out) in H.
  rewrite keep_new_filter in H. destruct (forallb is_object rs); [|discriminate].
  injection H as <-. apply List.Forall_forall. intros r Hr.
  apply List.filter_In in Hr as [_ Hr]. apply negb_true_iff, bool_decide_eq_false in Hr.
  rewrite elem_of_union, elem_of_singleton in Hr. tauto.
Qed.

Lemma marked_record_is_filtered_out_witness :
  records_to_import
    (list_to_set (known_ids (table (snd (mark_imported Sample.world_with_files "2" "d" "c"
                                           Sample.fresh)))))
    Sample.dataset
  = Ok [Sample.record 1; Sample.record 3] /\
  Forall (fun r => source_id r <> "2") [Sample.record 1; Sample.record 3].
Proof.
  split; [vm_compute; reflexivity|].
  destruct (marked_record_is_filtered_out Sample.world_with_files Sample.fresh "2" "d" "c")
    as (ids & ids1 & _ & Hg & _ & Hf).
  injection Hg as <-.
  eapply List.Forall_impl;
    [|apply (Hf [Sample.record 1; Sample.record 2; Sample.record 3]); vm_compute; reflexivity].
  intros r [H _]. exact H.
Defined.

(** ** Dates that were normalized *)

Lemma digit_char_is_digit n : is_digit (digit_char n) = true.
Proof.
  unfold digit_char.
  assert (H : (0 <= n mod 10 < 10)%Z) by (apply Z.mod_pos_bound; lia).
  assert (C : (n mod 10 = 0 \/ n mod 10 = 1 \/ n mod 10 = 2 \/ n mod 10 = 3 \/ n mod 10 = 4 \/
               n mod 10 = 5 \/ n mod 10 = 6 \/ n mod 10 = 7 \/ n mod 10 = 8 \/ n mod 10 = 9)%Z)
    by lia.
  repeat (destruct C as [C|C]; [rewrite C; reflexivity|]). rewrite C. reflexivity.
Qed.

Lemma strftime_has_no_point dt : ~ In "."%char (list_ascii_of_string (strftime dt)).
Proof.
  unfold strftime, pad4, pad2. cbn. intros H.
  repeat (destruct H as [H|H];
          [first [discriminate H
                 | match type of H with
                   | digit_char ?n = _ =>
                       pose proof (digit_char_is_digit n) as D; rewrite H in D; discriminate D
                   end]|]).
  exact H.
Qed.

(** X19.  Normalization does not take its own output: the normalized date
    has no fraction, so giving it to the normalizer again raises
    ValueError. *)
Theorem normalized_date_is_not_an_input v out :
  normalize_date v = Ok out -> normalize_date (JStr out) = Raise ValueError.
Proof.
  intros H. destruct v; simpl in H; try discriminate.
  destruct (strptime s) as [dt|] eqn:E; simpl in H; [|discriminate].
  injection H as <-. simpl.
  destruct (strptime (strftime dt)) as [dt'|e] eqn:E'.
  - exfalso. apply strptime_sound in E'.
    destruct E' as (ys & mo & d & h & mi & sec & fs & t & z & Et & _).
    apply (strftime_has_no_point dt). rewrite Et.
    apply in_or_app; right; right.
    apply in_or_app; right; right.
    apply in_or_app; right; right.
    apply in_or_app; right; right.
    apply in_or_app; right; right.
    apply in_or_app; right; left. reflexivity.
  - apply strptime_raises in E'. subst e. reflexivity.
Qed.

Lemma normalized_date_is_not_an_input_witness :
  normalize_date (JStr "2024-05-11T12:34:56.789012Z") = Ok "2024-05-11T12:34:56Z" /\
  normalize_date (JStr "2024-05-11T12:34:56Z") = Raise ValueError.
Proof.
  split; [vm_compute; reflexivity|].
  apply (normalized_date_is_not_an_input (JStr "2024-05-11T12:34:56.789012Z")).
  vm_compute. reflexivity.
Defined.

(** ** Batches *)

Lemma mapM_app {A B} (f : A -> result B) l1 l2 :
  mapM f (l1 ++ l2) = let! a := mapM f l1 in let! b := mapM f l2 in Ok (a ++ b).
Proof.
  induction l1 as [|x l1 IH]; simpl.
  - destruct (mapM f l2); reflexivity.
  - destruct (f x) as [y|]; simpl; [|reflexivity]. rewrite IH.
    destruct (mapM f l1); simpl; [|reflexivity].
    destruct (mapM f l2); reflexivity.
Qed.

(** X20.  Records are transformed independently of one another:
    transforming a batch gives the same result, payloads or exception, as
    transforming a first part and then the rest and joining the outputs; so
    the payload of a record in a batch that succeeds is the payload it gets
    when transformed alone. *)
Theorem records_are_transformed_independently rs1 rs2 hv cl m :
  transform_records (rs1 ++ rs2) hv cl m
  = (let! a := transform_records rs1 hv cl m in
     let! b := transform_records rs2 hv cl m in
     Ok (a ++ b)) /\
  (forall out r,
      transform_records (rs1 ++ rs2) hv cl m = Ok out -> In r (rs1 ++ rs2) ->
      exists t, transform_records [r] hv cl m = Ok [t] /\ In t out).
Proof.
  split.
  - unfold transform_records.
    destruct (name_id_map hv "hives") as [hm|]; simpl; [|reflexivity].
    destruct (name_id_map cl "checklists") as [cm|]; simpl; [|reflexivity].
    destruct (py_get m (JStr "checklist_fallback") (JStr "TBD")) as [fb|]; simpl;
      [|reflexivity].
    apply mapM_app.
  - intros out r H Hin. unfold transform_records in *.
    destruct (name_id_map hv "hives") as [hm|]; simpl in *; [|discriminate].
    destruct (name_id_map cl "checklists") as [cm|]; simpl in *; [|discriminate].
    destruct (py_get m (JStr "checklist_fallback") (JStr "TBD")) as [fb|]; simpl in *;
      [|discriminate].
    apply mapM_Forall2 in H. revert Hin. generalize (rs1 ++ rs2) H. clear H.
    intros rs H. induction H as [|x t rs out Hx _ IH]; intros Hin; [destruct Hin|].
    destruct Hin as [->|Hin].
    + exists t. rewrite Hx. split; [reflexivity | left; reflexivity].
    + destruct (IH Hin) as (t' & Ht & Hin'). exists t'. split; [exact Ht | right; exact Hin'].
Qed.

Lemma records_are_transformed_independently_witness :
  exists t,
    transform_records [Sample.record 2] Sample.hives Sample.checklists Sample.mappings = Ok [t] /\
    In t Sample.three.
Proof.
  apply (proj2 (records_are_transformed_independently [Sample.record 1]
                  [Sample.record 2; Sample.record 3] Sample.hives Sample.checklists
                  Sample.mappings)).
  - vm_compute. reflexivity.
  - right. left. reflexivity.
Defined.

(** ** The direct field map *)

Lemma field_map_fold kv fm its :
  Forall (fun e => exists field, snd e = JStr field) fm ->
  foldM (fun its e =>
           let! present := py_in (snd e) (JObj kv) in
           if present then
             let! v := py_get (JObj kv) (snd e) JNull in
             match v with
             | JNull => Ok its
             | _ => Ok (dict_set (JStr (fst e)) v its)
             end
           else Ok its) fm its
  = Ok (apply_writes (field_writes kv fm) its).
Proof.
  intros H. revert its. induction H as [|[code x] fm [field Hx] _ IH]; intros its;
    [reflexivity|].
  simpl in Hx. subst x. cbn [foldM fst snd py_in py_get].
  unfold field_writes. cbn [omap list_omap fst snd]. fold (field_writes kv fm).
  unfold copied. destruct (obj_get field kv) as [v|]; cbn.
  - destruct v; cbn; rewrite IH; reflexivity.
  - rewrite IH. reflexivity.
Qed.

Lemma field_writes_keys kv fm :
  Forall (fun p => exists code, fst p = JStr code /\ In code (List.map fst fm))
         (field_writes kv fm).
Proof.
  induction fm as [|[code x] fm IH]; [constructor|].
  unfold field_writes. cbn [omap list_omap fst snd]. fold (field_writes kv fm).
  assert (IH' : Forall (fun p => exists c, fst p = JStr c /\ In c (List.map fst ((code, x) :: fm)))
                       (field_writes kv fm)).
  { eapply List.Forall_impl; [|exact IH]. intros p (c & Hc & Hin). exists c. simpl. auto. }
  destruct x; try exact IH'.
  destruct (copied s kv); cbn; [|exact IH'].
  constructor; [|exact IH']. exists code. simpl. auto.
Qed.

Lemma last_write_absent code ws :
  Forall (fun p => exists c, fst p = JStr c /\ c <> code) ws ->
  last_write (JStr code) ws = None.
Proof.
  induction 1 as [|[k v] ws (c & Hk & Hc) _ IH]; [reflexivity|].
  simpl in Hk. subst k. simpl. rewrite IH.
  destruct (String.eqb_spec c code); [contradiction | reflexivity].
Qed.

Lemma field_writes_lookup kv fm code :
  NoDup (List.map fst fm) ->
  last_write (JStr code) (field_writes kv fm)
  = match obj_get code fm with
    | Some (JStr field) => copied field kv
    | _ => None
    end.
Proof.
  induction fm as [|[c x] fm IH]; intros Hnd; [reflexivity|].
  apply NoDup_cons in Hnd as [Hc Hnd]. specialize (IH Hnd).
  unfold field_writes. cbn [omap list_omap fst snd obj_get]. fold (field_writes kv fm).
  destruct (String.eqb_spec code c) as [->|Hne].
  - assert (Hnone : last_write (JStr c) (field_writes kv fm) = None).
    { apply last_write_absent. eapply List.Forall_impl; [|apply field_writes_keys].
      intros p (c' & Hp & Hin). exists c'. split; [exact Hp|].
      intros ->. apply Hc. apply list_elem_of_In. exact Hin. }
    destruct x; try exact Hnone.
    destruct (copied s kv) as [v|]; cbn; [|exact Hnone].
    rewrite Hnone. simpl. rewrite String.eqb_refl. reflexivity.
  - destruct x; try exact IH.
    destruct (copied s kv) as [v|]; cbn; [|exact IH].
    rewrite IH. destruct (obj_get code fm) as [[]|]; try reflexivity.
    + simpl. destruct (String.eqb_spec c code); [congruence | reflexivity].
    + simpl. destruct (String.eqb_spec c code); [congruence | reflexivity].
    + simpl. destruct (String.eqb_spec c code); [congruence | reflexivity].
    + destruct (copied s0 kv); [reflexivity|].
      simpl. destruct (String.eqb_spec c code); [congruence | reflexivity].
    + simpl. destruct (String.eqb_spec c code); [congruence | reflexivity].
    + simpl. destruct (String.eqb_spec c code); [congruence | reflexivity].
    + simpl. destruct (String.eqb_spec c code); [congruence | reflexivity].
Qed.

(** X21.  Step 1 copies every mapped field that the record has with a value
    other than null -- 0, false and the empty text included -- and nothing
    else: on empty items, the item of a code is the record's value of the
    field the code is mapped to, and there is no item for a code whose field
    is missing or null, nor for a code the map does not have. *)
Theorem field_map_copies_all_but_null kv m fm :
  py_get m (JStr "field_map") (JObj []) = Ok (JObj fm) ->
  Forall (fun e => exists field, snd e = JStr field) fm ->
  NoDup (List.map fst fm) ->
  exists d,
    apply_field_map (JObj kv) m [] = Ok d /\
    (forall code field,
        obj_get code fm = Some (JStr field) ->
        dict_get (JStr code) d = copied field kv) /\
    (forall code, obj_get code fm = None -> dict_get (JStr code) d = None) /\
    (forall field v, obj_get field kv = Some v -> v <> JNull -> copied field kv = Some v).
Proof.
  intros Hm Hf Hnd. exists (apply_writes (field_writes kv fm) []).
  assert (Hk : Forall (fun p => hashable (fst p) = true) (field_writes kv fm)).
  { eapply List.Forall_impl; [|apply field_writes_keys]. intros p (c & -> & _). reflexivity. }
  split; [|split; [|split]].
  - unfold apply_field_map. rewrite Hm. cbn [rbind py_items].
    apply field_map_fold. exact Hf.
  - intros code field Hc.
    rewrite dict_get_apply_writes by (reflexivity || exact Hk).
    rewrite field_writes_lookup by exact Hnd. rewrite Hc.
    cbn. destruct (copied field kv); reflexivity.
  - intros code Hc.
    rewrite dict_get_apply_writes by (reflexivity || exact Hk).
    rewrite field_writes_lookup by exact Hnd. rewrite Hc. reflexivity.
  - intros field v Hv Hn. unfold copied. rewrite Hv. destruct v; congruence.
Qed.

Lemma field_map_copies_all_but_null_witness :
  exists d,
    apply_field_map
      (JObj [("weight", JNum 0); ("temp", JNull); ("mood", JStr "")])
      (JObj [("field_map", JObj [("10", JStr "weight"); ("20", JStr "temp");
                                 ("30", JStr "mood"); ("40", JStr "queen")])]) [] = Ok d /\
    dict_get (JStr "10") d = Some (JNum 0) /\
    dict_get (JStr "20") d = None /\
    dict_get (JStr "30") d = Some (JStr "") /\
    dict_get (JStr "40") d = None.
Proof.
  destruct (field_map_copies_all_but_null
              [("weight", JNum 0); ("temp", JNull); ("mood", JStr "")]
              (JObj [("field_map", JObj [("10", JStr "weight"); ("20", JStr "temp");
                                         ("30", JStr "mood"); ("40", JStr "queen")])])
              [("10", JStr "weight"); ("20", JStr "temp"); ("30", JStr "mood");
               ("40", JStr "queen")])
    as (d & Hd & Hl & _).
  - reflexivity.
  - repeat constructor; eexists; reflexivity.
  - repeat constructor; simpl; rewrite ?list_elem_of_In; simpl; intuition discriminate.
  - exists d. split; [exact Hd|].
    rewrite (Hl "10" "weight" eq_refl), (Hl "20" "temp" eq_refl),
      (Hl "30" "mood" eq_refl), (Hl "40" "queen" eq_refl).
    repeat split; reflexivity.
Defined.

(** ** The HiveTracks token *)

Lemma fetch_pages_first w token fuel p records st r st' :
  fetch_pages w (S fuel) token (Z.of_nat p) records st = (r, st') ->
  exists n,
    requests (trace st') = requests (trace st) ++ List.map (page_request token) (seq p (S n)).
Proof.
  intros H. cbn [fetch_pages] in H. unfold bind at 1 in H. cbn [log emit] in H.
  unfold bind at 1 in H. rewrite get_page_cases in H. cbn [table trace] in H.
  match type of H with
  | match ?res with Ok _ => _ | Raise _ => _ end = _ => destruct res as [page_data|e]
  end.
  2: { injection H as <- <-. exists 0%nat. cbn [trace]. rewrite !requests_app. cbn.
       rewrite app_nil_r. reflexivity. }
  destruct (py_truthy page_data).
  - unfold bind at 1 in H. unfold lift in H. destruct (py_iter page_data) as [more|e].
    + replace (Z.of_nat p + 1)%Z with (Z.of_nat (S p)) in H by lia.
      apply fetch_pages_requests in H as (_ & n & _ & Hreq & _). cbn [trace] in Hreq.
      exists n. rewrite Hreq, !requests_app. cbn. rewrite app_nil_r, <- app_assoc. reflexivity.
    + injection H as <- <-. exists 0%nat. cbn [trace]. rewrite !requests_app. cbn.
      rewrite app_nil_r. reflexivity.
  - injection H as <- <-. exists 0%nat. cbn [trace]. rewrite !requests_app. cbn.
    rewrite app_nil_r. reflexivity.
Qed.

(** X22.  [get_hivetracks_token] does not check the token: whatever the
    sign-in answer holds at result.data.json.tokens.accessToken, null
    included, is returned, and the first page is then requested with the
    cookie "access_token=" followed by [str] of it. *)
Theorem hivetracks_token_is_not_checked w email password st status body token :
  http w (trace st) (HtSignin email password) = Response status (Some body) ->
  is_error_status status = false ->
  access_token_of body = Ok token ->
  exists st1,
    get_hivetracks_token w email password st = (Ok token, st1) /\
    forall fuel r st',
      get_hivetracks_records w (S fuel) token st1 = (r, st') ->
      exists more,
        requests (trace st')
        = requests (trace st1)
          ++ HtGetPage records_url ("access_token=" +:+ py_str token) 0 :: more.
Proof.
  intros Hresp Hs Htok. eexists. split.
  - unfold get_hivetracks_token, request_ok, send, bind. cbn. rewrite Hresp, Hs. cbn.
    unfold access_token_of in Htok. unfold lift. rewrite Htok. reflexivity.
  - intros fuel r st' H. unfold get_hivetracks_records, bind in H.
    destruct (fetch_pages w (S fuel) token 0 [] _) as [[records|e] s] eqn:E;
      injection H as _ <-;
      apply (fetch_pages_first w token fuel 0) in E as [n E];
      exists (List.map (page_request token) (seq 1 n)); exact E.
Qed.

Lemma hivetracks_token_is_not_checked_witness :
  let w := {| getenv := fun _ => Some "secret";
              read_json := fun _ => None;
              http := fun _ req =>
                        match req with
                        | HtSignin _ _ =>
                            Response 200
                              (Some (JObj [("result", JObj [("data", JObj [("json",
                                       JObj [("tokens", JObj [("accessToken", JNull)])])])])]))
                        | _ => NoResponse
                        end;
              sql_now := fun _ => "" |} in
  exists st1 more,
    get_hivetracks_token w "me" "pw" Sample.fresh = (Ok JNull, st1) /\
    requests (trace (snd (get_hivetracks_records w 1 JNull st1)))
    = requests (trace st1) ++ HtGetPage records_url "access_token=None" 0 :: more.
Proof.
  intros w.
  destruct (hivetracks_token_is_not_checked w "me" "pw" Sample.fresh 200
              (JObj [("result", JObj [("data", JObj [("json",
                 JObj [("tokens", JObj [("accessToken", JNull)])])])])]) JNull
              eq_refl eq_refl eq_refl) as (st1 & Htok & Hreq).
  destruct (Hreq 0%nat _ _ (surjective_pairing _)) as [more Hmore].
  exists st1, more. split; [exact Htok | exact Hmore].
Defined.

(** ** The order of the requests *)

Lemma upload_step_requests w tok st t :
  requests (trace (upload_step_spec w tok st t)) = requests (trace st) ++ [store_request tok t].
Proof.
  unfold upload_step_spec. destruct (accepted _); cbn [trace]; rewrite !requests_app; cbn;
    rewrite ?app_nil_r; reflexivity.
Qed.

Lemma upload_fold_requests w tok ts st :
  requests (trace (fold_left (upload_step_spec w tok) ts st))
  = requests (trace st) ++ List.map (store_request tok) ts.
Proof.
  revert st. induction ts as [|t ts IH]; intros st; simpl.
  - rewrite app_nil_r. reflexivity.
  - rewrite IH, upload_step_requests, <- app_assoc. reflexivity.
Qed.

Lemma acquire_api_in_order w a c fuel st data st' :
  import_from_file a = false ->
  acquire w a c fuel st = (Ok data, st') ->
  exists ht_token beep_token n,
    (1 <= n)%nat /\
    requests (trace st')
    = requests (trace st)
      ++ [HtSignin (HIVETRACKS_EMAIL c) (HIVETRACKS_PASSWORD c)]
      ++ List.map (page_request ht_token) (seq 0 n)
      ++ [BeepLogin (BEEP_EMAIL c) (BEEP_PASSWORD c);
          BeepGet lists_url ("Bearer " +:+ py_str beep_token);
          BeepGet beep_hives_url ("Bearer " +:+ py_str beep_token)].
Proof.
  intros Ea H. unfold acquire in H. rewrite Ea in H.
  unfold bind at 1 in H. cbn [log emit] in H.
  step H E1 ht_token s1; [|discriminate].
  destruct (get_hivetracks_token_trace _ _ _ _ _ _ E1) as [r1 T1]. cbn [trace] in T1.
  step H E2 recs s2; [|discriminate].
  assert (T2 : exists n, (1 <= n)%nat /\
                 requests (trace s2)
                 = requests (trace s1) ++ List.map (page_request ht_token) (seq 0 n)).
  { unfold get_hivetracks_records, bind in E2.
    destruct (fetch_pages w fuel ht_token 0 [] s1) as [[records|e] s] eqn:E; [|discriminate].
    injection E2 as _ <-.
    apply (fetch_pages_requests w ht_token fuel 0) in E as (_ & n & _ & Hreq & Hok).
    exists n. split; [exact (Hok records eq_refl) | exact Hreq]. }
  destruct T2 as (n & Hn & T2).
  step H E3 tok s3; [|discriminate].
  destruct (get_beep_token_trace _ _ _ _ _ _ E3) as [r3 T3].
  step H E4 cls s4; [|discriminate].
  destruct (get_beep_data_trace _ _ _ _ _ _ E4) as [r4 T4].
  step H E5 hvs s5; [|discriminate].
  destruct (get_beep_data_trace _ _ _ _ _ _ E5) as [r5 T5].
  injection H as _ <-. exists ht_token, tok, n. split; [exact Hn|].
  rewrite T5, requests_app, T4, requests_app, T3, requests_app, T2, T1, !requests_app.
  cbn. rewrite !app_nil_r, <- !app_assoc. reflexivity.
Qed.

Lemma pipeline_upload_in_order w a c ds cl hv st st' :
  uploading a ->
  pipeline w a c ds cl hv st = (Ok tt, st') ->
  exists tok eligible m ts,
    records_to_import (list_to_set (known_ids (table st))) ds = Ok eligible /\
    transform_records eligible hv cl m = Ok ts /\
    requests (trace st')
    = requests (trace st)
      ++ BeepLogin (BEEP_EMAIL c) (BEEP_PASSWORD c) :: List.map (store_request tok) ts.
Proof.
  intros [Eu Ed] H. rewrite pipeline_cases, Ed, Eu in H.
  destruct (records_to_import (list_to_set (known_ids (table st))) ds) as [eligible|];
    [|discriminate].
  rewrite load_mappings_cases in H.
  destruct (read_json w (mappings_file a)) as [[v|]|]; try discriminate.
  destruct v as [| | | | |kv]; try discriminate.
  match type of H with
  | match transform_records _ _ _ ?m with _ => _ end = _ =>
      destruct (transform_records eligible hv cl m) as [ts|] eqn:Et; [|discriminate];
      set (ruleset := m) in *
  end.
  unfold bind at 1 in H.
  match type of H with
  | match ?up ?s1 with _ => _ end = _ => destruct (up s1) as [[u|e] s2] eqn:Eup; [|discriminate]
  end.
  unfold bind at 1 in Eup. cbn [log emit table trace] in Eup.
  step Eup E3 tok s3; [|discriminate].
  destruct (get_beep_token_trace _ _ _ _ _ _ E3) as [r3 T3]. cbn [trace] in T3.
  rewrite upload_records_spec in Eup. injection Eup as _ <-.
  assert (Tail : silent request_of
            (do! n := lift (py_len ds) in
             do! _ := print TransformationComplete in
             do! _ := print (Summary n (List.length eligible) (List.length ts)) in
             log (Summary n (List.length eligible) (List.length ts)))).
  { apply silent_bind; [apply silent_lift | intros n].
    repeat (apply silent_bind; [apply silent_emit; reflexivity | intros _]).
    apply silent_emit. reflexivity. }
  destruct (Tail _ _ _ H) as [_ S].
  change (requests (trace st')
          = requests (trace (fold_left (upload_step_spec w tok) ts s3))) in S.
  exists tok, eligible, ruleset, ts. split; [reflexivity|]. split; [exact Et|].
  rewrite S, upload_fold_requests, T3, !requests_app. cbn.
  rewrite !app_nil_r, <- app_assoc. reflexivity.
Qed.

(** X23.  A run from the APIs that uploads and completes has sent its
    requests in this order: the HiveTracks sign-in; the pages of records,
    at least one; the BEEP login and the two reference lists, both fetched
    with one token; a second BEEP login; and then the store requests, one
    per payload, all with one and the same token. *)
Theorem api_upload_run_in_order w a fuel st st' :
  main w a fuel st = (Completed, st') ->
  import_from_file a = false ->
  uploading a ->
  exists c ht_token beep_token upload_token n ts,
    env_credentials w c /\ (1 <= n)%nat /\
    requests (trace st')
    = requests (trace st)
      ++ [HtSignin (HIVETRACKS_EMAIL c) (HIVETRACKS_PASSWORD c)]
      ++ List.map (page_request ht_token) (seq 0 n)
      ++ [BeepLogin (BEEP_EMAIL c) (BEEP_PASSWORD c);
          BeepGet lists_url ("Bearer " +:+ py_str beep_token);
          BeepGet beep_hives_url ("Bearer " +:+ py_str beep_token);
          BeepLogin (BEEP_EMAIL c) (BEEP_PASSWORD c)]
      ++ List.map (store_request upload_token) ts.
Proof.
  intros H Ea Hup. unfold main in H.
  destruct (require_credentials_cases w st) as [(c & Hc & _)|(Hc & _)];
    rewrite Hc in H; [|discriminate].
  destruct (require_credentials_env _ _ _ _ Hc) as [_ Henv].
  match type of H with
  | match ?body st with _ => _ end = _ => destruct (body st) as [[u|e] st2] eqn:E
  end.
  2: { destruct e; discriminate. }
  injection H as <-.
  unfold bind at 1 in E. cbn [init_db ret] in E.
  step E E1 data s1; [|discriminate].
  destruct data as [[records cl] hv].
  destruct (acquire_api_in_order _ _ _ _ _ _ _ Ea E1) as (ht & tok & n & Hn & T1).
  destruct u.
  destruct (pipeline_upload_in_order _ _ _ _ _ _ _ _ Hup E) as (tok2 & el & m & ts & _ & _ & T2).
  exists c, ht, tok, tok2, n, ts. split; [exact Henv|]. split; [exact Hn|].
  rewrite T2, T1, <- !app_assoc. cbn. reflexivity.
Qed.

Lemma api_upload_run_in_order_witness :
  exists ht_token beep_token upload_token n ts,
    requests (trace (snd Runs.from_apis))
    = [HtSignin "secret" "secret"]
      ++ List.map (page_request ht_token) (seq 0 n)
      ++ [BeepLogin "secret" "secret";
          BeepGet lists_url ("Bearer " +:+ py_str beep_token);
          BeepGet beep_hives_url ("Bearer " +:+ py_str beep_token);
          BeepLogin "secret" "secret"]
      ++ List.map (store_request upload_token) ts.
Proof.
  assert (H : main Sample.world_with_files Sample.api_args 5 Sample.fresh
              = (Completed, snd Runs.from_apis)).
  { transitivity (fst Runs.from_apis, snd Runs.from_apis);
      [apply surjective_pairing | f_equal; vm_compute; reflexivity]. }
  destruct (api_upload_run_in_order _ _ _ _ _ H eq_refl (conj eq_refl eq_refl))
    as (c & ht & tok & tok2 & n & ts & (E1 & E2 & E3 & E4) & _ & Hreq).
  cbn in E1, E2, E3, E4.
  injection E1 as E1. injection E2 as E2. injection E3 as E3. injection E4 as E4.
  rewrite <- E1, <- E2, <- E3, <- E4 in Hreq.
  exists ht, tok, tok2, n, ts. exact Hreq.
Defined.

(** ** The enums *)

Lemma obj_get_Forall (Q : string * json -> Prop) k kv v :
  Forall Q kv -> obj_get k kv = Some v -> exists k', Q (k', v).
Proof.
  induction 1 as [|[k0 v0] kv Hq _ IH]; simpl; [discriminate|].
  destruct (String.eqb k k0); [intros [= <-]; eauto | exact IH].
Qed.

Lemma apply_writes_pairs (sets : list (string * json)) its :
  fold_left (fun its p => dict_set (JStr (fst p)) (snd p) its) sets its
  = apply_writes (List.map (fun p => (JStr (fst p), snd p)) sets) its.
Proof.
  unfold apply_writes. revert its. induction sets as [|p sets IH]; intros its; [reflexivity|].
  simpl. apply IH.
Qed.

Lemma enum_step kv e its :
  plain_enum e ->
  (forall v, obj_get (fst e) kv = Some v -> hashable v = true) ->
  (let! ht_val := py_get (JObj kv) (JStr (fst e)) JNull in
   let! known := py_in ht_val (snd e) in
   if known then
     let! sets := py_getitem (snd e) ht_val in
     let! pairs := py_items sets in
     Ok (fold_left (fun its p => dict_set (JStr (fst p)) (snd p) its) pairs its)
   else Ok its)
  = Ok (apply_writes (enum_entry_writes kv e) its).
Proof.
  intros (vm & Hvm & Hsets) Hh. unfold enum_entry_writes. rewrite Hvm. cbn [py_get rbind default].
  destruct (obj_get (fst e) kv) as [v|] eqn:Ev; cbn [default].
  - specialize (Hh v eq_refl). destruct v; try discriminate; try reflexivity.
    cbn. destruct (obj_get s vm) as [x|] eqn:Ex; cbn; [|reflexivity].
    destruct (obj_get_Forall _ _ _ _ Hsets Ex) as (k0 & sets & Hx). simpl in Hx. subst x.
    cbn. rewrite apply_writes_pairs. reflexivity.
  - reflexivity.
Qed.

Lemma enum_fold kv en its :
  Forall plain_enum en ->
  (forall field v, In field (List.map fst en) -> obj_get field kv = Some v ->
                   hashable v = true) ->
  foldM (fun its e =>
           let! ht_val := py_get (JObj kv) (JStr (fst e)) JNull in
           let! known := py_in ht_val (snd e) in
           if known then
             let! sets := py_getitem (snd e) ht_val in
             let! pairs := py_items sets in
             Ok (fold_left (fun its p => dict_set (JStr (fst p)) (snd p) its) pairs its)
           else Ok its) en its
  = Ok (apply_writes (flat_map (enum_entry_writes kv) en) its).
Proof.
  intros H. revert its. induction H as [|e en He _ IH]; intros its Hh; [reflexivity|].
  cbn [foldM flat_map]. rewrite enum_step; [|exact He|].
  - cbn [rbind]. rewrite IH, apply_writes_app; [reflexivity|].
    intros field v Hin. apply Hh. right. exact Hin.
  - intros v. apply Hh. left. reflexivity.
Qed.

(** X24.  Step 2 looks a record's value up in an enum only as a text: when
    the enums map texts to objects and the record's values of the enum
    fields are not lists or objects, the step makes, enum after enum, the
    assignments the value map gives for the text the record has in that
    field; a field that is missing, null, a number or a boolean assigns
    nothing.  A list or an object in an enum field makes the step raise. *)
Theorem enums_match_text_values_only kv m en its :
  py_get m (JStr "enums") (JObj []) = Ok (JObj en) ->
  Forall plain_enum en ->
  ((forall field v, In field (List.map fst en) -> obj_get field kv = Some v ->
                    hashable v = true) ->
   apply_enums (JObj kv) m its
   = Ok (apply_writes (flat_map (enum_entry_writes kv) en) its)) /\
  ((forall field s, In field (List.map fst en) -> obj_get field kv <> Some (JStr s)) ->
   flat_map (enum_entry_writes kv) en = []) /\
  (forall field v, In field (List.map fst en) -> obj_get field kv = Some v ->
                   hashable v = false ->
                   exists e, apply_enums (JObj kv) m its = Raise e).
Proof.
  intros Hm Hp. split; [|split].
  - intros Hh. unfold apply_enums. rewrite Hm. cbn [rbind py_items].
    apply enum_fold; assumption.
  - intros Hn. clear Hp Hm. induction en as [|e en IH]; [reflexivity|].
    cbn [flat_map]. rewrite IH by (intros f s Hin; apply Hn; right; exact Hin).
    rewrite app_nil_r. unfold enum_entry_writes.
    destruct (snd e); try reflexivity.
    destruct (obj_get (fst e) kv) as [[]|] eqn:E; try reflexivity.
    exfalso. apply (Hn (fst e) s); [left; reflexivity | exact E].
  - intros field v Hin Hv Hh. unfold apply_enums. rewrite Hm. cbn [rbind py_items].
    apply in_map_iff in Hin as (e & <- & Hin).
    apply (foldM_raise _ _ e); [exact Hin|].
    intros b. cbn [py_get rbind]. rewrite Hv. cbn [default].
    rewrite List.Forall_forall in Hp. destruct (Hp e Hin) as (vm & -> & _).
    destruct v; try discriminate; cbn; eauto.
Qed.

Lemma enums_match_text_values_only_witness :
  apply_enums (Sample.record 1) Sample.mappings [(JStr "10", JNum 12)]
  = Ok [(JStr "10", JNum 12); (JStr "20", JNum 1); (JStr "30", JStr "c")] /\
  apply_enums (JObj [("mood", JNum 7)]) Sample.mappings [] = Ok [].
Proof.
  assert (Hp : Forall plain_enum [("mood", JObj [("calm", JObj [("20", JNum 1); ("30", JStr "c")])])]).
  { repeat constructor. eexists. split; [reflexivity|]. repeat constructor. eexists. reflexivity. }
  split.
  - unfold Sample.record.
    match goal with
    | |- apply_enums (JObj ?kv) _ _ = _ =>
        rewrite (proj1 (enums_match_text_values_only kv Sample.mappings _
                          [(JStr "10", JNum 12)] eq_refl Hp))
    end; [reflexivity|].
    intros field v [<-|[]] [= <-]. reflexivity.
  - rewrite (proj1 (enums_match_text_values_only [("mood", JNum 7)] Sample.mappings _ []
                      eq_refl Hp)); [reflexivity|].
    intros field v [<-|[]] [= <-]. reflexivity.
Defined.
